(** * Payment rail cost scenario explorer: the cost engine of [app.py]

    A shallow embedding of the computational part of [app.py] (the cost
    engine, the scenario builder and the comparison / share tables), and the
    properties of it that the specification states.

    Numbers.  The script computes on Python [int]s and binary64 [float]s.
    Integers are modelled as [Z].  Floats are modelled twice.

    - The exact reading: a float is the rational it denotes ([Q], compared
      with [==]), with no rounding and no overflow.  It carries the
      properties that are identities between real numbers (sums, shares,
      deltas), which the program keeps up to rounding.  What it keeps of the
      float behaviour is the outcome of a division by zero: a Python scalar
      division raises [ZeroDivisionError], a NumPy / pandas division yields a
      non-finite value ([inf] or [nan]).

    - The binary64 reading, module [Binary64]: a float is an IEEE 754 double
      ([spec_float] at precision 53, exponent range 1024), every operation
      rounds to nearest even, overflows to [inf] and propagates [nan] as the
      processor does, and the conversions between [int] and [float] raise as
      Python does.  It carries the properties that depend on rounding, on
      overflow or on the exceptions raised. *)

From Stdlib Require Import ZArith QArith Qround Qabs Qfield Qpower Lia Lqa.
From Stdlib Require Import SpecFloat.
From stdpp Require Import base option list strings gmap.

Local Open Scope Z_scope.
Local Open Scope Q_scope.

(** ** Python values and exceptions *)

Inductive exn : Type :=
| KeyError (key : string)
| ZeroDivisionError
| OverflowError
| ValueError.

Inductive result (A : Type) : Type :=
| Ok (a : A)
| Raise (e : exn).

Arguments Ok {A} a.
Arguments Raise {A} e.

#[global] Instance result_ret : MRet result := fun _ a => Ok a.
#[global] Instance result_bind : MBind result := fun _ _ f r =>
  match r with
  | Ok a => f a
  | Raise e => Raise e
  end.

(** [for x in xs: st = body st x], stopping at the first exception. *)
Fixpoint for_each {S A : Type} (body : S -> A -> result S) (xs : list A) (st : S)
  : result S :=
  match xs with
  | [] => Ok st
  | x :: xs' => st' ← body st x; for_each body xs' st'
  end.

(** [d[k]] on a dict. *)
Definition getitem {A : Type} (d : gmap string A) (k : string) : result A :=
  match d !! k with
  | Some v => Ok v
  | None => Raise (KeyError k)
  end.

(** [x / y] on Python scalars. *)
Definition py_div (x y : Q) : result Q :=
  if Qeq_bool y 0 then Raise ZeroDivisionError else Ok (x / y).

(** [int(x)] on a float: the fractional part is dropped. *)
Definition py_int (x : Q) : Z := Z.quot (Qnum x) (Zpos (Qden x)).

(** A NumPy float: finite, or one of [inf], [-inf], [nan]. *)
Inductive npfloat : Type :=
| Finite (q : Q)
| NonFinite.

(** [x / y] on NumPy scalars and pandas columns: no exception on a zero
    divisor, the quotient is [inf] or [nan].  In the exact reading this is
    the only source of a non-finite value; overflow is in [Binary64]. *)
Definition np_div (x y : Q) : npfloat :=
  if Qeq_bool y 0 then NonFinite else Finite (x / y).

Definition np_mul (x : npfloat) (k : Q) : npfloat :=
  match x with
  | Finite q => Finite (q * k)
  | NonFinite => NonFinite
  end.

(** ** Constants of the script *)

Definition PAYMENT_METHODS : list string :=
  [ "Invoice (no fee)"; "Installments"; "Prepayment"; "TWINT";
    "Visa"; "Mastercard"; "PayPal" ]%string.

Definition AVERAGE_BASKET_VALUE : Q := 200.

Definition cost_blocks : list string :=
  [ "PSP fees"; "Process costs"; "Dev & maintenance"; "Write-offs";
    "Dunning fee revenue" ]%string.

(** The per-method parameter dict, whose five keys are fixed. *)
Record CostParams : Type := mkCostParams {
  psp_fee : Q;
  process_cost : Q;
  dev_maintenance : Q;
  write_off_rate : Q;
  dunning_fee_per_tx : Q;
}.

Definition baseline_transactions : gmap string Z :=
  list_to_map
    [ ("Invoice (no fee)"%string, 600000%Z); ("Installments"%string, 40000%Z);
      ("Prepayment"%string, 30000%Z); ("TWINT"%string, 350000%Z);
      ("Visa"%string, 220000%Z); ("Mastercard"%string, 140000%Z);
      ("PayPal"%string, 80000%Z) ].

Definition default_cost_params : gmap string CostParams :=
  list_to_map
    [ ("Invoice (no fee)"%string, mkCostParams 0 0.10 0.10 0.008 0.30);
      ("Installments"%string, mkCostParams 0 0.10 0.10 0.010 0.40);
      ("Prepayment"%string, mkCostParams 0 0.08 0.05 0 0);
      ("TWINT"%string, mkCostParams 0.020 0.05 0.05 0 0);
      ("Visa"%string, mkCostParams 0.018 0.05 0.05 0 0);
      ("Mastercard"%string, mkCostParams 0.018 0.05 0.05 0 0);
      ("PayPal"%string, mkCostParams 0.030 0.05 0.05 0 0) ].

(** ** Cost engine *)

Definition compute_per_tx_cost_blocks (params : CostParams) : gmap string Q :=
  let psp := psp_fee params in
  let process := process_cost params in
  let dev := dev_maintenance params in
  let write_off := write_off_rate params * AVERAGE_BASKET_VALUE in
  let dunning_revenue := - dunning_fee_per_tx params in
  list_to_map
    [ ("PSP fees"%string, psp);
      ("Process costs"%string, process);
      ("Dev & maintenance"%string, dev);
      ("Write-offs"%string, write_off);
      ("Dunning fee revenue"%string, dunning_revenue) ].

(** One row of the frame [df] that [compute_costs] returns. *)
Record SummaryRow : Type := mkSummaryRow {
  payment_method : string;
  transactions : Z;
  total_cost : Q;
  average_cost : Q;
}.

(** Body of [for cb in cost_blocks], on the state
    [(breakdown, total_cost_pm)], in the exact reading; with rounding,
    overflow and the conversion of [tx] it is [Binary64.block_body]. *)
Definition block_body (pm : string) (per_tx_blocks : gmap string Q) (tx : Z)
    (st : gmap string (gmap string Q) * Q) (cb : string)
  : result (gmap string (gmap string Q) * Q) :=
  let '(breakdown, total_cost_pm) := st in
  per_tx ← getitem per_tx_blocks cb;
  let block_cost := per_tx * inject_Z tx in
  row ← getitem breakdown pm;
  old ← getitem row cb;
  Ok (<[pm := <[cb := old + block_cost]> row]> breakdown,
      total_cost_pm + block_cost).

(** Body of [for pm in PAYMENT_METHODS], on the state [(rows, breakdown)]. *)
Definition method_body (cost_params : gmap string CostParams)
    (transactions_dict : gmap string Z)
    (st : list SummaryRow * gmap string (gmap string Q)) (pm : string)
  : result (list SummaryRow * gmap string (gmap string Q)) :=
  let '(rows, breakdown) := st in
  tx ← getitem transactions_dict pm;
  params ← getitem cost_params pm;
  let per_tx_blocks := compute_per_tx_cost_blocks params in
  '(breakdown, total_cost_pm) ←
    for_each (block_body pm per_tx_blocks tx) cost_blocks (breakdown, 0);
  avg_cost_pm ←
    (if (0 <? tx)%Z then py_div total_cost_pm (inject_Z tx) else Ok 0);
  Ok (rows ++ [mkSummaryRow pm tx total_cost_pm avg_cost_pm], breakdown).

(** [{pm: {cb: 0.0 for cb in cost_blocks} for pm in PAYMENT_METHODS}] *)
Definition zero_breakdown : gmap string (gmap string Q) :=
  list_to_map
    (map (fun pm => (pm, list_to_map (map (fun cb => (cb, 0)) cost_blocks)))
         PAYMENT_METHODS).

Definition compute_costs (cost_params : gmap string CostParams)
    (transactions_dict : gmap string Z)
  : result (list SummaryRow * gmap string (gmap string Q)) :=
  for_each (method_body cost_params transactions_dict) PAYMENT_METHODS
           ([], zero_breakdown).

(** ** Baseline and scenario quantities *)

(** [{pm: baseline_transactions[pm] for pm in PAYMENT_METHODS}] *)
Definition baseline_tx (transactions : gmap string Z) : result (gmap string Z) :=
  for_each (fun d pm => v ← getitem transactions pm; Ok (<[pm := v]> d))
           PAYMENT_METHODS ∅.

(** Body of the loop that fills [scenario_tx], in the exact reading: [int]
    is applied to the exact product.  The product as the processor rounds
    it is [Binary64.scenario_body].  The slider values [relative_changes]
    are integers in the script; any number is accepted here, since
    [/ 100.0] is defined on both. *)
Definition scenario_body (btx : gmap string Z) (growth_factor : Q)
    (relative_changes : gmap string Q) (stx : gmap string Z) (pm : string)
  : result (gmap string Z) :=
  change ← getitem relative_changes pm;
  let factor := 1 + change / 100 in
  base ← getitem btx pm;
  Ok (<[pm := py_int (inject_Z base * growth_factor * factor)]> stx).

Definition scenario_tx (btx : gmap string Z) (growth_factor : Q)
    (relative_changes : gmap string Q) : result (gmap string Z) :=
  for_each (scenario_body btx growth_factor relative_changes) PAYMENT_METHODS ∅.

(** ** Totals and averages *)

Definition Qsum (xs : list Q) : Q := foldr Qplus 0 xs.
Definition Zsum (xs : list Z) : Z := foldr Z.add 0%Z xs.

(** [df["Transactions"].sum()] and [df["Total cost (CHF)"].sum()] *)
Definition total_transactions (df : list SummaryRow) : Z :=
  Zsum (map transactions df).
Definition total_cost_sum (df : list SummaryRow) : Q :=
  Qsum (map total_cost df).

Definition Qltb (x y : Q) : bool := negb (Qle_bool y x).

(** [baseline_avg_cost] and [scenario_avg_cost]: the same conditional
    expression on NumPy scalars, once per frame. *)
Definition avg_cost (df : list SummaryRow) : npfloat :=
  if (0 <? total_transactions df)%Z
  then np_div (total_cost_sum df) (inject_Z (total_transactions df))
  else Finite 0.

Definition baseline_avg_cost (baseline_df : list SummaryRow) : npfloat :=
  avg_cost baseline_df.
Definition scenario_avg_cost (scenario_df : list SummaryRow) : npfloat :=
  avg_cost scenario_df.

(** ** Comparison table *)

(** [df.loc[pm]]: the row labelled [pm]. *)
Definition loc (df : list SummaryRow) (pm : string) : result SummaryRow :=
  match List.find (fun r => bool_decide (payment_method r = pm)) df with
  | Some r => Ok r
  | None => Raise (KeyError pm)
  end.

Record ComparisonRow : Type := mkComparisonRow {
  label : string;
  baseline_transactions_col : Z;
  scenario_transactions_col : Z;
  baseline_cost : Q;
  scenario_cost : Q;
  cost_delta : Q;
  cost_delta_pct : npfloat;
}.

(** [np.where(cond, x, y)]: both [x] and [y] are computed before the
    selection. *)
Definition np_where (cond : bool) (x y : npfloat) : npfloat :=
  if cond then x else y.

(** One row of [comparison_df].  The columns are taken from the two frames
    by label; both frames come from [compute_costs] and carry every label of
    [PAYMENT_METHODS], so the lookup is written as [loc]. *)
Definition comparison_row (baseline_df scenario_df : list SummaryRow)
    (pm : string) : result ComparisonRow :=
  b ← loc baseline_df pm;
  s ← loc scenario_df pm;
  let delta := total_cost s - total_cost b in
  let pct :=
    np_where (Qltb 0 (total_cost b))
             (np_mul (np_div delta (total_cost b)) 100)
             (Finite 0) in
  Ok (mkComparisonRow pm (transactions b) (transactions s)
                      (total_cost b) (total_cost s) delta pct).

Definition comparison_df (baseline_df scenario_df : list SummaryRow)
  : result (list ComparisonRow) :=
  mapM (comparison_row baseline_df scenario_df) PAYMENT_METHODS.

Definition total_row (cmp : list ComparisonRow) : ComparisonRow :=
  let baseline_sum := Qsum (map baseline_cost cmp) in
  let scenario_sum := Qsum (map scenario_cost cmp) in
  mkComparisonRow "TOTAL"
    (Zsum (map baseline_transactions_col cmp))
    (Zsum (map scenario_transactions_col cmp))
    baseline_sum
    scenario_sum
    (Qsum (map cost_delta cmp))
    (if Qltb 0 baseline_sum
     then np_mul (np_div (scenario_sum - baseline_sum) baseline_sum) 100
     else Finite 0).

Definition comparison_with_total (cmp : list ComparisonRow)
  : list ComparisonRow :=
  cmp ++ [total_row cmp].

(** ** Scenario breakdown with its [Total] column *)

Record BreakdownRow : Type := mkBreakdownRow {
  bd_label : string;
  bd_blocks : list Q;
  bd_total : Q;
}.

(** [scenario_breakdown.loc[PAYMENT_METHODS, cost_blocks]], then
    [sum(axis=1)] as the column [Total]. *)
Definition scenario_breakdown_ordered
    (scenario_breakdown : gmap string (gmap string Q))
  : result (list BreakdownRow) :=
  mapM (fun pm =>
          row ← getitem scenario_breakdown pm;
          cells ← mapM (getitem row) cost_blocks;
          Ok (mkBreakdownRow pm cells (Qsum cells)))
       PAYMENT_METHODS.

(** ** Share columns for the charts *)

Record ChartRow : Type := mkChartRow {
  chart_method : string;
  chart_transactions : Z;
  chart_total_cost : Q;
  cost_share : npfloat;
  transaction_share : npfloat;
}.

Definition scenario_chart_df (scenario_df : list SummaryRow)
  : result (list ChartRow) :=
  let scenario_total_cost := total_cost_sum scenario_df in
  let scenario_total_transactions := total_transactions scenario_df in
  rows ← mapM (loc scenario_df) PAYMENT_METHODS;
  Ok (map (fun r =>
             mkChartRow (payment_method r) (transactions r) (total_cost r)
               (if Qltb 0 scenario_total_cost
                then np_mul (np_div (total_cost r) scenario_total_cost) 100
                else Finite 0)
               (if (0 <? scenario_total_transactions)%Z
                then np_mul (np_div (inject_Z (transactions r))
                                    (inject_Z scenario_total_transactions)) 100
                else Finite 0))
          rows).

(** ** The whole script *)

Record Report : Type := mkReport {
  r_baseline_df : list SummaryRow;
  r_scenario_df : list SummaryRow;
  r_scenario_tx : gmap string Z;
  r_baseline_avg_cost : npfloat;
  r_scenario_avg_cost : npfloat;
  r_comparison : list ComparisonRow;
  r_breakdown : list BreakdownRow;
  r_chart : list ChartRow;
}.

Definition script (transactions : gmap string Z) (growth_factor : Q)
    (relative_changes : gmap string Q) (cost_params : gmap string CostParams)
  : result Report :=
  btx ← baseline_tx transactions;
  stx ← scenario_tx btx growth_factor relative_changes;
  '(baseline_df, baseline_breakdown) ← compute_costs cost_params btx;
  '(scenario_df, scenario_breakdown) ← compute_costs cost_params stx;
  cmp ← comparison_df baseline_df scenario_df;
  ordered ← scenario_breakdown_ordered scenario_breakdown;
  chart ← scenario_chart_df scenario_df;
  Ok (mkReport baseline_df scenario_df stx
               (baseline_avg_cost baseline_df) (scenario_avg_cost scenario_df)
               (comparison_with_total cmp) ordered chart).

(** * The binary64 reading *)

Module Binary64.

(** ** Floats *)

Definition prec : Z := 53.
Definition emax : Z := 1024.

Definition fadd : spec_float -> spec_float -> spec_float := SFadd prec emax.
Definition fsub : spec_float -> spec_float -> spec_float := SFsub prec emax.
Definition fmul : spec_float -> spec_float -> spec_float := SFmul prec emax.
Definition fdiv : spec_float -> spec_float -> spec_float := SFdiv prec emax.
Definition fopp : spec_float -> spec_float := SFopp.

(** The double nearest to an integer ([inf] from [2^1024 - 2^970] on). *)
Definition float_of_Z (n : Z) : spec_float :=
  binary_normalize prec emax n 0 false.

(** The literals [0.0], [1.0], [100.0] and a decimal literal [num / den]. *)
Definition zero : spec_float := S754_zero false.
Definition one : spec_float := Eval vm_compute in float_of_Z 1.
Definition hundred : spec_float := Eval vm_compute in float_of_Z 100.
Definition decimal (num den : Z) : spec_float :=
  fdiv (float_of_Z num) (float_of_Z den).

Definition is_zero (x : spec_float) : bool :=
  match x with
  | S754_zero _ => true
  | _ => false
  end.

Definition is_finite (x : spec_float) : bool :=
  match x with
  | S754_zero _ | S754_finite _ _ _ => true
  | _ => false
  end.

(** The implicit conversion of an [int] operand of a float operation:
    [OverflowError] when the integer is too large for a double. *)
Definition float_of_int (n : Z) : result spec_float :=
  match float_of_Z n with
  | S754_infinity _ => Raise OverflowError
  | x => Ok x
  end.

(** [x * n] and [n * x] for a float [x] and an int [n]. *)
Definition mul_int (x : spec_float) (n : Z) : result spec_float :=
  y ← float_of_int n; Ok (fmul x y).
Definition int_mul (n : Z) (x : spec_float) : result spec_float :=
  y ← float_of_int n; Ok (fmul y x).

(** [x / y] on Python floats. *)
Definition truediv (x y : spec_float) : result spec_float :=
  if is_zero y then Raise ZeroDivisionError else Ok (fdiv x y).

(** [x / n] and [n / x] for a float [x] and an int [n]. *)
Definition div_int (x : spec_float) (n : Z) : result spec_float :=
  y ← float_of_int n; truediv x y.
Definition int_div (n : Z) (x : spec_float) : result spec_float :=
  y ← float_of_int n; truediv y x.

(** [int(x)]: the fractional part is dropped; [inf] and [nan] raise. *)
Definition py_int (x : spec_float) : result Z :=
  match x with
  | S754_zero _ => Ok 0%Z
  | S754_finite s m e => Ok (cond_Zopp s (Z.shiftl (Zpos m) e))
  | S754_infinity _ => Raise OverflowError
  | S754_nan => Raise ValueError
  end.

(** ** Cost engine *)

Definition AVERAGE_BASKET_VALUE : spec_float :=
  Eval vm_compute in float_of_Z 200.

Record CostParams : Type := mkCostParams {
  psp_fee : spec_float;
  process_cost : spec_float;
  dev_maintenance : spec_float;
  write_off_rate : spec_float;
  dunning_fee_per_tx : spec_float;
}.

(** [default_cost_params]; a literal such as [0.008] is the double nearest
    to 8/1000. *)
Definition default_cost_params : gmap string CostParams :=
  list_to_map
    [ ("Invoice (no fee)"%string,
       mkCostParams zero (decimal 10 100) (decimal 10 100) (decimal 8 1000)
                    (decimal 30 100));
      ("Installments"%string,
       mkCostParams zero (decimal 10 100) (decimal 10 100) (decimal 10 1000)
                    (decimal 40 100));
      ("Prepayment"%string,
       mkCostParams zero (decimal 8 100) (decimal 5 100) zero zero);
      ("TWINT"%string,
       mkCostParams (decimal 20 1000) (decimal 5 100) (decimal 5 100) zero zero);
      ("Visa"%string,
       mkCostParams (decimal 18 1000) (decimal 5 100) (decimal 5 100) zero zero);
      ("Mastercard"%string,
       mkCostParams (decimal 18 1000) (decimal 5 100) (decimal 5 100) zero zero);
      ("PayPal"%string,
       mkCostParams (decimal 30 1000) (decimal 5 100) (decimal 5 100) zero zero) ].

Definition compute_per_tx_cost_blocks (params : CostParams)
  : gmap string spec_float :=
  let psp := psp_fee params in
  let process := process_cost params in
  let dev := dev_maintenance params in
  let write_off := fmul (write_off_rate params) AVERAGE_BASKET_VALUE in
  let dunning_revenue := fopp (dunning_fee_per_tx params) in
  list_to_map
    [ ("PSP fees"%string, psp);
      ("Process costs"%string, process);
      ("Dev & maintenance"%string, dev);
      ("Write-offs"%string, write_off);
      ("Dunning fee revenue"%string, dunning_revenue) ].

Record SummaryRow : Type := mkSummaryRow {
  payment_method : string;
  transactions : Z;
  total_cost : spec_float;
  average_cost : spec_float;
}.

(** Body of [for cb in cost_blocks], on the state
    [(breakdown, total_cost_pm)]. *)
Definition block_body (pm : string) (per_tx_blocks : gmap string spec_float)
    (tx : Z) (st : gmap string (gmap string spec_float) * spec_float)
    (cb : string)
  : result (gmap string (gmap string spec_float) * spec_float) :=
  let '(breakdown, total_cost_pm) := st in
  per_tx ← getitem per_tx_blocks cb;
  block_cost ← mul_int per_tx tx;
  row ← getitem breakdown pm;
  old ← getitem row cb;
  Ok (<[pm := <[cb := fadd old block_cost]> row]> breakdown,
      fadd total_cost_pm block_cost).

(** Body of [for pm in PAYMENT_METHODS], on the state [(rows, breakdown)]. *)
Definition method_body (cost_params : gmap string CostParams)
    (transactions_dict : gmap string Z)
    (st : list SummaryRow * gmap string (gmap string spec_float)) (pm : string)
  : result (list SummaryRow * gmap string (gmap string spec_float)) :=
  let '(rows, breakdown) := st in
  tx ← getitem transactions_dict pm;
  params ← getitem cost_params pm;
  let per_tx_blocks := compute_per_tx_cost_blocks params in
  '(breakdown, total_cost_pm) ←
    for_each (block_body pm per_tx_blocks tx) cost_blocks (breakdown, zero);
  avg_cost_pm ← (if (0 <? tx)%Z then div_int total_cost_pm tx else Ok zero);
  Ok (rows ++ [mkSummaryRow pm tx total_cost_pm avg_cost_pm], breakdown).

Definition zero_breakdown : gmap string (gmap string spec_float) :=
  list_to_map
    (map (fun pm => (pm, list_to_map (map (fun cb => (cb, zero)) cost_blocks)))
         PAYMENT_METHODS).

Definition compute_costs (cost_params : gmap string CostParams)
    (transactions_dict : gmap string Z)
  : result (list SummaryRow * gmap string (gmap string spec_float)) :=
  for_each (method_body cost_params transactions_dict) PAYMENT_METHODS
           ([], zero_breakdown).

(** [df["Transactions"].sum()], a sum of integers. *)
Definition total_transactions (df : list SummaryRow) : Z :=
  Zsum (map transactions df).

(** [baseline_avg_cost] and [scenario_avg_cost], on the two sums that pandas
    returns: NumPy scalars, whose division does not raise. *)
Definition avg_cost (total_cost : spec_float) (total_transactions : Z)
  : spec_float :=
  if (0 <? total_transactions)%Z
  then fdiv total_cost (float_of_Z total_transactions)
  else zero.

(** ** Scenario quantities *)

(** [int(base * growth_factor * (1.0 + change / 100.0))] *)
Definition scenario_quantity (base : Z) (growth_factor : spec_float)
    (change : Z) : result Z :=
  ratio ← int_div change hundred;
  let factor := fadd one ratio in
  scaled ← int_mul base growth_factor;
  py_int (fmul scaled factor).

(** Body of the loop that fills [scenario_tx]; the slider values
    [relative_changes] are integers. *)
Definition scenario_body (btx : gmap string Z) (growth_factor : spec_float)
    (relative_changes : gmap string Z) (stx : gmap string Z) (pm : string)
  : result (gmap string Z) :=
  change ← getitem relative_changes pm;
  ratio ← int_div change hundred;
  let factor := fadd one ratio in
  base ← getitem btx pm;
  scaled ← int_mul base growth_factor;
  quantity ← py_int (fmul scaled factor);
  Ok (<[pm := quantity]> stx).

Definition scenario_tx (btx : gmap string Z) (growth_factor : spec_float)
    (relative_changes : gmap string Z) : result (gmap string Z) :=
  for_each (scenario_body btx growth_factor relative_changes) PAYMENT_METHODS ∅.

(** ** Notions used in the statements *)

(** The rational a finite float stands for. *)
Definition float_value (x : spec_float) : Q :=
  match x with
  | S754_finite s m e => inject_Z (cond_Zopp s (Zpos m)) * Qpower 2 e
  | _ => 0
  end.

(** A finite float in the form every operation returns. *)
Definition canonical (m : positive) (e : Z) : Prop :=
  fexp prec emax (Zpos (digits2_pos m) + e) = e /\ (e <= emax - prec)%Z.

(** The double [base * growth_factor * (1.0 + change / 100.0)], for the
    integers [base] and [change] converted to [fb] and [fc]. *)
Definition scenario_product (fb growth_factor fc : spec_float) : spec_float :=
  fmul (fmul fb growth_factor) (fadd one (fdiv fc hundred)).

(** Every baseline quantity and every slider value converts to a double and
    every product is a finite double: [int] raises on [inf] and [nan]. *)
Definition products_finite (btx : gmap string Z) (growth_factor : spec_float)
    (relative_changes : gmap string Z) : Prop :=
  forall pm base change,
    pm ∈ PAYMENT_METHODS ->
    btx !! pm = Some base -> relative_changes !! pm = Some change ->
    exists fb fc,
      float_of_int base = Ok fb /\ float_of_int change = Ok fc
      /\ is_finite (scenario_product fb growth_factor fc) = true.

(** The range of a pandas integer column and of its sum. *)
Definition int64 (n : Z) : Prop := (- 2 ^ 63 <= n < 2 ^ 63)%Z.

(** The shape of a double: at most 53 bits of mantissa, an exponent of at
    most 971.  Every arithmetic operation returns a float of this shape. *)
Definition double_shaped (x : spec_float) : Prop :=
  match x with
  | S754_finite _ m e => (Zpos (digits2_pos m) <= 53 /\ e <= 971)%Z
  | _ => True
  end.

(** A float of sign [s] that is neither zero nor [nan]. *)
Definition signed_nonzero (s : bool) (x : spec_float) : Prop :=
  match x with
  | S754_finite s' _ _ | S754_infinity s' => s' = s
  | _ => False
  end.

(** Every quantity of a payment method converts to a double. *)
Definition quantities_fit (transactions_dict : gmap string Z) : Prop :=
  Forall (fun pm => forall tx, transactions_dict !! pm = Some tx ->
                               exists x, float_of_int tx = Ok x)
         PAYMENT_METHODS.

Definition per_unit (cb : string) (params : CostParams) : spec_float :=
  if String.eqb cb "PSP fees" then psp_fee params
  else if String.eqb cb "Process costs" then process_cost params
  else if String.eqb cb "Dev & maintenance" then dev_maintenance params
  else if String.eqb cb "Write-offs"
       then fmul (write_off_rate params) AVERAGE_BASKET_VALUE
  else if String.eqb cb "Dunning fee revenue"
       then fopp (dunning_fee_per_tx params)
  else zero.

(** The value [total_cost_pm] has after the loop over the cost blocks, for
    the quantity converted to [ftx], and the average computed from it. *)
Definition method_total (params : CostParams) (ftx : spec_float) : spec_float :=
  foldl (fun acc cb => fadd acc (fmul (per_unit cb params) ftx)) zero cost_blocks.

Definition method_average (params : CostParams) (tx : Z) (ftx : spec_float)
  : spec_float :=
  if (0 <? tx)%Z then fdiv (method_total params ftx) ftx else zero.

Definition summary_row (cost_params : gmap string CostParams)
    (transactions_dict : gmap string Z) (pm : string) : option SummaryRow :=
  tx ← transactions_dict !! pm;
  params ← cost_params !! pm;
  match float_of_int tx with
  | Ok ftx => Some (mkSummaryRow pm tx (method_total params ftx)
                                 (method_average params tx ftx))
  | Raise _ => None
  end.

Definition untouched (breakdown : gmap string (gmap string spec_float))
    (pms : list string) : Prop :=
  forall pm, pm ∈ pms ->
    exists row0, breakdown !! pm = Some row0
                 /\ forall cb, cb ∈ cost_blocks -> row0 !! cb = Some zero.

Definition filled (cost_params : gmap string CostParams)
    (transactions_dict : gmap string Z)
    (breakdown : gmap string (gmap string spec_float)) (pm : string) : Prop :=
  forall tx params ftx,
    transactions_dict !! pm = Some tx -> cost_params !! pm = Some params ->
    float_of_int tx = Ok ftx ->
    exists row, breakdown !! pm = Some row
                /\ forall cb, cb ∈ cost_blocks ->
                     row !! cb = Some (fadd zero (fmul (per_unit cb params) ftx)).

(** What the body of the loop over the payment methods raises at [pm], if
    anything: [KeyError] from one of the two dict lookups, then
    [OverflowError] from the first product [per_tx_blocks[cb] * tx]. *)
Definition method_outcome (cost_params : gmap string CostParams)
    (transactions_dict : gmap string Z) (pm : string) : option exn :=
  match transactions_dict !! pm with
  | None => Some (KeyError pm)
  | Some tx =>
      match cost_params !! pm with
      | None => Some (KeyError pm)
      | Some _ =>
          match float_of_int tx with
          | Raise e => Some e
          | Ok _ => None
          end
      end
  end.

Definition first_failure (cost_params : gmap string CostParams)
    (transactions_dict : gmap string Z) : option exn :=
  head (omap (method_outcome cost_params transactions_dict) PAYMENT_METHODS).

(** Every field of the record is a finite double. *)
Definition finite_params (params : CostParams) : bool :=
  is_finite (psp_fee params) && is_finite (process_cost params)
  && is_finite (dev_maintenance params) && is_finite (write_off_rate params)
  && is_finite (dunning_fee_per_tx params).

End Binary64.

(** ** Notions used in the statements *)

(** Every payment method has an entry in the dict [d]. *)
Definition complete {A : Type} (d : gmap string A) : Prop :=
  Forall (fun pm => is_Some (d !! pm)) PAYMENT_METHODS.

(** Truncation toward zero, from [Qfloor] and [Qceiling]. *)
Definition trunc_toward_zero (x : Q) : Z :=
  if Qle_bool 0 x then Qfloor x else Qceiling x.

(** The per-unit value of a cost block, as the specification lists it. *)
Definition perUnitValue (cb : string) (params : CostParams) : Q :=
  if String.eqb cb "PSP fees" then psp_fee params
  else if String.eqb cb "Process costs" then process_cost params
  else if String.eqb cb "Dev & maintenance" then dev_maintenance params
  else if String.eqb cb "Write-offs"
       then write_off_rate params * AVERAGE_BASKET_VALUE
  else if String.eqb cb "Dunning fee revenue" then - dunning_fee_per_tx params
  else 0.

(** The value [total_cost_pm] has after the loop over the cost blocks, and
    the average computed from it. *)
Definition method_total (params : CostParams) (tx : Z) : Q :=
  foldl (fun acc cb => acc + perUnitValue cb params * inject_Z tx) 0 cost_blocks.

Definition method_average (params : CostParams) (tx : Z) : Q :=
  if (0 <? tx)%Z then method_total params tx / inject_Z tx else 0.

Definition summary_row (cost_params : gmap string CostParams)
    (transactions_dict : gmap string Z) (pm : string) : option SummaryRow :=
  tx ← transactions_dict !! pm;
  params ← cost_params !! pm;
  Some (mkSummaryRow pm tx (method_total params tx) (method_average params tx)).

(** The rows of [breakdown] for the methods [pms] are still all zero. *)
Definition untouched (breakdown : gmap string (gmap string Q))
    (pms : list string) : Prop :=
  forall pm, pm ∈ pms ->
    exists row0, breakdown !! pm = Some row0
                 /\ forall cb, cb ∈ cost_blocks -> row0 !! cb = Some 0.

(** The row of [breakdown] for [pm] holds the five block costs. *)
Definition filled (cost_params : gmap string CostParams)
    (transactions_dict : gmap string Z)
    (breakdown : gmap string (gmap string Q)) (pm : string) : Prop :=
  forall tx params,
    transactions_dict !! pm = Some tx -> cost_params !! pm = Some params ->
    exists row, breakdown !! pm = Some row
                /\ forall cb, cb ∈ cost_blocks ->
                     row !! cb = Some (0 + perUnitValue cb params * inject_Z tx).



(** Sample inputs: all sliders at 0, a mix shift, and a baseline in which
    one payment method has no transaction. *)
Definition no_changes : gmap string Q :=
  list_to_map (map (fun pm => (pm, 0)) PAYMENT_METHODS).

Definition sample_changes : gmap string Q :=
  <["Invoice (no fee)"%string := -10]> (<["TWINT"%string := 20]> no_changes).

Definition sample_transactions : gmap string Z :=
  <["Prepayment"%string := 0%Z]> baseline_transactions.

(** [scenario_breakdown_ordered.sum(axis=0)], the row [TOTAL] of the
    breakdown table: the sum of every column, the column [Total] included. *)
Definition total_breakdown_row (ordered : list BreakdownRow) : BreakdownRow :=
  mkBreakdownRow "TOTAL"
    (map (fun i => Qsum (map (fun r => nth i (bd_blocks r) 0) ordered))
         (seq 0 (length cost_blocks)))
    (Qsum (map bd_total ordered)).

Definition scenario_breakdown_with_total (ordered : list BreakdownRow)
  : list BreakdownRow :=
  ordered ++ [total_breakdown_row ordered].

(** More sample inputs: a dict with an entry that is no payment method, a
    dict that lacks one. *)
Definition transactions_with_cash : gmap string Z :=
  <["Cash"%string := 5%Z]> baseline_transactions.

Definition transactions_without_visa : gmap string Z :=
  delete "Visa"%string baseline_transactions.

(** The keys of the breakdown are the payment methods, the keys of each of
    its rows are the cost blocks. *)
Definition well_shaped (breakdown : gmap string (gmap string Q)) : Prop :=
  dom breakdown = (list_to_set PAYMENT_METHODS : gset string)
  /\ forall pm row, breakdown !! pm = Some row ->
                    dom row = (list_to_set cost_blocks : gset string).

(** ** Inputs and statements for the binary64 reading *)

(** Sliders at 0; invoices up by 13 percent; invoices cut by 150 percent; and
    a baseline with one quantity above [2^53]. *)
Definition zero_changes : gmap string Z :=
  list_to_map (map (fun pm => (pm, 0%Z)) PAYMENT_METHODS).

Definition thirteen_percent_more_invoices : gmap string Z :=
  <["Invoice (no fee)"%string := 13%Z]> zero_changes.

Definition invoices_cut_by_150_percent : gmap string Z :=
  <["Invoice (no fee)"%string := (-150)%Z]> zero_changes.

Definition baseline_above_2_53 : gmap string Z :=
  <["Invoice (no fee)"%string := (2 ^ 53 + 1)%Z]> baseline_transactions.

(** The same parameters for every payment method, and the same quantity. *)
Definition uniform_params (params : Binary64.CostParams)
  : gmap string Binary64.CostParams :=
  list_to_map (map (fun pm => (pm, params)) PAYMENT_METHODS).

Definition uniform_transactions (tx : Z) : gmap string Z :=
  list_to_map (map (fun pm => (pm, tx)) PAYMENT_METHODS).

(** A PSP fee of [1e308] and nothing else; a write-off rate of [1e307] and
    nothing else.  Both records hold finite doubles only. *)
Definition huge_fee_params : Binary64.CostParams :=
  Binary64.mkCostParams (Binary64.float_of_Z (10 ^ 308)) Binary64.zero
                        Binary64.zero Binary64.zero Binary64.zero.

Definition huge_write_off_params : Binary64.CostParams :=
  Binary64.mkCostParams Binary64.zero Binary64.zero Binary64.zero
                        (Binary64.float_of_Z (10 ^ 307)) Binary64.zero.

(** A quantity dict with an entry too large for a double. *)
Definition transactions_beyond_double : gmap string Z :=
  <["TWINT"%string := (2 ^ 1024)%Z]> baseline_transactions.

(** The averages as the specification words them: the engine returns, every
    average is the guarded quotient, and none is [nan] or infinite. *)
Definition averages_guarded_and_finite
    (cost_params : gmap string Binary64.CostParams)
    (transactions_dict : gmap string Z) : Prop :=
  exists df breakdown,
    Binary64.compute_costs cost_params transactions_dict = Ok (df, breakdown)
    /\ Forall (fun r =>
                 Binary64.is_finite (Binary64.average_cost r) = true
                 /\ ((0 < Binary64.transactions r)%Z ->
                     exists ftx,
                       Binary64.float_of_int (Binary64.transactions r) = Ok ftx
                       /\ Binary64.average_cost r
                          = Binary64.fdiv (Binary64.total_cost r) ftx)
                 /\ ((Binary64.transactions r <= 0)%Z ->
                     Binary64.average_cost r = Binary64.zero))
              df.

(** Zero quantities as the specification words them: for a finite record
    and quantity 0 the engine returns a total and an average of exactly 0. *)
Definition zero_quantity_costs_nothing
    (cost_params : gmap string Binary64.CostParams)
    (transactions_dict : gmap string Z) : Prop :=
  exists df breakdown,
    Binary64.compute_costs cost_params transactions_dict = Ok (df, breakdown)
    /\ forall pm params r,
         transactions_dict !! pm = Some 0%Z ->
         cost_params !! pm = Some params ->
         Binary64.finite_params params = true ->
         r ∈ df -> Binary64.payment_method r = pm ->
         Binary64.total_cost r = Binary64.zero
         /\ Binary64.average_cost r = Binary64.zero.

(** The scenario quantity as the specification words it: the truncation of
    the exact product. *)
Definition scenario_truncates_exact_product (btx : gmap string Z)
    (growth_factor : spec_float) (relative_changes : gmap string Z) : Prop :=
  forall stx pm base change,
    Binary64.scenario_tx btx growth_factor relative_changes = Ok stx ->
    pm ∈ PAYMENT_METHODS ->
    btx !! pm = Some base -> relative_changes !! pm = Some change ->
    stx !! pm
    = Some (trunc_toward_zero
              (inject_Z base * Binary64.float_value growth_factor
               * (1 + inject_Z change / 100))).

(** The identity of the scenario transform as the specification words it,
    for every baseline. *)
Definition scenario_reproduces_baseline (btx : gmap string Z) : Prop :=
  forall stx,
    Binary64.scenario_tx btx Binary64.one zero_changes = Ok stx ->
    forall pm, pm ∈ PAYMENT_METHODS -> stx !! pm = btx !! pm.

(** * Properties *)

(** ** The error monad *)

Lemma bind_Ok {A B : Type} (m : result A) (f : A -> result B) (b : B) :
  m ≫= f = Ok b -> exists a, m = Ok a /\ f a = Ok b.
Proof. destruct m as [a|e]; [eauto | discriminate]. Qed.

Lemma bind_Ok_l {A B : Type} (m : result A) (f : A -> result B) (a : A) :
  m = Ok a -> m ≫= f = f a.
Proof. by intros ->. Qed.

Lemma for_each_cons {S A : Type} (body : S -> A -> result S)
    (x : A) (xs : list A) (st : S) :
  for_each body (x :: xs) st = body st x ≫= for_each body xs.
Proof. reflexivity. Qed.

Lemma getitem_Ok {A : Type} (d : gmap string A) (k : string) (v : A) :
  getitem d k = Ok v <-> d !! k = Some v.
Proof. unfold getitem. destruct (d !! k); split; congruence. Qed.

Lemma getitem_is_Some {A : Type} (d : gmap string A) (k : string) :
  is_Some (d !! k) -> exists v, d !! k = Some v /\ getitem d k = Ok v.
Proof. intros [v Hv]. exists v. split; [done | by apply getitem_Ok]. Qed.

Lemma mapM_Ok {A B : Type} (f : A -> result B) (g : A -> B) (xs : list A) :
  (forall x, x ∈ xs -> f x = Ok (g x)) -> mapM f xs = Ok (map g xs).
Proof.
  induction xs as [|x xs IH]; intros Hf; [reflexivity|].
  cbn. rewrite (Hf x) by left. cbn.
  rewrite IH by (intros y Hy; apply Hf; by right). reflexivity.
Qed.

Lemma mapM_Ok_inv {A B : Type} (f : A -> result B) (xs : list A) (ys : list B) :
  mapM f xs = Ok ys -> Forall2 (fun x y => f x = Ok y) xs ys.
Proof.
  revert ys. induction xs as [|x xs IH]; intros ys H; cbn in H.
  - injection H as <-. constructor.
  - apply bind_Ok in H as (y & Hy & H). apply bind_Ok in H as (k & Hk & H).
    injection H as <-. constructor; [done | by apply IH].
Qed.

(** ** Integer conversion *)

Lemma py_int_trunc (x : Q) : py_int x = trunc_toward_zero x.
Proof.
  unfold py_int, trunc_toward_zero. destruct x as [n d].
  destruct (Qle_bool 0 (n # d)) eqn:E.
  - apply Qle_bool_iff in E. unfold Qle in E. cbn in E.
    cbn. apply Z.quot_div_nonneg; lia.
  - assert (H : (n < 0)%Z).
    { destruct (Z_lt_le_dec n 0) as [|Hn]; [done|].
      assert (Qle_bool 0 (n # d) = true) as E'
        by (apply Qle_bool_iff; unfold Qle; cbn; lia).
      congruence. }
    unfold Qceiling. cbn.
    rewrite <- (Z.opp_involutive n) at 1. rewrite Z.quot_opp_l by lia.
    f_equal. apply Z.quot_div_nonneg; lia.
Qed.

(** The integer part keeps the sign and is less than one away. *)
Lemma trunc_toward_zero_bounds (x : Q) :
  (0 <= x -> inject_Z (trunc_toward_zero x) <= x
             /\ x < inject_Z (trunc_toward_zero x + 1))
  /\ (x <= 0 -> inject_Z (trunc_toward_zero x - 1) < x
                /\ x <= inject_Z (trunc_toward_zero x)).
Proof.
  unfold trunc_toward_zero. destruct (Qle_bool 0 x) eqn:E; split; intros Hx.
  - split; [apply Qfloor_le | apply Qlt_floor].
  - assert (Hz : x == 0) by (apply Qle_bool_iff in E; lra).
    rewrite (Qfloor_comp x 0 Hz). change (Qfloor 0) with 0%Z.
    change (inject_Z (0 - 1)) with (-1). change (inject_Z 0) with 0.
    split; lra.
  - apply Qle_bool_iff in Hx. congruence.
  - split; [apply Qceiling_lt | apply Qle_ceiling].
Qed.

#[global] Instance py_int_proper : Proper (Qeq ==> eq) py_int.
Proof.
  intros x y Hxy. rewrite !py_int_trunc. unfold trunc_toward_zero.
  assert (Qle_bool 0 x = Qle_bool 0 y) as ->.
  { destruct (Qle_bool 0 y) eqn:E.
    - apply Qle_bool_iff. apply Qle_bool_iff in E. by rewrite Hxy.
    - destruct (Qle_bool 0 x) eqn:E'; [|done].
      apply Qle_bool_iff in E'. rewrite Hxy in E'.
      apply Qle_bool_iff in E'. congruence. }
  destruct (Qle_bool 0 y); [by apply Qfloor_comp | by apply Qceiling_comp].
Qed.

Lemma py_int_inject_Z (n : Z) : py_int (inject_Z n) = n.
Proof. unfold py_int. cbn. apply Z.quot_1_r. Qed.


(** ** Scenario builder *)

Lemma complete_lookup {A : Type} (d : gmap string A) (pm : string) :
  complete d -> pm ∈ PAYMENT_METHODS -> is_Some (d !! pm).
Proof. intros Hd Hpm. exact (proj1 (Forall_forall _ _) Hd pm Hpm). Qed.

Section scenario_loop.
Variables (btx : gmap string Z) (growth_factor : Q)
          (relative_changes : gmap string Q).

Lemma scenario_body_Ok (stx : gmap string Z) (pm : string) (base : Z)
    (change : Q) :
  btx !! pm = Some base -> relative_changes !! pm = Some change ->
  scenario_body btx growth_factor relative_changes stx pm
  = Ok (<[pm := py_int (inject_Z base * growth_factor * (1 + change / 100))]>
          stx).
Proof.
  intros Hb%getitem_Ok Hc%getitem_Ok. unfold scenario_body.
  by rewrite (bind_Ok_l _ _ _ Hc), (bind_Ok_l _ _ _ Hb).
Qed.

Lemma scenario_loop_spec (pms : list string) (stx0 : gmap string Z) :
  (forall pm, pm ∈ pms ->
              is_Some (relative_changes !! pm) /\ is_Some (btx !! pm)) ->
  exists stx,
    for_each (scenario_body btx growth_factor relative_changes) pms stx0
      = Ok stx
    /\ (forall pm base change,
          pm ∈ pms -> btx !! pm = Some base ->
          relative_changes !! pm = Some change ->
          stx !! pm
          = Some (py_int (inject_Z base * growth_factor * (1 + change / 100))))
    /\ (forall pm, pm ∉ pms -> stx !! pm = stx0 !! pm).
Proof.
  revert stx0. induction pms as [|x pms IH]; intros stx0 Hin.
  - exists stx0. split; [reflexivity|]. split; [|done].
    intros pm ? ? Hpm. by apply elem_of_nil in Hpm.
  - destruct (Hin x) as [Hc Hb]; [left|].
    apply getitem_is_Some in Hc as (c & Hc & Hgc).
    apply getitem_is_Some in Hb as (b & Hb & Hgb).
    set (v := py_int (inject_Z b * growth_factor * (1 + c / 100))).
    destruct (IH (<[x := v]> stx0)) as (stx & Hrun & Hin' & Hout).
    { intros pm Hpm. apply Hin. by right. }
    exists stx. split; [|split].
    + rewrite for_each_cons, (scenario_body_Ok stx0 x b c Hb Hc). exact Hrun.
    + intros pm base change Hpm Hbase Hchange.
      destruct (decide (pm ∈ pms)) as [Hp|Hp]; [by apply Hin'|].
      apply elem_of_cons in Hpm as [-> | Hpm]; [|done].
      rewrite (Hout x Hp), lookup_insert_eq. unfold v. congruence.
    + intros pm Hpm. apply not_elem_of_cons in Hpm as [Hne Hpm].
      rewrite (Hout pm Hpm). by apply lookup_insert_ne.
Qed.
End scenario_loop.


(** ** Cost engine *)

Lemma NoDup_PAYMENT_METHODS : NoDup PAYMENT_METHODS.
Proof. by apply (bool_decide_unpack _); vm_compute. Qed.

Lemma NoDup_cost_blocks : NoDup cost_blocks.
Proof. by apply (bool_decide_unpack _); vm_compute. Qed.

Lemma per_tx_lookup (params : CostParams) (cb : string) :
  cb ∈ cost_blocks ->
  compute_per_tx_cost_blocks params !! cb = Some (perUnitValue cb params).
Proof.
  unfold cost_blocks. rewrite !elem_of_cons, elem_of_nil.
  intros [-> | [-> | [-> | [-> | [-> | []]]]]]; reflexivity.
Qed.

Lemma guarded_py_div (total : Q) (tx : Z) :
  (if (0 <? tx)%Z then py_div total (inject_Z tx) else Ok 0)
  = Ok (if (0 <? tx)%Z then total / inject_Z tx else 0).
Proof.
  destruct (0 <? tx)%Z eqn:E; [|reflexivity].
  apply Z.ltb_lt in E. unfold py_div.
  destruct (Qeq_bool (inject_Z tx) 0) eqn:E'; [|reflexivity].
  apply Qeq_bool_iff in E'. unfold Qeq in E'. cbn in E'. lia.
Qed.

Section block_loop.
Variables (pm : string) (per_tx_blocks : gmap string Q) (tx : Z)
          (value : string -> Q).

Lemma block_body_Ok (breakdown : gmap string (gmap string Q)) (acc : Q)
    (row : gmap string Q) (cb : string) (old : Q) :
  per_tx_blocks !! cb = Some (value cb) ->
  breakdown !! pm = Some row ->
  row !! cb = Some old ->
  block_body pm per_tx_blocks tx (breakdown, acc) cb
  = Ok (<[pm := <[cb := old + value cb * inject_Z tx]> row]> breakdown,
        acc + value cb * inject_Z tx).
Proof.
  intros Hper%getitem_Ok Hrow%getitem_Ok Hold%getitem_Ok. unfold block_body.
  by rewrite (bind_Ok_l _ _ _ Hper), (bind_Ok_l _ _ _ Hrow),
    (bind_Ok_l _ _ _ Hold).
Qed.

Lemma block_loop_spec (cbs : list string)
    (breakdown : gmap string (gmap string Q)) (acc : Q) (row : gmap string Q) :
  NoDup cbs ->
  breakdown !! pm = Some row ->
  (forall cb, cb ∈ cbs ->
              per_tx_blocks !! cb = Some (value cb) /\ is_Some (row !! cb)) ->
  exists row',
    for_each (block_body pm per_tx_blocks tx) cbs (breakdown, acc)
    = Ok (<[pm := row']> breakdown,
          foldl (fun a cb => a + value cb * inject_Z tx) acc cbs)
    /\ (forall cb old, cb ∈ cbs -> row !! cb = Some old ->
                       row' !! cb = Some (old + value cb * inject_Z tx))
    /\ (forall cb, cb ∉ cbs -> row' !! cb = row !! cb).
Proof.
  revert breakdown acc row.
  induction cbs as [|cb cbs IH]; intros breakdown acc row Hnd Hrow Hin.
  - exists row. rewrite insert_id by done. split; [reflexivity|].
    split; [|done]. intros cb old Hcb. by apply elem_of_nil in Hcb.
  - apply NoDup_cons in Hnd as [Hcb Hnd].
    destruct (Hin cb) as [Hper [old Hold]]; [left|].
    set (row1 := <[cb := old + value cb * inject_Z tx]> row).
    destruct (IH (<[pm := row1]> breakdown) (acc + value cb * inject_Z tx) row1)
      as (row' & Hrun & Hcells & Hother); [done | apply lookup_insert_eq | |].
    { intros cb' Hcb'. destruct (Hin cb') as [? ?]; [by right|].
      split; [done|]. unfold row1. rewrite lookup_insert_ne; [done|].
      intros ->. done. }
    exists row'. split; [|split].
    + rewrite for_each_cons, (block_body_Ok _ _ row cb old) by done.
      fold row1. cbn [mbind result_bind]. rewrite Hrun.
      by rewrite insert_insert_eq.
    + intros cb' old' Hcb' Hold'.
      destruct (decide (cb' ∈ cbs)) as [Hm|Hm].
      * apply Hcells; [done|]. unfold row1. rewrite lookup_insert_ne; [done|].
        intros ->. done.
      * apply elem_of_cons in Hcb' as [-> | ?]; [|done].
        rewrite (Hother cb Hm). unfold row1. rewrite lookup_insert_eq.
        congruence.
    + intros cb' Hcb'. apply not_elem_of_cons in Hcb' as [Hne Hcb'].
      rewrite (Hother cb' Hcb'). unfold row1. by rewrite lookup_insert_ne.
Qed.
End block_loop.

Lemma for_each_Ok_inv {S A : Type} (body : S -> A -> result S)
    (xs : list A) (st st' : S) :
  for_each body xs st = Ok st' ->
  forall x, x ∈ xs -> exists s1 s2, body s1 x = Ok s2.
Proof.
  revert st. induction xs as [|y xs IH]; intros st Hrun x Hx.
  - by apply elem_of_nil in Hx.
  - rewrite for_each_cons in Hrun. apply bind_Ok in Hrun as (s1 & Hy & Hrun).
    apply elem_of_cons in Hx as [-> | Hx]; [eauto | by eapply IH].
Qed.

Lemma zero_breakdown_lookup (pm : string) :
  pm ∈ PAYMENT_METHODS ->
  exists row0, zero_breakdown !! pm = Some row0
               /\ forall cb, cb ∈ cost_blocks -> row0 !! cb = Some 0.
Proof.
  intros Hpm.
  exists (list_to_map (map (fun cb => (cb, 0)) cost_blocks)). split.
  - revert Hpm. unfold PAYMENT_METHODS. rewrite !elem_of_cons, elem_of_nil.
    intros [-> | [-> | [-> | [-> | [-> | [-> | [-> | []]]]]]]]; reflexivity.
  - intros cb. unfold cost_blocks. rewrite !elem_of_cons, elem_of_nil.
    intros [-> | [-> | [-> | [-> | [-> | []]]]]]; reflexivity.
Qed.

Section method_loop.
Variables (cost_params : gmap string CostParams)
          (transactions_dict : gmap string Z).

Lemma method_body_Ok (rows : list SummaryRow)
    (breakdown : gmap string (gmap string Q)) (pm : string) (tx : Z)
    (params : CostParams) :
  transactions_dict !! pm = Some tx ->
  cost_params !! pm = Some params ->
  untouched breakdown [pm] ->
  exists row,
    method_body cost_params transactions_dict (rows, breakdown) pm
    = Ok (rows ++ [mkSummaryRow pm tx (method_total params tx)
                                (method_average params tx)],
          <[pm := row]> breakdown)
    /\ forall cb, cb ∈ cost_blocks ->
         row !! cb = Some (0 + perUnitValue cb params * inject_Z tx).
Proof.
  intros Htx Hp Hzero.
  destruct (Hzero pm) as (row0 & Hrow0 & Hcells0); [left|].
  destruct (block_loop_spec pm (compute_per_tx_cost_blocks params) tx
              (fun cb => perUnitValue cb params) cost_blocks breakdown 0 row0)
    as (row & Hrun & Hcells & _);
    [apply NoDup_cost_blocks | done | |].
  { intros cb Hcb. split; [by apply per_tx_lookup|]. rewrite Hcells0; eauto. }
  exists row. split.
  - apply getitem_Ok in Htx, Hp. unfold method_body.
    rewrite (bind_Ok_l _ _ _ Htx), (bind_Ok_l _ _ _ Hp).
    cbn zeta. rewrite Hrun. cbn [mbind result_bind].
    rewrite guarded_py_div. reflexivity.
  - intros cb Hcb. apply Hcells; [done | by apply Hcells0].
Qed.

Lemma method_loop_spec (pms : list string) (rows : list SummaryRow)
    (breakdown : gmap string (gmap string Q)) :
  NoDup pms ->
  (forall pm, pm ∈ pms -> is_Some (transactions_dict !! pm)
                          /\ is_Some (cost_params !! pm)) ->
  untouched breakdown pms ->
  exists rows' breakdown',
    for_each (method_body cost_params transactions_dict) pms (rows, breakdown)
    = Ok (rows ++ rows', breakdown')
    /\ Forall2 (fun pm r => summary_row cost_params transactions_dict pm = Some r)
               pms rows'
    /\ (forall pm, pm ∈ pms ->
                filled cost_params transactions_dict breakdown' pm)
    /\ (forall pm, pm ∉ pms -> breakdown' !! pm = breakdown !! pm).
Proof.
  revert rows breakdown.
  induction pms as [|x pms IH]; intros rows breakdown Hnd Hin Hzero.
  - exists [], breakdown. rewrite app_nil_r. split; [reflexivity|].
    split; [constructor|]. split; [|done].
    intros pm Hpm. by apply elem_of_nil in Hpm.
  - apply NoDup_cons in Hnd as [Hx Hnd].
    destruct (Hin x) as [[tx Htx] [params Hp]]; [left|].
    destruct (method_body_Ok rows breakdown x tx params Htx Hp)
      as (row & Hstep & Hcells).
    { intros pm Hpm. apply Hzero. apply list_elem_of_singleton in Hpm as ->.
      left. }
    set (r := mkSummaryRow x tx (method_total params tx)
                           (method_average params tx)) in *.
    destruct (IH (rows ++ [r]) (<[x := row]> breakdown) Hnd)
      as (rows' & breakdown' & Hrun & Hrows & Hfilled & Hother).
    { intros pm Hpm. apply Hin. by right. }
    { intros pm Hpm. rewrite lookup_insert_ne by (intros ->; done).
      apply Hzero. by right. }
    exists (r :: rows'), breakdown'. split; [|split; [|split]].
    + rewrite for_each_cons, Hstep. cbn [mbind result_bind].
      rewrite Hrun. by rewrite <- app_assoc.
    + constructor; [|done]. unfold summary_row. rewrite Htx, Hp. reflexivity.
    + intros pm Hpm. destruct (decide (pm ∈ pms)) as [Hm|Hm]; [by apply Hfilled|].
      apply elem_of_cons in Hpm as [-> | ?]; [|done].
      intros tx' params' Htx' Hp'. exists row. split.
      * by rewrite (Hother x Hm), lookup_insert_eq.
      * replace tx' with tx by congruence.
        replace params' with params by congruence. done.
    + intros pm Hpm. apply not_elem_of_cons in Hpm as [Hne Hpm].
      rewrite (Hother pm Hpm). by rewrite lookup_insert_ne.
Qed.

Lemma method_body_Ok_inv (st st' : list SummaryRow * gmap string (gmap string Q))
    (pm : string) :
  method_body cost_params transactions_dict st pm = Ok st' ->
  is_Some (transactions_dict !! pm) /\ is_Some (cost_params !! pm).
Proof.
  destruct st as [rows breakdown]. unfold method_body. intros H.
  apply bind_Ok in H as (tx & Htx%getitem_Ok & H).
  apply bind_Ok in H as (params & Hp%getitem_Ok & _). eauto.
Qed.

(** What a successful call of [compute_costs] returns. *)
Lemma compute_costs_total :
  complete transactions_dict -> complete cost_params ->
  exists df breakdown,
    compute_costs cost_params transactions_dict = Ok (df, breakdown)
    /\ Forall2 (fun pm r => summary_row cost_params transactions_dict pm = Some r)
               PAYMENT_METHODS df
    /\ forall pm, pm ∈ PAYMENT_METHODS ->
               filled cost_params transactions_dict breakdown pm.
Proof.
  intros Htx Hp.
  destruct (method_loop_spec PAYMENT_METHODS [] zero_breakdown)
    as (df & breakdown & Hrun & Hrows & Hfilled & _).
  - apply NoDup_PAYMENT_METHODS.
  - intros pm Hpm. split; by apply complete_lookup.
  - intros pm Hpm. by apply zero_breakdown_lookup.
  - exists df, breakdown. done.
Qed.

Lemma compute_costs_complete (out : list SummaryRow * gmap string (gmap string Q)) :
  compute_costs cost_params transactions_dict = Ok out ->
  complete transactions_dict /\ complete cost_params.
Proof.
  intros Hrun. unfold complete.
  split; apply Forall_forall; intros pm Hpm;
    destruct (for_each_Ok_inv _ _ _ _ Hrun pm Hpm) as (s1 & s2 & Hstep);
    by apply method_body_Ok_inv in Hstep as [? ?].
Qed.

Lemma compute_costs_inv (df : list SummaryRow)
    (breakdown : gmap string (gmap string Q)) :
  compute_costs cost_params transactions_dict = Ok (df, breakdown) ->
  Forall2 (fun pm r => summary_row cost_params transactions_dict pm = Some r)
          PAYMENT_METHODS df
  /\ forall pm, pm ∈ PAYMENT_METHODS ->
               filled cost_params transactions_dict breakdown pm.
Proof.
  intros Hrun. destruct (compute_costs_complete _ Hrun) as [Htx Hp].
  destruct (compute_costs_total Htx Hp) as (df' & bd' & Hrun' & H).
  rewrite Hrun in Hrun'. by injection Hrun' as -> ->.
Qed.
End method_loop.

(** ** Frames and sums *)

Lemma summary_row_Some (cost_params : gmap string CostParams)
    (transactions_dict : gmap string Z) (pm : string) (r : SummaryRow) :
  summary_row cost_params transactions_dict pm = Some r ->
  exists tx params,
    transactions_dict !! pm = Some tx /\ cost_params !! pm = Some params
    /\ r = mkSummaryRow pm tx (method_total params tx) (method_average params tx).
Proof.
  unfold summary_row. intros H.
  destruct (transactions_dict !! pm) as [tx|]; [|discriminate].
  destruct (cost_params !! pm) as [params|]; [|discriminate].
  cbn in H. injection H as <-. eauto.
Qed.

Lemma loc_frame (cost_params : gmap string CostParams)
    (transactions_dict : gmap string Z) (pms : list string)
    (df : list SummaryRow) (pm : string) :
  Forall2 (fun pm r => summary_row cost_params transactions_dict pm = Some r)
          pms df ->
  pm ∈ pms ->
  exists r, loc df pm = Ok r
            /\ summary_row cost_params transactions_dict pm = Some r.
Proof.
  induction 1 as [|pm0 r0 pms df Hr0 _ IH]; intros Hpm.
  - by apply elem_of_nil in Hpm.
  - destruct (summary_row_Some _ _ _ _ Hr0) as (tx & params & _ & _ & Er0).
    unfold loc. cbn [List.find].
    assert (payment_method r0 = pm0) as Hlabel by (by rewrite Er0).
    rewrite Hlabel.
    destruct (decide (pm0 = pm)) as [-> | Hne].
    + rewrite bool_decide_eq_true_2 by done. eauto.
    + rewrite bool_decide_eq_false_2 by done.
      apply elem_of_cons in Hpm as [-> | Hpm]; [done|]. by apply IH.
Qed.

Lemma frame_labels (cost_params : gmap string CostParams)
    (transactions_dict : gmap string Z) (pms : list string)
    (df : list SummaryRow) :
  Forall2 (fun pm r => summary_row cost_params transactions_dict pm = Some r)
          pms df ->
  map payment_method df = pms.
Proof.
  induction 1 as [|pm0 r0 pms df Hr0 _ IH]; [reflexivity|].
  destruct (summary_row_Some _ _ _ _ Hr0) as (tx & params & _ & _ & ->).
  cbn. by rewrite IH.
Qed.

Lemma Forall2_impl_elem {A B : Type} (P R : A -> B -> Prop)
    (xs : list A) (ys : list B) :
  Forall2 P xs ys -> (forall x y, x ∈ xs -> P x y -> R x y) -> Forall2 R xs ys.
Proof.
  induction 1 as [|x y xs ys Hxy _ IH]; intros Himp; constructor.
  - apply Himp; [left | done].
  - apply IH. intros x' y' Hx'. apply Himp. by right.
Qed.

Lemma Forall2_elem_r {A B : Type} (P : A -> B -> Prop)
    (xs : list A) (ys : list B) (y : B) :
  Forall2 P xs ys -> y ∈ ys -> exists x, x ∈ xs /\ P x y.
Proof.
  induction 1 as [|x0 y0 xs ys Hxy _ IH]; intros Hy.
  - by apply elem_of_nil in Hy.
  - apply elem_of_cons in Hy as [-> | Hy].
    + exists x0. split; [left | done].
    + destruct (IH Hy) as (x & Hx & HP). exists x. split; [by right | done].
Qed.

Lemma mapM_Forall2 {A B : Type} (f : A -> result B) (xs : list A) (ys : list B) :
  Forall2 (fun x y => f x = Ok y) xs ys -> mapM f xs = Ok ys.
Proof.
  induction 1 as [|x y xs ys Hxy _ IH]; [reflexivity|].
  cbn [mapM]. rewrite (bind_Ok_l _ _ _ Hxy), (bind_Ok_l _ _ _ IH). reflexivity.
Qed.

Lemma mapM_total {A B : Type} (f : A -> result B) (xs : list A) :
  (forall x, x ∈ xs -> exists y, f x = Ok y) ->
  exists ys, mapM f xs = Ok ys /\ Forall2 (fun x y => f x = Ok y) xs ys.
Proof.
  induction xs as [|x xs IH]; intros Hf.
  - exists []. split; [reflexivity | constructor].
  - destruct (Hf x) as [y Hy]; [left|].
    destruct IH as (ys & Hys & HF); [intros x' Hx'; apply Hf; by right|].
    exists (y :: ys). split; [|by constructor].
    cbn [mapM]. rewrite (bind_Ok_l _ _ _ Hy), (bind_Ok_l _ _ _ Hys). reflexivity.
Qed.

Lemma loc_all (cost_params : gmap string CostParams)
    (transactions_dict : gmap string Z) (pms : list string)
    (df : list SummaryRow) :
  Forall2 (fun pm r => summary_row cost_params transactions_dict pm = Some r)
          pms df ->
  mapM (loc df) pms = Ok df.
Proof.
  intros Hdf. apply mapM_Forall2.
  apply (Forall2_impl_elem _ _ _ _ Hdf). intros pm r Hpm Hr.
  destruct (loc_frame _ _ _ _ pm Hdf Hpm) as (r' & Hloc & Hr').
  congruence.
Qed.

Lemma Qsum_nil : Qsum [] = 0.
Proof. reflexivity. Qed.

Lemma Qsum_cons (x : Q) (xs : list Q) : Qsum (x :: xs) = x + Qsum xs.
Proof. reflexivity. Qed.

#[global] Instance Qsum_proper : Proper (Forall2 Qeq ==> Qeq) Qsum.
Proof.
  intros xs ys H. induction H as [|x y xs ys Hxy _ IH]; [reflexivity|].
  rewrite !Qsum_cons. by rewrite Hxy, IH.
Qed.

Lemma foldl_Qsum {A : Type} (f : A -> Q) (xs : list A) (acc : Q) :
  foldl (fun a x => a + f x) acc xs == acc + Qsum (map f xs).
Proof.
  revert acc. induction xs as [|x xs IH]; intros acc;
    cbn [foldl map]; rewrite ?Qsum_nil, ?Qsum_cons.
  - ring.
  - rewrite IH. ring.
Qed.

Lemma Qsum_map_ext {A : Type} (f g : A -> Q) (xs : list A) :
  (forall x, x ∈ xs -> f x == g x) -> Qsum (map f xs) == Qsum (map g xs).
Proof.
  induction xs as [|x xs IH]; intros H; cbn [map]; [reflexivity|].
  rewrite !Qsum_cons. rewrite (H x) by left. rewrite IH; [reflexivity|].
  intros y Hy. apply H. by right.
Qed.

Lemma Qsum_map_sub {A : Type} (f g : A -> Q) (xs : list A) :
  Qsum (map (fun x => f x - g x) xs) == Qsum (map f xs) - Qsum (map g xs).
Proof.
  induction xs as [|x xs IH]; cbn [map]; rewrite ?Qsum_nil, ?Qsum_cons; [ring|].
  rewrite IH. ring.
Qed.



(** ** The engine on complete inputs *)

Lemma compute_costs_at (cost_params : gmap string CostParams)
    (transactions_dict : gmap string Z) :
  complete transactions_dict -> complete cost_params ->
  exists df breakdown,
    compute_costs cost_params transactions_dict = Ok (df, breakdown)
    /\ map payment_method df = PAYMENT_METHODS
    /\ mapM (loc df) PAYMENT_METHODS = Ok df
    /\ forall pm, pm ∈ PAYMENT_METHODS ->
         exists tx params row,
           transactions_dict !! pm = Some tx
           /\ cost_params !! pm = Some params
           /\ loc df pm = Ok (mkSummaryRow pm tx (method_total params tx)
                                           (method_average params tx))
           /\ breakdown !! pm = Some row
           /\ forall cb, cb ∈ cost_blocks ->
                row !! cb = Some (0 + perUnitValue cb params * inject_Z tx).
Proof.
  intros Htx Hp.
  destruct (compute_costs_total _ _ Htx Hp) as (df & bd & Hrun & Hdf & Hbd).
  exists df, bd. split; [done|].
  split; [by eapply frame_labels|]. split; [by eapply loc_all|].
  intros pm Hpm.
  destruct (loc_frame _ _ _ _ pm Hdf Hpm) as (r & Hloc & Hr).
  destruct (summary_row_Some _ _ _ _ Hr) as (tx & params & Htx' & Hp' & ->).
  destruct (Hbd pm Hpm tx params Htx' Hp') as (row & Hrow & Hcells).
  exists tx, params, row. done.
Qed.


Lemma compute_costs_runs (cost_params : gmap string CostParams)
    (transactions_dict : gmap string Z) :
  complete transactions_dict -> complete cost_params ->
  exists df breakdown,
    compute_costs cost_params transactions_dict = Ok (df, breakdown).
Proof.
  intros Htx Hp.
  destruct (compute_costs_total _ _ Htx Hp) as (df & bd & Hrun & _).
  eauto.
Defined.

Lemma method_total_sum (params : CostParams) (tx : Z) :
  method_total params tx
  == Qsum (map (fun cb => 0 + perUnitValue cb params * inject_Z tx) cost_blocks).
Proof.
  unfold method_total. rewrite foldl_Qsum.
  rewrite (Qsum_map_ext (fun cb => 0 + perUnitValue cb params * inject_Z tx)
             (fun cb => perUnitValue cb params * inject_Z tx)).
  - ring.
  - intros cb _. ring.
Qed.


(** C1.  On complete inputs the engine returns, and for every payment
    method the per-unit dict holds [psp_fee], [process_cost],
    [dev_maintenance], [write_off_rate * AVERAGE_BASKET_VALUE] and
    [- dunning_fee_per_tx] under the five block names, and every cell of the
    breakdown is the per-unit value of its block times the quantity. *)
Theorem breakdown_is_per_unit_times_quantity
    (cost_params : gmap string CostParams) (transactions_dict : gmap string Z) :
  complete transactions_dict -> complete cost_params ->
  exists df breakdown,
    compute_costs cost_params transactions_dict = Ok (df, breakdown)
    /\ forall pm, pm ∈ PAYMENT_METHODS ->
         exists tx params row,
           transactions_dict !! pm = Some tx
           /\ cost_params !! pm = Some params
           /\ breakdown !! pm = Some row
           /\ (let per_tx := compute_per_tx_cost_blocks params in
               per_tx !! "PSP fees"%string = Some (psp_fee params)
               /\ per_tx !! "Process costs"%string = Some (process_cost params)
               /\ per_tx !! "Dev & maintenance"%string
                  = Some (dev_maintenance params)
               /\ per_tx !! "Write-offs"%string
                  = Some (write_off_rate params * AVERAGE_BASKET_VALUE)
               /\ per_tx !! "Dunning fee revenue"%string
                  = Some (- dunning_fee_per_tx params)
               /\ forall cb, cb ∈ cost_blocks ->
                    exists per_unit block_cost,
                      per_tx !! cb = Some per_unit
                      /\ row !! cb = Some block_cost
                      /\ block_cost == per_unit * inject_Z tx).
Proof.
  intros Htx Hp.
  destruct (compute_costs_at _ _ Htx Hp) as (df & bd & Hrun & _ & _ & Hat).
  exists df, bd. split; [done|]. intros pm Hpm.
  destruct (Hat pm Hpm) as (tx & params & row & Htx' & Hp' & _ & Hrow & Hcells).
  exists tx, params, row. repeat (split; [done|]).
  cbn zeta. repeat (split; [reflexivity|]).
  intros cb Hcb. eexists _, _.
  split; [by apply per_tx_lookup|]. split; [by apply Hcells|]. ring.
Qed.

(** C9.  On complete inputs the engine returns, the five block costs that
    the breakdown holds for a payment method sum to that method's total cost
    in the summary frame, and so does the [Total] column of the ordered
    breakdown table. *)
Theorem block_costs_sum_to_total_cost
    (cost_params : gmap string CostParams) (transactions_dict : gmap string Z) :
  complete transactions_dict -> complete cost_params ->
  exists df breakdown ordered,
    compute_costs cost_params transactions_dict = Ok (df, breakdown)
    /\ scenario_breakdown_ordered breakdown = Ok ordered
    /\ Forall2 (fun pm table_row =>
                  exists r row,
                    loc df pm = Ok r
                    /\ breakdown !! pm = Some row
                    /\ mapM (getitem row) cost_blocks = Ok (bd_blocks table_row)
                    /\ Qsum (bd_blocks table_row) == total_cost r
                    /\ bd_label table_row = pm
                    /\ bd_total table_row == total_cost r)
               PAYMENT_METHODS ordered.
Proof.
  intros Htx Hp.
  destruct (compute_costs_at _ _ Htx Hp) as (df & bd & Hrun & _ & _ & Hat).
  destruct (mapM_total
              (fun pm =>
                 row ← getitem bd pm;
                 cells ← mapM (getitem row) cost_blocks;
                 Ok (mkBreakdownRow pm cells (Qsum cells)))
              PAYMENT_METHODS) as (ordered & Hord & Hrows).
  { intros pm Hpm.
    destruct (Hat pm Hpm) as (tx & params & row & _ & _ & _ & Hrow & Hcells).
    apply getitem_Ok in Hrow. rewrite (bind_Ok_l _ _ _ Hrow).
    rewrite (mapM_Ok (getitem row)
               (fun cb => 0 + perUnitValue cb params * inject_Z tx)).
    - eexists. reflexivity.
    - intros cb Hcb. apply getitem_Ok. by apply Hcells. }
  exists df, bd, ordered. split; [done|]. split; [exact Hord|].
  apply (Forall2_impl_elem _ _ _ _ Hrows). intros pm table_row Hpm Hstep.
  destruct (Hat pm Hpm) as (tx & params & row & _ & _ & Hloc & Hrow & Hcells).
  assert (mapM (getitem row) cost_blocks
          = Ok (map (fun cb => 0 + perUnitValue cb params * inject_Z tx)
                    cost_blocks)) as Hmap.
  { apply mapM_Ok. intros cb Hcb. apply getitem_Ok. by apply Hcells. }
  pose proof (proj2 (getitem_Ok _ _ _) Hrow) as Hget.
  rewrite (bind_Ok_l _ _ _ Hget), (bind_Ok_l _ _ _ Hmap) in Hstep.
  injection Hstep as <-. cbn [bd_blocks bd_label bd_total].
  eexists _, row. split; [exact Hloc|]. cbn [total_cost].
  pose proof (method_total_sum params tx) as Hsum. symmetry in Hsum.
  split; [exact Hrow|]. split; [exact Hmap|]. split; [exact Hsum|].
  split; [reflexivity | exact Hsum].
Qed.

(** ** Comparison table *)

Lemma Qltb_lt (x y : Q) : Qltb x y = true <-> x < y.
Proof.
  unfold Qltb. rewrite negb_true_iff. split.
  - intros E. apply Qnot_le_lt. intros Hle. apply Qle_bool_iff in Hle. congruence.
  - intros Hlt. destruct (Qle_bool y x) eqn:E; [|done].
    apply Qle_bool_iff in E. by apply Qlt_not_le in Hlt.
Qed.

Lemma Qltb_ge (x y : Q) : Qltb x y = false <-> y <= x.
Proof.
  unfold Qltb. rewrite negb_false_iff. apply Qle_bool_iff.
Qed.

Lemma np_div_finite (x y : Q) : ~ y == 0 -> np_div x y = Finite (x / y).
Proof.
  intros Hy. unfold np_div. destruct (Qeq_bool y 0) eqn:E; [|done].
  by apply Qeq_bool_iff in E.
Qed.

(** The percentage kept by the guard is finite, whatever the division in
    the discarded branch gave. *)
Lemma guarded_percentage (delta base : Q) :
  (0 < base ->
   np_where (Qltb 0 base) (np_mul (np_div delta base) 100) (Finite 0)
   = Finite (delta / base * 100))
  /\ (base <= 0 ->
      np_where (Qltb 0 base) (np_mul (np_div delta base) 100) (Finite 0)
      = Finite 0).
Proof.
  split; intros Hb.
  - rewrite (proj2 (Qltb_lt 0 base) Hb). cbn [np_where].
    rewrite np_div_finite; [done|]. intros E. rewrite E in Hb.
    by apply Qlt_irrefl in Hb.
  - by rewrite (proj2 (Qltb_ge 0 base) Hb).
Qed.

Lemma comparison_row_Ok_inv (baseline_df scenario_df : list SummaryRow)
    (pm : string) (row : ComparisonRow) :
  comparison_row baseline_df scenario_df pm = Ok row ->
  exists b s,
    loc baseline_df pm = Ok b /\ loc scenario_df pm = Ok s
    /\ label row = pm
    /\ baseline_transactions_col row = transactions b
    /\ scenario_transactions_col row = transactions s
    /\ baseline_cost row = total_cost b
    /\ scenario_cost row = total_cost s
    /\ cost_delta row = scenario_cost row - baseline_cost row
    /\ (0 < baseline_cost row ->
        cost_delta_pct row = Finite (cost_delta row / baseline_cost row * 100))
    /\ (baseline_cost row <= 0 -> cost_delta_pct row = Finite 0).
Proof.
  unfold comparison_row. intros H.
  apply bind_Ok in H as (b & Hb & H). apply bind_Ok in H as (s & Hs & H).
  injection H as <-. exists b, s. cbn.
  repeat (split; [done|]). apply guarded_percentage.
Qed.

Lemma comparison_df_runs (cost_params : gmap string CostParams)
    (btx stx : gmap string Z) (baseline_df scenario_df : list SummaryRow)
    (baseline_breakdown scenario_breakdown : gmap string (gmap string Q)) :
  compute_costs cost_params btx = Ok (baseline_df, baseline_breakdown) ->
  compute_costs cost_params stx = Ok (scenario_df, scenario_breakdown) ->
  exists cmp,
    comparison_df baseline_df scenario_df = Ok cmp
    /\ Forall2 (fun pm row => comparison_row baseline_df scenario_df pm = Ok row)
               PAYMENT_METHODS cmp.
Proof.
  intros Hb Hs.
  apply compute_costs_inv in Hb as [Hb _]. apply compute_costs_inv in Hs as [Hs _].
  apply mapM_total. intros pm Hpm.
  destruct (loc_frame _ _ _ _ pm Hb Hpm) as (b & Hlb & _).
  destruct (loc_frame _ _ _ _ pm Hs Hpm) as (s & Hls & _).
  unfold comparison_row.
  rewrite (bind_Ok_l _ _ _ Hlb), (bind_Ok_l _ _ _ Hls). eauto.
Defined.

(** C5.  For frames returned by the engine the comparison table is built
    without an exception, one row per payment method in order, and in each
    row the cost delta is the scenario total minus the baseline total and the
    percentage is [delta / baseline * 100] when the baseline total is
    positive and exactly 0 otherwise. *)
Theorem comparison_rows_follow_formulas
    (cost_params : gmap string CostParams) (btx stx : gmap string Z)
    (baseline_df scenario_df : list SummaryRow)
    (baseline_breakdown scenario_breakdown : gmap string (gmap string Q)) :
  compute_costs cost_params btx = Ok (baseline_df, baseline_breakdown) ->
  compute_costs cost_params stx = Ok (scenario_df, scenario_breakdown) ->
  exists cmp,
    comparison_df baseline_df scenario_df = Ok cmp
    /\ Forall2 (fun pm row =>
                  exists b s,
                    loc baseline_df pm = Ok b /\ loc scenario_df pm = Ok s
                    /\ label row = pm
                    /\ baseline_cost row = total_cost b
                    /\ scenario_cost row = total_cost s
                    /\ cost_delta row = scenario_cost row - baseline_cost row
                    /\ (0 < baseline_cost row ->
                        cost_delta_pct row
                        = Finite (cost_delta row / baseline_cost row * 100))
                    /\ (baseline_cost row <= 0 ->
                        cost_delta_pct row = Finite 0))
               PAYMENT_METHODS cmp.
Proof.
  intros Hb Hs.
  destruct (comparison_df_runs _ _ _ _ _ _ _ Hb Hs) as (cmp & Hcmp & Hrows).
  exists cmp. split; [exact Hcmp|].
  apply (Forall2_impl _ _ _ _ Hrows). intros pm row Hrow.
  apply comparison_row_Ok_inv in Hrow
    as (b & s & ? & ? & ? & _ & _ & ? & ? & ? & ? & ?).
  exists b, s. done.
Qed.

(** C6.  The TOTAL row appended to the comparison table carries the column
    sums; its cost delta is the summed scenario cost minus the summed
    baseline cost, and its percentage is recomputed from these sums:
    [(scenario sum - baseline sum) / baseline sum * 100] when the baseline sum
    is positive and exactly 0 otherwise. *)
Theorem total_row_recomputed_from_sums
    (baseline_df scenario_df : list SummaryRow) (cmp : list ComparisonRow) :
  comparison_df baseline_df scenario_df = Ok cmp ->
  let total := total_row cmp in
  let baseline_sum := Qsum (map baseline_cost cmp) in
  let scenario_sum := Qsum (map scenario_cost cmp) in
  comparison_with_total cmp = cmp ++ [total]
  /\ label total = "TOTAL"%string
  /\ baseline_cost total = baseline_sum
  /\ scenario_cost total = scenario_sum
  /\ cost_delta total == scenario_sum - baseline_sum
  /\ (0 < baseline_sum ->
      cost_delta_pct total
      = Finite ((scenario_sum - baseline_sum) / baseline_sum * 100))
  /\ (baseline_sum <= 0 -> cost_delta_pct total = Finite 0).
Proof.
  intros Hcmp. cbn zeta. repeat (split; [reflexivity|]). split; [|split].
  - unfold total_row. cbn [cost_delta].
    rewrite <- Qsum_map_sub. apply Qsum_map_ext. intros row Hrow.
    apply mapM_Ok_inv in Hcmp.
    destruct (Forall2_elem_r _ _ _ row Hcmp Hrow) as (pm & _ & Hstep).
    apply comparison_row_Ok_inv in Hstep
      as (b & s & _ & _ & _ & _ & _ & _ & _ & Hdelta & _).
    by rewrite Hdelta.
  - intros Hpos. unfold total_row. cbn [cost_delta_pct].
    rewrite (proj2 (Qltb_lt _ _) Hpos). rewrite np_div_finite; [done|].
    intros E. rewrite E in Hpos. by apply Qlt_irrefl in Hpos.
  - intros Hneg. unfold total_row. cbn [cost_delta_pct].
    by rewrite (proj2 (Qltb_ge _ _) Hneg).
Qed.

(** ** Share columns *)

Lemma inject_Z_nonzero (n : Z) : (0 < n)%Z -> ~ inject_Z n == 0.
Proof. intros Hn E. unfold Qeq in E. cbn in E. lia. Qed.

Lemma Qsum_all_zero {A : Type} (xs : list A) : Qsum (map (fun _ => 0) xs) == 0.
Proof.
  induction xs as [|x xs IH]; [reflexivity|].
  cbn [map]. rewrite Qsum_cons, IH. ring.
Qed.



Lemma scenario_chart_df_Ok (cost_params : gmap string CostParams)
    (stx : gmap string Z) (scenario_df : list SummaryRow)
    (scenario_breakdown : gmap string (gmap string Q)) :
  compute_costs cost_params stx = Ok (scenario_df, scenario_breakdown) ->
  exists chart,
    scenario_chart_df scenario_df = Ok chart
    /\ map chart_method chart = PAYMENT_METHODS
    /\ map cost_share chart
       = map (fun r =>
                if Qltb 0 (total_cost_sum scenario_df)
                then np_mul (np_div (total_cost r) (total_cost_sum scenario_df)) 100
                else Finite 0) scenario_df
    /\ map transaction_share chart
       = map (fun r =>
                if (0 <? total_transactions scenario_df)%Z
                then np_mul (np_div (inject_Z (transactions r))
                                    (inject_Z (total_transactions scenario_df)))
                            100
                else Finite 0) scenario_df.
Proof.
  intros Hrun. apply compute_costs_inv in Hrun as [Hdf _].
  pose proof (loc_all _ _ _ _ Hdf) as Hloc.
  pose proof (frame_labels _ _ _ _ Hdf) as Hlabels.
  unfold scenario_chart_df. cbn zeta. rewrite (bind_Ok_l _ _ _ Hloc).
  eexists. split; [reflexivity|].
  rewrite !map_map. cbn [chart_method cost_share transaction_share]. done.
Qed.


Ltac by_evaluation :=
  unfold complete; apply (bool_decide_unpack _); vm_compute; reflexivity.



(** ** The whole script *)

Lemma baseline_tx_spec (transactions : gmap string Z) :
  complete transactions ->
  exists btx,
    baseline_tx transactions = Ok btx
    /\ forall pm, pm ∈ PAYMENT_METHODS -> btx !! pm = transactions !! pm.
Proof.
  intros Hc. unfold baseline_tx.
  assert (forall (pms : list string) (d0 : gmap string Z),
             (forall pm, pm ∈ pms -> is_Some (transactions !! pm)) ->
             exists d,
               for_each (fun d pm => v ← getitem transactions pm;
                                     Ok (<[pm := v]> d)) pms d0 = Ok d
               /\ (forall pm, pm ∈ pms -> d !! pm = transactions !! pm)
               /\ (forall pm, pm ∉ pms -> d !! pm = d0 !! pm)) as Hloop.
  { induction pms as [|x pms IH]; intros d0 Hin.
    - exists d0. split; [reflexivity|]. split; [|done].
      intros pm Hpm. by apply elem_of_nil in Hpm.
    - destruct (Hin x) as [v Hv]; [left|].
      destruct (IH (<[x := v]> d0)) as (d & Hrun & Hd & Hother).
      { intros pm Hpm. apply Hin. by right. }
      exists d. split; [|split].
      + rewrite for_each_cons.
        rewrite (bind_Ok_l _ _ _ (proj2 (getitem_Ok _ _ _) Hv)).
        cbn [mbind result_bind]. exact Hrun.
      + intros pm Hpm. destruct (decide (pm ∈ pms)) as [Hm|Hm]; [by apply Hd|].
        apply elem_of_cons in Hpm as [-> | ?]; [|done].
        by rewrite (Hother x Hm), lookup_insert_eq.
      + intros pm Hpm. apply not_elem_of_cons in Hpm as [Hne Hpm].
        rewrite (Hother pm Hpm). by apply lookup_insert_ne. }
  destruct (Hloop PAYMENT_METHODS ∅) as (btx & Hrun & Hbtx & _).
  - intros pm Hpm. by apply complete_lookup.
  - exists btx. done.
Qed.

Lemma scenario_breakdown_ordered_runs (cost_params : gmap string CostParams)
    (stx : gmap string Z) (scenario_df : list SummaryRow)
    (scenario_breakdown : gmap string (gmap string Q)) :
  compute_costs cost_params stx = Ok (scenario_df, scenario_breakdown) ->
  exists ordered, scenario_breakdown_ordered scenario_breakdown = Ok ordered.
Proof.
  intros Hrun.
  destruct (compute_costs_complete _ _ _ Hrun) as [Htx Hp].
  destruct (compute_costs_at _ _ Htx Hp) as (df & bd & Hrun' & _ & _ & Hat).
  rewrite Hrun in Hrun'. injection Hrun' as <- <-.
  destruct (mapM_total
              (fun pm =>
                 row ← getitem scenario_breakdown pm;
                 cells ← mapM (getitem row) cost_blocks;
                 Ok (mkBreakdownRow pm cells (Qsum cells)))
              PAYMENT_METHODS) as (ordered & Hord & _); [|by exists ordered].
  intros pm Hpm.
  destruct (Hat pm Hpm) as (tx & params & row & _ & _ & _ & Hrow & Hcells).
  apply getitem_Ok in Hrow. rewrite (bind_Ok_l _ _ _ Hrow).
  rewrite (mapM_Ok (getitem row)
             (fun cb => 0 + perUnitValue cb params * inject_Z tx)).
  - eexists. reflexivity.
  - intros cb Hcb. apply getitem_Ok. by apply Hcells.
Qed.

(** With an entry for every payment method in the three input dicts, the
    script runs to its end without an exception. *)
Theorem script_runs (transactions : gmap string Z) (growth_factor : Q)
    (relative_changes : gmap string Q) (cost_params : gmap string CostParams) :
  complete transactions -> complete relative_changes -> complete cost_params ->
  exists report,
    script transactions growth_factor relative_changes cost_params = Ok report.
Proof.
  intros Ht Hc Hp.
  destruct (baseline_tx_spec transactions Ht) as (btx & Hbtx & Hsame).
  assert (complete btx) as Hb.
  { apply Forall_forall. intros pm Hpm. rewrite (Hsame pm Hpm).
    by apply complete_lookup. }
  destruct (scenario_loop_spec btx growth_factor relative_changes
              PAYMENT_METHODS ∅) as (stx & Hstx & Hin & _).
  { intros pm Hpm. split; by apply complete_lookup. }
  assert (complete stx) as Hs.
  { apply Forall_forall. intros pm Hpm.
    destruct (complete_lookup btx pm Hb Hpm) as [base Hbase].
    destruct (complete_lookup relative_changes pm Hc Hpm) as [change Hchange].
    rewrite (Hin pm base change Hpm Hbase Hchange). eauto. }
  destruct (compute_costs_runs cost_params btx Hb Hp) as (bdf & bbd & Hrb).
  destruct (compute_costs_runs cost_params stx Hs Hp) as (sdf & sbd & Hrs).
  destruct (comparison_df_runs _ _ _ _ _ _ _ Hrb Hrs) as (cmp & Hcmp & _).
  destruct (scenario_breakdown_ordered_runs _ _ _ _ Hrs) as (ordered & Hord).
  destruct (scenario_chart_df_Ok _ _ _ _ Hrs) as (chart & Hchart & _).
  eexists. unfold script.
  rewrite (bind_Ok_l _ _ _ Hbtx).
  change (scenario_tx btx growth_factor relative_changes) with
    (for_each (scenario_body btx growth_factor relative_changes)
              PAYMENT_METHODS ∅).
  rewrite (bind_Ok_l _ _ _ Hstx), (bind_Ok_l _ _ _ Hrb), (bind_Ok_l _ _ _ Hrs),
    (bind_Ok_l _ _ _ Hcmp), (bind_Ok_l _ _ _ Hord), (bind_Ok_l _ _ _ Hchart).
  reflexivity.
Qed.

(** ** The statements at sample inputs *)

Ltac payment_method_cases H :=
  unfold PAYMENT_METHODS in H; rewrite !elem_of_cons, elem_of_nil in H;
  destruct H as [-> | [-> | [-> | [-> | [-> | [-> | [-> | []]]]]]]].

Lemma breakdown_is_per_unit_times_quantity_witness :
  exists df breakdown,
    compute_costs default_cost_params sample_transactions = Ok (df, breakdown)
    /\ forall pm, pm ∈ PAYMENT_METHODS ->
         exists tx params row,
           sample_transactions !! pm = Some tx
           /\ default_cost_params !! pm = Some params
           /\ breakdown !! pm = Some row
           /\ (let per_tx := compute_per_tx_cost_blocks params in
               per_tx !! "PSP fees"%string = Some (psp_fee params)
               /\ per_tx !! "Process costs"%string = Some (process_cost params)
               /\ per_tx !! "Dev & maintenance"%string
                  = Some (dev_maintenance params)
               /\ per_tx !! "Write-offs"%string
                  = Some (write_off_rate params * AVERAGE_BASKET_VALUE)
               /\ per_tx !! "Dunning fee revenue"%string
                  = Some (- dunning_fee_per_tx params)
               /\ forall cb, cb ∈ cost_blocks ->
                    exists per_unit block_cost,
                      per_tx !! cb = Some per_unit
                      /\ row !! cb = Some block_cost
                      /\ block_cost == per_unit * inject_Z tx).
Proof.
  apply (breakdown_is_per_unit_times_quantity
           default_cost_params sample_transactions).
  - by_evaluation.
  - by_evaluation.
Defined.

Lemma block_costs_sum_to_total_cost_witness :
  exists df breakdown ordered,
    compute_costs default_cost_params sample_transactions = Ok (df, breakdown)
    /\ scenario_breakdown_ordered breakdown = Ok ordered
    /\ Forall2 (fun pm table_row =>
                  exists r row,
                    loc df pm = Ok r
                    /\ breakdown !! pm = Some row
                    /\ mapM (getitem row) cost_blocks = Ok (bd_blocks table_row)
                    /\ Qsum (bd_blocks table_row) == total_cost r
                    /\ bd_label table_row = pm
                    /\ bd_total table_row == total_cost r)
               PAYMENT_METHODS ordered.
Proof.
  apply (block_costs_sum_to_total_cost default_cost_params sample_transactions);
    by_evaluation.
Defined.


Lemma comparison_rows_follow_formulas_witness :
  exists baseline_df baseline_breakdown scenario_df scenario_breakdown cmp,
    compute_costs default_cost_params baseline_transactions
    = Ok (baseline_df, baseline_breakdown)
    /\ compute_costs default_cost_params sample_transactions
       = Ok (scenario_df, scenario_breakdown)
    /\ comparison_df baseline_df scenario_df = Ok cmp
    /\ Forall2 (fun pm row =>
                  exists b s,
                    loc baseline_df pm = Ok b /\ loc scenario_df pm = Ok s
                    /\ label row = pm
                    /\ baseline_cost row = total_cost b
                    /\ scenario_cost row = total_cost s
                    /\ cost_delta row = scenario_cost row - baseline_cost row
                    /\ (0 < baseline_cost row ->
                        cost_delta_pct row
                        = Finite (cost_delta row / baseline_cost row * 100))
                    /\ (baseline_cost row <= 0 ->
                        cost_delta_pct row = Finite 0))
               PAYMENT_METHODS cmp.
Proof.
  destruct (compute_costs_runs default_cost_params baseline_transactions)
    as (bdf & bbd & Hb); [by_evaluation | by_evaluation |].
  destruct (compute_costs_runs default_cost_params sample_transactions)
    as (sdf & sbd & Hs); [by_evaluation | by_evaluation |].
  destruct (comparison_rows_follow_formulas
              default_cost_params baseline_transactions sample_transactions
              bdf sdf bbd sbd Hb Hs) as (cmp & Hcmp & Hrows).
  exists bdf, bbd, sdf, sbd, cmp.
  exact (conj Hb (conj Hs (conj Hcmp Hrows))).
Defined.

Lemma total_row_recomputed_from_sums_witness :
  exists baseline_df baseline_breakdown scenario_df scenario_breakdown cmp,
    compute_costs default_cost_params baseline_transactions
    = Ok (baseline_df, baseline_breakdown)
    /\ compute_costs default_cost_params sample_transactions
       = Ok (scenario_df, scenario_breakdown)
    /\ comparison_df baseline_df scenario_df = Ok cmp
    /\ let total := total_row cmp in
       let baseline_sum := Qsum (map baseline_cost cmp) in
       let scenario_sum := Qsum (map scenario_cost cmp) in
       comparison_with_total cmp = cmp ++ [total]
       /\ label total = "TOTAL"%string
       /\ baseline_cost total = baseline_sum
       /\ scenario_cost total = scenario_sum
       /\ cost_delta total == scenario_sum - baseline_sum
       /\ (0 < baseline_sum ->
           cost_delta_pct total
           = Finite ((scenario_sum - baseline_sum) / baseline_sum * 100))
       /\ (baseline_sum <= 0 -> cost_delta_pct total = Finite 0).
Proof.
  destruct (compute_costs_runs default_cost_params baseline_transactions)
    as (bdf & bbd & Hb); [by_evaluation | by_evaluation |].
  destruct (compute_costs_runs default_cost_params sample_transactions)
    as (sdf & sbd & Hs); [by_evaluation | by_evaluation |].
  destruct (comparison_df_runs _ _ _ _ _ _ _ Hb Hs) as (cmp & Hcmp & _).
  exists bdf, bbd, sdf, sbd, cmp.
  exact (conj Hb (conj Hs (conj Hcmp
           (total_row_recomputed_from_sums bdf sdf cmp Hcmp)))).
Defined.


(** * Further properties of the script *)

(** ** Missing and additional keys *)

Lemma for_each_app {S A : Type} (body : S -> A -> result S)
    (xs ys : list A) (st : S) :
  for_each body (xs ++ ys) st = for_each body xs st ≫= for_each body ys.
Proof.
  revert st. induction xs as [|x xs IH]; intros st; [reflexivity|].
  cbn [app]. rewrite !for_each_cons. destruct (body st x) as [st'|e]; [|reflexivity].
  cbn [mbind result_bind]. apply IH.
Qed.

Lemma for_each_ext {S A : Type} (body body' : S -> A -> result S)
    (xs : list A) (st : S) :
  (forall s x, x ∈ xs -> body s x = body' s x) ->
  for_each body xs st = for_each body' xs st.
Proof.
  revert st. induction xs as [|x xs IH]; intros st Hext; [reflexivity|].
  rewrite !for_each_cons, (Hext st x) by left.
  destruct (body' st x) as [st'|e]; [|reflexivity].
  cbn [mbind result_bind]. apply IH. intros s y Hy. apply Hext. by right.
Qed.

Lemma getitem_None {A : Type} (d : gmap string A) (k : string) :
  d !! k = None -> getitem d k = Raise (KeyError k).
Proof. unfold getitem. by intros ->. Qed.

Lemma method_body_missing (cost_params : gmap string CostParams)
    (transactions_dict : gmap string Z)
    (st : list SummaryRow * gmap string (gmap string Q)) (pm : string) :
  transactions_dict !! pm = None \/ cost_params !! pm = None ->
  method_body cost_params transactions_dict st pm = Raise (KeyError pm).
Proof.
  destruct st as [rows breakdown]. unfold method_body.
  destruct (transactions_dict !! pm) as [tx|] eqn:Htx.
  - intros [? | Hp]; [discriminate|].
    rewrite (bind_Ok_l _ _ _ (proj2 (getitem_Ok _ _ _) Htx)).
    by rewrite (getitem_None _ _ Hp).
  - intros _. by rewrite (getitem_None _ _ Htx).
Qed.

Lemma first_missing (cost_params : gmap string CostParams)
    (transactions_dict : gmap string Z) (pms : list string) :
  (forall q, q ∈ pms -> is_Some (transactions_dict !! q)
                        /\ is_Some (cost_params !! q))
  \/ exists before pm after,
       pms = before ++ pm :: after
       /\ (forall q, q ∈ before -> is_Some (transactions_dict !! q)
                                   /\ is_Some (cost_params !! q))
       /\ (transactions_dict !! pm = None \/ cost_params !! pm = None).
Proof.
  induction pms as [|x pms IH].
  - left. intros q Hq. by apply elem_of_nil in Hq.
  - destruct (transactions_dict !! x) as [tx|] eqn:Htx;
      [destruct (cost_params !! x) as [params|] eqn:Hp|].
    + destruct IH as [Hall | (before & pm & after & -> & Hbefore & Hpm)].
      * left. intros q Hq. apply elem_of_cons in Hq as [-> | Hq]; [|by apply Hall].
        rewrite Htx, Hp. eauto.
      * right. exists (x :: before), pm, after. split; [reflexivity|].
        split; [|done]. intros q Hq.
        apply elem_of_cons in Hq as [-> | Hq]; [|by apply Hbefore].
        rewrite Htx, Hp. eauto.
    + right. exists [], x, pms. split; [reflexivity|]. split; [|by right].
      intros q Hq. by apply elem_of_nil in Hq.
    + right. exists [], x, pms. split; [reflexivity|]. split; [|by left].
      intros q Hq. by apply elem_of_nil in Hq.
Qed.

Lemma compute_costs_raises_at (cost_params : gmap string CostParams)
    (transactions_dict : gmap string Z) (before after : list string)
    (pm : string) :
  PAYMENT_METHODS = before ++ pm :: after ->
  (forall q, q ∈ before -> is_Some (transactions_dict !! q)
                           /\ is_Some (cost_params !! q)) ->
  transactions_dict !! pm = None \/ cost_params !! pm = None ->
  compute_costs cost_params transactions_dict = Raise (KeyError pm).
Proof.
  intros Hsplit Hbefore Hpm. unfold compute_costs. rewrite Hsplit, for_each_app.
  destruct (method_loop_spec cost_params transactions_dict before [] zero_breakdown)
    as (rows & bd & Hrun & _).
  - pose proof NoDup_PAYMENT_METHODS as Hnd. rewrite Hsplit in Hnd.
    by apply NoDup_app in Hnd as [? _].
  - exact Hbefore.
  - intros q Hq. apply zero_breakdown_lookup. rewrite Hsplit.
    apply elem_of_app. by left.
  - rewrite Hrun. cbn [mbind result_bind]. rewrite for_each_cons.
    by rewrite method_body_missing.
Qed.

Lemma method_body_agree (cost_params cost_params' : gmap string CostParams)
    (transactions_dict transactions_dict' : gmap string Z)
    (st : list SummaryRow * gmap string (gmap string Q)) (pm : string) :
  transactions_dict !! pm = transactions_dict' !! pm ->
  cost_params !! pm = cost_params' !! pm ->
  method_body cost_params transactions_dict st pm
  = method_body cost_params' transactions_dict' st pm.
Proof.
  intros Htx Hp. destruct st as [rows breakdown].
  unfold method_body, getitem. by rewrite Htx, Hp.
Qed.

Lemma compute_costs_agree (cost_params cost_params' : gmap string CostParams)
    (transactions_dict transactions_dict' : gmap string Z) :
  (forall pm, pm ∈ PAYMENT_METHODS ->
              transactions_dict !! pm = transactions_dict' !! pm) ->
  (forall pm, pm ∈ PAYMENT_METHODS -> cost_params !! pm = cost_params' !! pm) ->
  compute_costs cost_params transactions_dict
  = compute_costs cost_params' transactions_dict'.
Proof.
  intros Htx Hp. unfold compute_costs. apply for_each_ext.
  intros st pm Hpm. apply method_body_agree; [by apply Htx | by apply Hp].
Qed.

(** X2.  [compute_costs] reads its two dicts at the payment methods only:
    dicts that agree on [PAYMENT_METHODS] give the same result, so entries
    under other keys are ignored. *)
Theorem compute_costs_ignores_other_keys
    (cost_params cost_params' : gmap string CostParams)
    (transactions_dict transactions_dict' : gmap string Z) :
  (forall pm, pm ∈ PAYMENT_METHODS ->
              transactions_dict !! pm = transactions_dict' !! pm) ->
  (forall pm, pm ∈ PAYMENT_METHODS -> cost_params !! pm = cost_params' !! pm) ->
  compute_costs cost_params transactions_dict
  = compute_costs cost_params' transactions_dict'.
Proof. apply compute_costs_agree. Qed.

Lemma compute_costs_ignores_other_keys_witness :
  compute_costs default_cost_params baseline_transactions
  = compute_costs default_cost_params transactions_with_cash.
Proof.
  apply (compute_costs_ignores_other_keys
           default_cost_params default_cost_params
           baseline_transactions transactions_with_cash).
  - intros pm Hpm. payment_method_cases Hpm; reflexivity.
  - intros pm Hpm. reflexivity.
Defined.

(** The run on a dict without ["Visa"]: the loop stops at that method. *)
Example compute_costs_without_visa :
  compute_costs default_cost_params transactions_without_visa
  = Raise (KeyError "Visa").
Proof.
  apply (compute_costs_raises_at _ _
           ["Invoice (no fee)"; "Installments"; "Prepayment"; "TWINT"]%string
           ["Mastercard"; "PayPal"]%string).
  - reflexivity.
  - intros q Hq. rewrite !elem_of_cons, elem_of_nil in Hq.
    destruct Hq as [-> | [-> | [-> | [-> | []]]]]; split; by eexists.
  - left. reflexivity.
Qed.

(** ** Shape of the breakdown *)

Lemma for_each_invariant {S A : Type} (body : S -> A -> result S)
    (I : S -> Prop) (xs : list A) (st st' : S) :
  (forall s x s', I s -> body s x = Ok s' -> I s') ->
  I st -> for_each body xs st = Ok st' -> I st'.
Proof.
  intros Hstep. revert st. induction xs as [|x xs IH]; intros st Hst Hrun.
  - injection Hrun as <-. exact Hst.
  - rewrite for_each_cons in Hrun. apply bind_Ok in Hrun as (s1 & Hx & Hrun).
    apply (IH s1); [by eapply Hstep | exact Hrun].
Qed.

Lemma zero_breakdown_well_shaped : well_shaped zero_breakdown.
Proof.
  split.
  - unfold zero_breakdown. rewrite dom_list_to_map_L. reflexivity.
  - intros pm row Hrow. apply elem_of_list_to_map_2 in Hrow.
    apply list_elem_of_In, in_map_iff in Hrow as (pm' & Heq & _).
    injection Heq as _ <-. rewrite !dom_insert_L, dom_empty_L.
    unfold cost_blocks. cbn [list_to_set foldr]. set_solver.
Qed.

Lemma block_body_well_shaped (pm : string) (per_tx_blocks : gmap string Q)
    (tx : Z) (st st' : gmap string (gmap string Q) * Q) (cb : string) :
  well_shaped st.1 ->
  block_body pm per_tx_blocks tx st cb = Ok st' ->
  well_shaped st'.1.
Proof.
  destruct st as [breakdown acc]. intros [Hdom Hrows] Hstep.
  unfold block_body in Hstep.
  apply bind_Ok in Hstep as (per_tx & _ & Hstep).
  apply bind_Ok in Hstep as (row & Hrow%getitem_Ok & Hstep).
  apply bind_Ok in Hstep as (old & Hold%getitem_Ok & Hstep).
  injection Hstep as <-. cbn [fst]. split.
  - rewrite dom_insert_lookup_L by eauto. exact Hdom.
  - intros pm' row' Hrow'.
    destruct (decide (pm = pm')) as [<- | Hne].
    + rewrite lookup_insert_eq in Hrow'. injection Hrow' as <-.
      rewrite dom_insert_lookup_L by eauto. by apply (Hrows pm).
    + rewrite lookup_insert_ne in Hrow' by done. by apply (Hrows pm').
Qed.

Lemma method_body_well_shaped (cost_params : gmap string CostParams)
    (transactions_dict : gmap string Z)
    (st st' : list SummaryRow * gmap string (gmap string Q)) (pm : string) :
  well_shaped st.2 ->
  method_body cost_params transactions_dict st pm = Ok st' ->
  well_shaped st'.2.
Proof.
  destruct st as [rows breakdown]. intros Hshape Hstep.
  unfold method_body in Hstep.
  apply bind_Ok in Hstep as (tx & _ & Hstep).
  apply bind_Ok in Hstep as (params & _ & Hstep). cbn zeta in Hstep.
  apply bind_Ok in Hstep as ([breakdown' total] & Hloop & Hstep).
  apply bind_Ok in Hstep as (avg & _ & Hstep).
  injection Hstep as <-. cbn [snd].
  apply (for_each_invariant _ (fun s => well_shaped s.1) cost_blocks
           (breakdown, 0) (breakdown', total)
           (fun s x s' => block_body_well_shaped pm _ tx s s' x) Hshape Hloop).
Qed.

(** X3.  A breakdown returned by [compute_costs] has one row per payment
    method and no other, each row has the five cost blocks as its keys and no
    other, and the summary frame has one row per payment method, in the order
    of [PAYMENT_METHODS]. *)
Theorem compute_costs_output_shape
    (cost_params : gmap string CostParams) (transactions_dict : gmap string Z)
    (df : list SummaryRow) (breakdown : gmap string (gmap string Q)) :
  compute_costs cost_params transactions_dict = Ok (df, breakdown) ->
  dom breakdown = (list_to_set PAYMENT_METHODS : gset string)
  /\ (forall pm row, breakdown !! pm = Some row ->
                     dom row = (list_to_set cost_blocks : gset string))
  /\ map payment_method df = PAYMENT_METHODS.
Proof.
  intros Hrun.
  assert (well_shaped breakdown) as [Hdom Hrows].
  { apply (for_each_invariant _ (fun s => well_shaped s.2) PAYMENT_METHODS
             ([], zero_breakdown) (df, breakdown)
             (fun s x s' => method_body_well_shaped _ _ s s' x)
             zero_breakdown_well_shaped Hrun). }
  split; [done|]. split; [done|].
  apply compute_costs_inv in Hrun as [Hdf _]. by eapply frame_labels.
Qed.

Lemma compute_costs_output_shape_witness :
  exists df breakdown,
    compute_costs default_cost_params sample_transactions = Ok (df, breakdown)
    /\ dom breakdown = (list_to_set PAYMENT_METHODS : gset string)
    /\ (forall pm row, breakdown !! pm = Some row ->
                       dom row = (list_to_set cost_blocks : gset string))
    /\ map payment_method df = PAYMENT_METHODS.
Proof.
  destruct (compute_costs_runs default_cost_params sample_transactions)
    as (df & bd & Hrun); [by_evaluation | by_evaluation |].
  exists df, bd.
  exact (conj Hrun (compute_costs_output_shape _ _ df bd Hrun)).
Defined.

(** ** Cost per transaction *)

Lemma method_total_closed (params : CostParams) (tx : Z) :
  method_total params tx
  == (psp_fee params + process_cost params + dev_maintenance params
      + write_off_rate params * AVERAGE_BASKET_VALUE
      - dunning_fee_per_tx params) * inject_Z tx.
Proof.
  unfold method_total, cost_blocks. cbn [foldl].
  change (perUnitValue "PSP fees" params) with (psp_fee params).
  change (perUnitValue "Process costs" params) with (process_cost params).
  change (perUnitValue "Dev & maintenance" params) with (dev_maintenance params).
  change (perUnitValue "Write-offs" params)
    with (write_off_rate params * AVERAGE_BASKET_VALUE).
  change (perUnitValue "Dunning fee revenue" params)
    with (- dunning_fee_per_tx params).
  ring.
Qed.

(** X4.  In the summary frame the total cost of a payment method is its
    quantity times
    [psp_fee + process_cost + dev_maintenance
     + write_off_rate * AVERAGE_BASKET_VALUE - dunning_fee_per_tx],
    and for a positive quantity the average cost per transaction is that sum,
    whatever the quantity. *)
Theorem average_cost_is_net_cost_per_transaction
    (cost_params : gmap string CostParams) (transactions_dict : gmap string Z)
    (df : list SummaryRow) (breakdown : gmap string (gmap string Q))
    (pm : string) (params : CostParams) :
  compute_costs cost_params transactions_dict = Ok (df, breakdown) ->
  pm ∈ PAYMENT_METHODS ->
  cost_params !! pm = Some params ->
  let net := psp_fee params + process_cost params + dev_maintenance params
             + write_off_rate params * AVERAGE_BASKET_VALUE
             - dunning_fee_per_tx params in
  exists r,
    loc df pm = Ok r
    /\ transactions_dict !! pm = Some (transactions r)
    /\ total_cost r == net * inject_Z (transactions r)
    /\ ((0 < transactions r)%Z -> average_cost r == net).
Proof.
  intros Hrun Hpm Hp. cbn zeta.
  apply compute_costs_inv in Hrun as [Hdf _].
  destruct (loc_frame _ _ _ _ pm Hdf Hpm) as (r & Hloc & Hr).
  destruct (summary_row_Some _ _ _ _ Hr) as (tx & params' & Htx & Hp' & ->).
  assert (params' = params) as -> by congruence.
  eexists. split; [exact Hloc|]. cbn [transactions total_cost average_cost].
  split; [done|]. split; [apply method_total_closed|].
  intros Hpos. unfold method_average.
  rewrite (proj2 (Z.ltb_lt 0 tx) Hpos), method_total_closed.
  field. by apply inject_Z_nonzero.
Qed.

Lemma average_cost_is_net_cost_per_transaction_witness :
  exists df breakdown r,
    compute_costs default_cost_params baseline_transactions = Ok (df, breakdown)
    /\ loc df "Visa" = Ok r
    /\ baseline_transactions !! "Visa"%string = Some (transactions r)
    /\ total_cost r == (0.018 + 0.05 + 0.05 + 0 * AVERAGE_BASKET_VALUE - 0)
                       * inject_Z (transactions r)
    /\ ((0 < transactions r)%Z ->
        average_cost r == 0.018 + 0.05 + 0.05 + 0 * AVERAGE_BASKET_VALUE - 0).
Proof.
  destruct (compute_costs_runs default_cost_params baseline_transactions)
    as (df & bd & Hrun); [by_evaluation | by_evaluation |].
  destruct (average_cost_is_net_cost_per_transaction
              default_cost_params baseline_transactions df bd "Visa"
              (mkCostParams 0.018 0.05 0.05 0 0) Hrun)
    as (r & Hr); [by_evaluation | reflexivity |].
  exists df, bd, r. exact (conj Hrun Hr).
Defined.

(** ** Quantities that are not negative *)

Lemma Zsum_member_le (xs : list Z) (x : Z) :
  (forall y, y ∈ xs -> (0 <= y)%Z) -> x ∈ xs -> (0 <= x <= Zsum xs)%Z.
Proof.
  induction xs as [|y xs IH]; intros Hnn Hx.
  - by apply elem_of_nil in Hx.
  - change (Zsum (y :: xs)) with (y + Zsum xs)%Z.
    assert (0 <= y)%Z by (apply Hnn; left).
    assert (0 <= Zsum xs)%Z.
    { clear IH Hx. induction xs as [|z xs IH]; [done|].
      change (Zsum (z :: xs)) with (z + Zsum xs)%Z.
      assert (0 <= z)%Z by (apply Hnn; right; left).
      assert (0 <= Zsum xs)%Z; [|lia].
      apply IH. intros w Hw. apply Hnn.
      apply elem_of_cons in Hw as [-> | Hw]; [left | right; by right]. }
    apply elem_of_cons in Hx as [-> | Hx]; [lia|].
    destruct IH as [? ?]; [intros w Hw; apply Hnn; by right | done | lia].
Qed.

Lemma frame_row_quantity (cost_params : gmap string CostParams)
    (transactions_dict : gmap string Z) (df : list SummaryRow) (r : SummaryRow) :
  Forall2 (fun pm r => summary_row cost_params transactions_dict pm = Some r)
          PAYMENT_METHODS df ->
  r ∈ df ->
  exists pm params,
    pm ∈ PAYMENT_METHODS
    /\ transactions_dict !! pm = Some (transactions r)
    /\ cost_params !! pm = Some params
    /\ r = mkSummaryRow pm (transactions r)
                        (method_total params (transactions r))
                        (method_average params (transactions r)).
Proof.
  intros Hdf Hr.
  destruct (Forall2_elem_r _ _ _ r Hdf Hr) as (pm & Hpm & Hrow).
  destruct (summary_row_Some _ _ _ _ Hrow) as (tx & params & Htx & Hp & ->).
  exists pm, params. done.
Qed.

Lemma share_between_0_and_100 (part total : Z) :
  (0 <= part <= total)%Z -> (0 < total)%Z ->
  0 <= inject_Z part / inject_Z total * 100
  /\ inject_Z part / inject_Z total * 100 <= 100.
Proof.
  intros [Hlo Hhi] Hpos.
  assert (0 < inject_Z total) as Ht
    by (change 0 with (inject_Z 0); by rewrite <- Zlt_Qlt).
  assert (0 <= inject_Z part) as Hp
    by (change 0 with (inject_Z 0); by rewrite <- Zle_Qle).
  assert (inject_Z part <= inject_Z total) as Hle by (by rewrite <- Zle_Qle).
  assert (0 <= inject_Z part / inject_Z total) as H0.
  { apply Qle_shift_div_l; [done|]. lra. }
  assert (inject_Z part / inject_Z total <= 1) as H1.
  { apply Qle_shift_div_r; [done|]. lra. }
  split; lra.
Qed.

(** X7.  When no scenario quantity is negative, every entry of the
    transaction share column is a finite number between 0 and 100. *)
Theorem transaction_shares_are_percentages
    (cost_params : gmap string CostParams) (stx : gmap string Z)
    (scenario_df : list SummaryRow)
    (scenario_breakdown : gmap string (gmap string Q)) (chart : list ChartRow) :
  compute_costs cost_params stx = Ok (scenario_df, scenario_breakdown) ->
  (forall pm tx, pm ∈ PAYMENT_METHODS -> stx !! pm = Some tx -> (0 <= tx)%Z) ->
  scenario_chart_df scenario_df = Ok chart ->
  Forall (fun row => exists share,
                       transaction_share row = Finite share
                       /\ 0 <= share /\ share <= 100) chart.
Proof.
  intros Hrun Hnn Hchart.
  destruct (scenario_chart_df_Ok _ _ _ _ Hrun) as (chart' & Hchart' & _ & _ & Hshares).
  rewrite Hchart in Hchart'. injection Hchart' as <-.
  apply compute_costs_inv in Hrun as [Hdf _].
  apply (proj1 (Forall_map transaction_share
                  (fun x => exists share, x = Finite share
                                          /\ 0 <= share /\ share <= 100) chart)).
  rewrite Hshares. apply Forall_map, Forall_forall. intros r Hr.
  assert (0 <= transactions r <= total_transactions scenario_df)%Z as Hbounds.
  { apply Zsum_member_le.
    - intros y Hy. apply list_elem_of_In, in_map_iff in Hy as (r' & <- & Hr').
      apply list_elem_of_In in Hr'.
      destruct (frame_row_quantity _ _ _ r' Hdf Hr') as (pm & _ & Hpm & Htx & _).
      by apply (Hnn pm).
    - apply list_elem_of_In, in_map, list_elem_of_In. exact Hr. }
  destruct (0 <? total_transactions scenario_df)%Z eqn:E.
  - apply Z.ltb_lt in E.
    rewrite np_div_finite by (by apply inject_Z_nonzero).
    eexists. split; [reflexivity|]. by apply share_between_0_and_100.
  - exists 0. split; [reflexivity|]. split; lra.
Qed.

Lemma transaction_shares_are_percentages_witness :
  exists scenario_df scenario_breakdown chart,
    compute_costs default_cost_params sample_transactions
    = Ok (scenario_df, scenario_breakdown)
    /\ scenario_chart_df scenario_df = Ok chart
    /\ Forall (fun row => exists share,
                            transaction_share row = Finite share
                            /\ 0 <= share /\ share <= 100) chart.
Proof.
  destruct (compute_costs_runs default_cost_params sample_transactions)
    as (sdf & sbd & Hrun); [by_evaluation | by_evaluation |].
  destruct (scenario_chart_df_Ok _ _ _ _ Hrun) as (chart & Hchart & _).
  exists sdf, sbd, chart. split; [exact Hrun|]. split; [exact Hchart|].
  apply (transaction_shares_are_percentages
           default_cost_params sample_transactions sdf sbd chart Hrun);
    [|exact Hchart].
  intros pm tx Hpm Htx.
  payment_method_cases Hpm; vm_compute in Htx; injection Htx as <-; lia.
Defined.



(** ** The TOTAL row of the breakdown table *)

Lemma Forall2_join {A B C : Type} (P : A -> B -> Prop) (R : A -> C -> Prop)
    (xs : list A) (ys : list B) (zs : list C) :
  Forall2 P xs ys -> Forall2 R xs zs ->
  Forall2 (fun y z => exists x, x ∈ xs /\ P x y /\ R x z) ys zs.
Proof.
  intros HP. revert zs. induction HP as [|x y xs ys Hxy _ IH]; intros zs HR.
  - inversion HR. constructor.
  - inversion HR as [|? z ? zs' Hxz HR']; subst. constructor.
    + exists x. split; [left | done].
    + apply (Forall2_impl _ _ _ _ (IH zs' HR')).
      intros y' z' (x' & ? & ? & ?). exists x'. split; [by right | done].
Qed.

Lemma Qsum_Forall2 {A B : Type} (f : A -> Q) (g : B -> Q)
    (xs : list A) (ys : list B) :
  Forall2 (fun x y => f x == g y) xs ys ->
  Qsum (map f xs) == Qsum (map g ys).
Proof.
  induction 1 as [|x y xs ys Hxy _ IH]; [reflexivity|].
  cbn [map]. by rewrite !Qsum_cons, Hxy, IH.
Qed.

Lemma Qsum_map_add {A : Type} (f g : A -> Q) (xs : list A) :
  Qsum (map (fun x => f x + g x) xs) == Qsum (map f xs) + Qsum (map g xs).
Proof.
  induction xs as [|x xs IH]; cbn [map]; rewrite ?Qsum_nil, ?Qsum_cons; [ring|].
  rewrite IH. ring.
Qed.

Lemma Qsum_nth (cells : list Q) :
  Qsum (map (fun i => nth i cells 0) (seq 0 (length cells))) == Qsum cells.
Proof.
  induction cells as [|x cells IH]; [reflexivity|].
  cbn [length seq map nth]. rewrite !Qsum_cons, <- seq_shift, map_map.
  cbn [nth]. by rewrite IH.
Qed.

(** Summing a table column by column or row by row gives the same total. *)
Lemma column_sums_total {A : Type} (cells : A -> list Q) (n : nat)
    (rows : list A) :
  Forall (fun r => length (cells r) = n) rows ->
  Qsum (map (fun i => Qsum (map (fun r => nth i (cells r) 0) rows)) (seq 0 n))
  == Qsum (map (fun r => Qsum (cells r)) rows).
Proof.
  induction 1 as [|r rows Hr _ IH].
  - cbn [map]. rewrite Qsum_nil. apply Qsum_all_zero.
  - cbn [map]. rewrite Qsum_cons, <- IH, <- (Qsum_nth (cells r)), Hr.
    rewrite <- Qsum_map_add. apply Qsum_map_ext. intros i _.
    by rewrite Qsum_cons.
Qed.

Lemma breakdown_table_rows (cost_params : gmap string CostParams)
    (transactions_dict : gmap string Z) (df : list SummaryRow)
    (breakdown : gmap string (gmap string Q)) (ordered : list BreakdownRow) :
  compute_costs cost_params transactions_dict = Ok (df, breakdown) ->
  scenario_breakdown_ordered breakdown = Ok ordered ->
  Forall2 (fun r table_row =>
             bd_label table_row = payment_method r
             /\ length (bd_blocks table_row) = length cost_blocks
             /\ bd_total table_row = Qsum (bd_blocks table_row)
             /\ bd_total table_row == total_cost r)
          df ordered.
Proof.
  intros Hrun Hord.
  apply compute_costs_inv in Hrun as [Hdf Hbd].
  apply mapM_Ok_inv in Hord.
  apply (Forall2_impl _ _ _ _ (Forall2_join _ _ _ _ _ Hdf Hord)).
  intros r table_row (pm & Hpm & Hr & Hstep).
  destruct (summary_row_Some _ _ _ _ Hr) as (tx & params & Htx & Hp & ->).
  destruct (Hbd pm Hpm tx params Htx Hp) as (row & Hrow & Hcells).
  assert (mapM (getitem row) cost_blocks
          = Ok (map (fun cb => 0 + perUnitValue cb params * inject_Z tx)
                    cost_blocks)) as Hmap.
  { apply mapM_Ok. intros cb Hcb. apply getitem_Ok. by apply Hcells. }
  pose proof (proj2 (getitem_Ok _ _ _) Hrow) as Hget.
  rewrite (bind_Ok_l _ _ _ Hget), (bind_Ok_l _ _ _ Hmap) in Hstep.
  injection Hstep as <-. cbn [bd_label bd_blocks bd_total payment_method total_cost].
  split; [reflexivity|]. split; [reflexivity|].
  split; [reflexivity|]. symmetry. apply method_total_sum.
Qed.

(** X9.  In the breakdown table the TOTAL row is consistent in both
    directions: its [Total] cell is the grand total cost of the summary
    frame, and it is also the sum of the five column totals of that row. *)
Theorem breakdown_total_row_is_grand_total
    (cost_params : gmap string CostParams) (stx : gmap string Z)
    (scenario_df : list SummaryRow)
    (scenario_breakdown : gmap string (gmap string Q))
    (ordered : list BreakdownRow) :
  compute_costs cost_params stx = Ok (scenario_df, scenario_breakdown) ->
  scenario_breakdown_ordered scenario_breakdown = Ok ordered ->
  let total := total_breakdown_row ordered in
  scenario_breakdown_with_total ordered = ordered ++ [total]
  /\ map bd_label ordered = PAYMENT_METHODS
  /\ length (bd_blocks total) = length cost_blocks
  /\ bd_total total == total_cost_sum scenario_df
  /\ Qsum (bd_blocks total) == bd_total total.
Proof.
  intros Hrun Hord. cbn zeta.
  pose proof (breakdown_table_rows _ _ _ _ _ Hrun Hord) as Hrows.
  split; [reflexivity|]. split; [|split; [|split]].
  - apply compute_costs_inv in Hrun as [Hdf _].
    rewrite <- (frame_labels _ _ _ _ Hdf). symmetry.
    clear Hdf Hord. induction Hrows as [|r t df ordered' Hrt _ IH];
      [reflexivity|].
    destruct Hrt as [Hl _]. cbn [map]. by rewrite Hl, IH.
  - unfold total_breakdown_row. cbn [bd_blocks].
    by rewrite length_map, length_seq.
  - unfold total_breakdown_row, total_cost_sum. cbn [bd_total].
    symmetry. apply Qsum_Forall2.
    apply (Forall2_impl _ _ _ _ Hrows). intros r t (_ & _ & _ & Ht).
    by symmetry.
  - unfold total_breakdown_row. cbn [bd_blocks bd_total].
    rewrite (column_sums_total bd_blocks).
    + apply Qsum_map_ext. intros t Ht.
      destruct (Forall2_elem_r _ _ _ t Hrows Ht) as (r & _ & _ & _ & -> & _).
      reflexivity.
    + apply Forall_forall. intros t Ht.
      by destruct (Forall2_elem_r _ _ _ t Hrows Ht) as (r & _ & _ & ? & _).
Qed.

Lemma breakdown_total_row_is_grand_total_witness :
  exists scenario_df scenario_breakdown ordered,
    compute_costs default_cost_params sample_transactions
    = Ok (scenario_df, scenario_breakdown)
    /\ scenario_breakdown_ordered scenario_breakdown = Ok ordered
    /\ let total := total_breakdown_row ordered in
       scenario_breakdown_with_total ordered = ordered ++ [total]
       /\ map bd_label ordered = PAYMENT_METHODS
       /\ length (bd_blocks total) = length cost_blocks
       /\ bd_total total == total_cost_sum scenario_df
       /\ Qsum (bd_blocks total) == bd_total total.
Proof.
  destruct (compute_costs_runs default_cost_params sample_transactions)
    as (sdf & sbd & Hrun); [by_evaluation | by_evaluation |].
  destruct (scenario_breakdown_ordered_runs _ _ _ _ Hrun) as (ordered & Hord).
  exists sdf, sbd, ordered.
  exact (conj Hrun (conj Hord
           (breakdown_total_row_is_grand_total
              default_cost_params sample_transactions sdf sbd ordered
              Hrun Hord))).
Defined.

(** ** Keys of the quantity dicts *)

Lemma for_each_invariant_elem {S A : Type} (body : S -> A -> result S)
    (I : S -> Prop) (xs : list A) (st st' : S) :
  (forall s x s', x ∈ xs -> I s -> body s x = Ok s' -> I s') ->
  I st -> for_each body xs st = Ok st' -> I st'.
Proof.
  revert st. induction xs as [|x xs IH]; intros st Hstep Hst Hrun.
  - injection Hrun as <-. exact Hst.
  - rewrite for_each_cons in Hrun. apply bind_Ok in Hrun as (s1 & Hx & Hrun).
    apply (IH s1); [| apply (Hstep st x); [left | done | done] | exact Hrun].
    intros s y s' Hy. apply Hstep. by right.
Qed.

Lemma scenario_body_Ok_inv (btx : gmap string Z) (growth_factor : Q)
    (relative_changes : gmap string Q) (stx stx' : gmap string Z) (pm : string) :
  scenario_body btx growth_factor relative_changes stx pm = Ok stx' ->
  exists base change,
    btx !! pm = Some base /\ relative_changes !! pm = Some change
    /\ stx' = <[pm := py_int (inject_Z base * growth_factor * (1 + change / 100))]>
                stx.
Proof.
  unfold scenario_body. intros H.
  apply bind_Ok in H as (change & Hc%getitem_Ok & H).
  apply bind_Ok in H as (base & Hb%getitem_Ok & H).
  injection H as <-. eauto.
Qed.

Lemma keys_from_loop (pms : list string) (d : gmap string Z) :
  (forall k, is_Some (d !! k) -> k ∈ pms) ->
  (forall k, k ∈ pms -> is_Some (d !! k)) ->
  dom d = (list_to_set pms : gset string).
Proof.
  intros Hsub Hsup. apply set_eq. intros k.
  rewrite elem_of_dom, elem_of_list_to_set. split; [apply Hsub | apply Hsup].
Qed.

Lemma insert_keeps_keys (pms : list string) (d : gmap string Z)
    (pm : string) (v : Z) :
  pm ∈ pms ->
  (forall k, is_Some (d !! k) -> k ∈ pms) ->
  forall k, is_Some (<[pm := v]> d !! k) -> k ∈ pms.
Proof.
  intros Hpm Hd k Hk. destruct (decide (pm = k)) as [<- | Hne]; [done|].
  rewrite lookup_insert_ne in Hk by done. by apply Hd.
Qed.

Lemma baseline_tx_keys (transactions btx : gmap string Z) :
  baseline_tx transactions = Ok btx ->
  dom btx = (list_to_set PAYMENT_METHODS : gset string)
  /\ forall pm, pm ∈ PAYMENT_METHODS -> btx !! pm = transactions !! pm.
Proof.
  intros Hrun.
  assert (complete transactions) as Hc.
  { apply Forall_forall. intros pm Hpm.
    destruct (for_each_Ok_inv _ _ _ _ Hrun pm Hpm) as (s1 & s2 & Hstep).
    apply bind_Ok in Hstep as (v & Hv%getitem_Ok & _). eauto. }
  destruct (baseline_tx_spec transactions Hc) as (btx' & Hrun' & Hsame).
  rewrite Hrun in Hrun'. injection Hrun' as <-. split; [|exact Hsame].
  apply keys_from_loop.
  - pose proof Hrun as Hloop. unfold baseline_tx in Hloop.
    refine (for_each_invariant_elem _
              (fun d : gmap string Z => forall k, is_Some (d !! k) ->
                                                  k ∈ PAYMENT_METHODS)
              _ _ _ _ _ Hloop).
    + intros d pm d' Hpm Hd Hstep.
      apply bind_Ok in Hstep as (v & _ & Hstep). injection Hstep as <-.
      by apply insert_keeps_keys.
    + intros k Hk. rewrite lookup_empty in Hk. by destruct Hk.
  - intros k Hk. rewrite (Hsame k Hk). by apply complete_lookup.
Qed.

Lemma scenario_tx_keys (btx stx : gmap string Z) (growth_factor : Q)
    (relative_changes : gmap string Q) :
  scenario_tx btx growth_factor relative_changes = Ok stx ->
  dom stx = (list_to_set PAYMENT_METHODS : gset string).
Proof.
  intros Hrun. apply keys_from_loop.
  - pose proof Hrun as Hloop. unfold scenario_tx in Hloop.
    refine (for_each_invariant_elem _
              (fun d : gmap string Z => forall k, is_Some (d !! k) ->
                                                  k ∈ PAYMENT_METHODS)
              _ _ _ _ _ Hloop).
    + intros d pm d' Hpm Hd Hstep.
      apply scenario_body_Ok_inv in Hstep as (base & change & _ & _ & ->).
      by apply insert_keeps_keys.
    + intros k Hk. rewrite lookup_empty in Hk. by destruct Hk.
  - intros k Hk.
    destruct (scenario_loop_spec btx growth_factor relative_changes
                PAYMENT_METHODS ∅) as (stx' & Hrun' & Hin & _).
    { intros pm Hpm.
      destruct (for_each_Ok_inv _ _ _ _ Hrun pm Hpm) as (s1 & s2 & Hstep).
      apply scenario_body_Ok_inv in Hstep as (base & change & ? & ? & _).
      eauto. }
    unfold scenario_tx in Hrun. rewrite Hrun in Hrun'. injection Hrun' as <-.
    destruct (for_each_Ok_inv _ _ _ _ Hrun k Hk) as (s1 & s2 & Hstep).
    apply scenario_body_Ok_inv in Hstep as (base & change & Hb & Hc & _).
    rewrite (Hin k base change Hk Hb Hc). eauto.
Qed.

(** X10.  The baseline and the scenario quantity dicts have the payment
    methods as their keys and no other: an entry of the input dict under
    another key is dropped, and the baseline quantities are the input
    quantities. *)
Theorem quantity_dicts_have_the_payment_methods
    (transactions btx stx : gmap string Z) (growth_factor : Q)
    (relative_changes : gmap string Q) :
  baseline_tx transactions = Ok btx ->
  scenario_tx btx growth_factor relative_changes = Ok stx ->
  dom btx = (list_to_set PAYMENT_METHODS : gset string)
  /\ dom stx = (list_to_set PAYMENT_METHODS : gset string)
  /\ forall pm, pm ∈ PAYMENT_METHODS -> btx !! pm = transactions !! pm.
Proof.
  intros Hb Hs. destruct (baseline_tx_keys _ _ Hb) as [Hdom Hsame].
  split; [done|]. split; [by eapply scenario_tx_keys | done].
Qed.

Lemma quantity_dicts_have_the_payment_methods_witness :
  exists btx stx,
    baseline_tx transactions_with_cash = Ok btx
    /\ scenario_tx btx 1.05 sample_changes = Ok stx
    /\ dom btx = (list_to_set PAYMENT_METHODS : gset string)
    /\ dom stx = (list_to_set PAYMENT_METHODS : gset string)
    /\ forall pm, pm ∈ PAYMENT_METHODS ->
                  btx !! pm = transactions_with_cash !! pm.
Proof.
  destruct (baseline_tx_spec transactions_with_cash)
    as (btx & Hb & Hsame); [by_evaluation|].
  destruct (scenario_loop_spec btx 1.05 sample_changes PAYMENT_METHODS ∅)
    as (stx & Hs & _).
  { intros pm Hpm. split; [|rewrite (Hsame pm Hpm)];
      payment_method_cases Hpm; by eexists. }
  exists btx, stx.
  exact (conj Hb (conj Hs
           (quantity_dicts_have_the_payment_methods
              transactions_with_cash btx stx 1.05 sample_changes Hb Hs))).
Defined.

(** ** The TOTAL row of the comparison table and the key metrics *)

Lemma map_Forall2_eq {A B C : Type} (f : A -> C) (g : B -> C)
    (xs : list A) (ys : list B) :
  Forall2 (fun x y => f x = g y) xs ys -> map f xs = map g ys.
Proof.
  induction 1 as [|x y xs ys Hxy _ IH]; [reflexivity|].
  cbn [map]. by rewrite Hxy, IH.
Qed.

Lemma comparison_rows_echo_frames (cost_params : gmap string CostParams)
    (btx stx : gmap string Z) (baseline_df scenario_df : list SummaryRow)
    (baseline_breakdown scenario_breakdown : gmap string (gmap string Q))
    (cmp : list ComparisonRow) :
  compute_costs cost_params btx = Ok (baseline_df, baseline_breakdown) ->
  compute_costs cost_params stx = Ok (scenario_df, scenario_breakdown) ->
  comparison_df baseline_df scenario_df = Ok cmp ->
  Forall2 (fun pm row => label row = pm) PAYMENT_METHODS cmp
  /\ Forall2 (fun row b => baseline_transactions_col row = transactions b
                           /\ baseline_cost row = total_cost b)
             cmp baseline_df
  /\ Forall2 (fun row s => scenario_transactions_col row = transactions s
                           /\ scenario_cost row = total_cost s)
             cmp scenario_df.
Proof.
  intros Hb Hs Hcmp.
  apply compute_costs_inv in Hb as [Hb _]. apply compute_costs_inv in Hs as [Hs _].
  apply mapM_Ok_inv in Hcmp. split; [|split].
  - apply (Forall2_impl _ _ _ _ Hcmp). intros pm row Hrow.
    by apply comparison_row_Ok_inv in Hrow as (b & s & _ & _ & ? & _).
  - apply (Forall2_impl _ _ _ _ (Forall2_join _ _ _ _ _ Hcmp Hb)).
    intros row r (pm & Hpm & Hrow & Hr).
    apply comparison_row_Ok_inv in Hrow
      as (b & s & Hlb & _ & _ & Hbt & _ & Hbc & _).
    destruct (loc_frame _ _ _ _ pm Hb Hpm) as (r' & Hloc & Hr').
    assert (b = r) as -> by congruence. done.
  - apply (Forall2_impl _ _ _ _ (Forall2_join _ _ _ _ _ Hcmp Hs)).
    intros row r (pm & Hpm & Hrow & Hr).
    apply comparison_row_Ok_inv in Hrow
      as (b & s & _ & Hls & _ & _ & Hst & _ & Hsc & _).
    destruct (loc_frame _ _ _ _ pm Hs Hpm) as (r' & Hloc & Hr').
    assert (s = r) as -> by congruence. done.
Qed.

(** X11.  The comparison table has one row per payment method, in order,
    followed by the row TOTAL, and the TOTAL row shows the grand totals of
    the two summary frames, the numbers of the key metrics: the summed
    quantities, the summed costs, and as cost delta the scenario grand total
    minus the baseline grand total. *)
Theorem comparison_total_row_shows_grand_totals
    (cost_params : gmap string CostParams) (btx stx : gmap string Z)
    (baseline_df scenario_df : list SummaryRow)
    (baseline_breakdown scenario_breakdown : gmap string (gmap string Q))
    (cmp : list ComparisonRow) :
  compute_costs cost_params btx = Ok (baseline_df, baseline_breakdown) ->
  compute_costs cost_params stx = Ok (scenario_df, scenario_breakdown) ->
  comparison_df baseline_df scenario_df = Ok cmp ->
  let total := total_row cmp in
  map label (comparison_with_total cmp) = PAYMENT_METHODS ++ ["TOTAL"%string]
  /\ baseline_transactions_col total = total_transactions baseline_df
  /\ scenario_transactions_col total = total_transactions scenario_df
  /\ baseline_cost total = total_cost_sum baseline_df
  /\ scenario_cost total = total_cost_sum scenario_df
  /\ cost_delta total
     == total_cost_sum scenario_df - total_cost_sum baseline_df.
Proof.
  intros Hb Hs Hcmp. cbn zeta.
  destruct (comparison_rows_echo_frames _ _ _ _ _ _ _ _ Hb Hs Hcmp)
    as (Hlabels & Hbase & Hscen).
  assert (map baseline_cost cmp = map total_cost baseline_df) as Hbc.
  { apply map_Forall2_eq, (Forall2_impl _ _ _ _ Hbase). by intros ? ? [_ ?]. }
  assert (map scenario_cost cmp = map total_cost scenario_df) as Hsc.
  { apply map_Forall2_eq, (Forall2_impl _ _ _ _ Hscen). by intros ? ? [_ ?]. }
  assert (map baseline_transactions_col cmp = map transactions baseline_df)
    as Hbt.
  { apply map_Forall2_eq, (Forall2_impl _ _ _ _ Hbase). by intros ? ? [? _]. }
  assert (map scenario_transactions_col cmp = map transactions scenario_df)
    as Hst.
  { apply map_Forall2_eq, (Forall2_impl _ _ _ _ Hscen). by intros ? ? [? _]. }
  unfold total_row, total_transactions, total_cost_sum.
  cbn [baseline_transactions_col scenario_transactions_col baseline_cost
       scenario_cost cost_delta].
  rewrite Hbc, Hsc, Hbt, Hst. split; [|repeat (split; [reflexivity|])].
  - unfold comparison_with_total. rewrite map_app. cbn [map label]. f_equal.
    symmetry. rewrite <- (map_id PAYMENT_METHODS) at 1.
    apply map_Forall2_eq, (Forall2_impl _ _ _ _ Hlabels). by intros ? ? ->.
  - rewrite <- Hbc, <- Hsc, <- Qsum_map_sub. apply Qsum_map_ext.
    intros row Hrow. apply mapM_Ok_inv in Hcmp.
    destruct (Forall2_elem_r _ _ _ row Hcmp Hrow) as (pm & _ & Hstep).
    by apply comparison_row_Ok_inv in Hstep
      as (b & s & _ & _ & _ & _ & _ & _ & _ & -> & _).
Qed.

Lemma comparison_total_row_shows_grand_totals_witness :
  exists baseline_df baseline_breakdown scenario_df scenario_breakdown cmp,
    compute_costs default_cost_params baseline_transactions
    = Ok (baseline_df, baseline_breakdown)
    /\ compute_costs default_cost_params sample_transactions
       = Ok (scenario_df, scenario_breakdown)
    /\ comparison_df baseline_df scenario_df = Ok cmp
    /\ let total := total_row cmp in
       map label (comparison_with_total cmp)
       = PAYMENT_METHODS ++ ["TOTAL"%string]
       /\ baseline_transactions_col total = total_transactions baseline_df
       /\ scenario_transactions_col total = total_transactions scenario_df
       /\ baseline_cost total = total_cost_sum baseline_df
       /\ scenario_cost total = total_cost_sum scenario_df
       /\ cost_delta total
          == total_cost_sum scenario_df - total_cost_sum baseline_df.
Proof.
  destruct (compute_costs_runs default_cost_params baseline_transactions)
    as (bdf & bbd & Hb); [by_evaluation | by_evaluation |].
  destruct (compute_costs_runs default_cost_params sample_transactions)
    as (sdf & sbd & Hs); [by_evaluation | by_evaluation |].
  destruct (comparison_df_runs _ _ _ _ _ _ _ Hb Hs) as (cmp & Hcmp & _).
  exists bdf, bbd, sdf, sbd, cmp.
  exact (conj Hb (conj Hs (conj Hcmp
           (comparison_total_row_shows_grand_totals
              default_cost_params baseline_transactions sample_transactions
              bdf sdf bbd sbd cmp Hb Hs Hcmp)))).
Defined.

(** ** The growth slider *)




(** * Properties of the binary64 reading *)

Section binary64.
Import Binary64.

(** ** Rounding *)

Lemma digits2_pos_iter_xO (p k : positive) :
  digits2_pos (Pos.iter xO p k) = (digits2_pos p + k)%positive.
Proof.
  induction k as [|k IH] using Pos.peano_ind.
  - cbn. by rewrite Pos.add_1_r.
  - rewrite Pos.iter_succ. cbn [digits2_pos]. rewrite IH.
    by rewrite Pos.add_succ_r.
Qed.

Lemma Zpos_iter_xO (p k : positive) :
  Zpos (Pos.iter xO p k) = (Zpos p * 2 ^ Zpos k)%Z.
Proof.
  induction k as [|k IH] using Pos.peano_ind.
  - cbn. lia.
  - rewrite Pos.iter_succ, Pos2Z.inj_succ, Z.pow_succ_r by lia.
    rewrite Pos2Z.inj_xO, IH. lia.
Qed.

Lemma digits2_pos_log2 (p : positive) :
  Zpos (digits2_pos p) = (Z.log2 (Zpos p) + 1)%Z.
Proof.
  assert (forall q, digits2_pos q = Pos.size q) as Hsize
    by (induction q as [q IH|q IH|]; cbn; by rewrite ?IH).
  destruct p as [p|p|]; cbn [digits2_pos Z.log2]; rewrite ?Hsize; lia.
Qed.

Lemma digits2_pos_le (p : positive) (n : Z) :
  (0 <= n)%Z -> (Zpos p < 2 ^ n)%Z -> (Zpos (digits2_pos p) <= n)%Z.
Proof.
  intros Hn Hlt. rewrite digits2_pos_log2.
  assert (Z.log2 (Zpos p) < n)%Z; [|lia].
  apply Z.log2_lt_pow2; lia.
Qed.

(** A mantissa already in canonical form is returned as it is. *)
Lemma binary_round_aux_canonical (s : bool) (m : positive) (e : Z) :
  canonical m e ->
  binary_round_aux prec emax s (Zpos m) e loc_Exact = S754_finite s m e.
Proof.
  intros [Hc He]. unfold binary_round_aux, shr_fexp.
  cbn [Zdigits2 shr_record_of_loc]. rewrite Hc, Z.sub_diag.
  cbn [shr shr_m loc_of_shr_record round_nearest_even Zdigits2 shr_record_of_loc].
  rewrite Hc, Z.sub_diag. cbn [shr shr_m].
  by rewrite (proj2 (Z.leb_le _ _) He).
Qed.

Lemma iter_shr_1_52 (m : positive) :
  SpecFloat.iter_pos shr_1 52
    {| shr_m := Zpos (Pos.iter xO m 52); shr_r := false; shr_s := false |}
  = {| shr_m := Zpos m; shr_r := false; shr_s := false |}.
Proof. reflexivity. Qed.

(** [x * 1.0] is [x]. *)
Lemma fmul_one_r (s : bool) (m : positive) (e : Z) :
  canonical m e -> fmul (S754_finite s m e) one = S754_finite s m e.
Proof.
  intros [Hc He]. unfold fmul, one, SFmul. rewrite xorb_false_r.
  replace (m * 4503599627370496)%positive with (Pos.iter xO m 52)
    by (apply Pos2Z.inj; rewrite Zpos_iter_xO; lia).
  unfold binary_round_aux, shr_fexp. cbn [Zdigits2 shr_record_of_loc].
  rewrite digits2_pos_iter_xO, Pos2Z.inj_add.
  replace (Zpos (digits2_pos m) + 52 + (e + -52))%Z
    with (Zpos (digits2_pos m) + e)%Z by lia.
  rewrite Hc. replace (e - (e + -52))%Z with 52%Z by lia.
  cbn [shr]. rewrite iter_shr_1_52.
  cbn [shr_m loc_of_shr_record round_nearest_even Zdigits2 shr_record_of_loc].
  replace (e + -52 + 52)%Z with e by lia.
  rewrite Hc, Z.sub_diag. cbn [shr shr_m].
  by rewrite (proj2 (Z.leb_le _ _) He).
Qed.

(** Integers of at most 53 bits convert exactly. *)
Lemma float_of_Z_small (p : positive) :
  (Zpos (digits2_pos p) <= 53)%Z ->
  exists m e,
    float_of_Z (Zpos p) = S754_finite false m e
    /\ canonical m e /\ (e <= 0)%Z /\ Zpos m = (Zpos p * 2 ^ (- e))%Z.
Proof.
  intros Hd. unfold float_of_Z, binary_normalize, binary_round.
  assert (fexp prec emax (Zpos (digits2_pos p) + 0)
          = (Zpos (digits2_pos p) - 53)%Z)
    as -> by (unfold fexp, emin, prec, emax; lia).
  unfold shl_align.
  destruct (Zpos (digits2_pos p) - 53 - 0)%Z as [|k|k] eqn:Ek; [|lia|].
  - assert (canonical p 0) as Hc
      by (split; unfold fexp, emin, prec, emax; lia).
    exists p, 0%Z. rewrite binary_round_aux_canonical by done.
    split; [reflexivity|]. split; [done|]. split; lia.
  - exists (Pos.iter xO p k), (Zpos (digits2_pos p) - 53)%Z.
    assert (canonical (Pos.iter xO p k) (Zpos (digits2_pos p) - 53)) as Hc.
    { split; [|unfold emax, prec; lia].
      rewrite digits2_pos_iter_xO, Pos2Z.inj_add.
      unfold fexp, emin, prec, emax. lia. }
    rewrite binary_round_aux_canonical by done.
    split; [reflexivity|]. split; [done|]. split; [lia|].
    rewrite Zpos_iter_xO. f_equal. f_equal. lia.
Qed.

Lemma py_int_exact (m p : positive) (e : Z) :
  (e <= 0)%Z -> Zpos m = (Zpos p * 2 ^ (- e))%Z ->
  py_int (S754_finite false m e) = Ok (Zpos p).
Proof.
  intros He Hm. cbn [py_int cond_Zopp]. f_equal.
  rewrite Hm. rewrite <- (Z.opp_involutive e) at 2.
  rewrite Z.shiftl_opp_r, Z.shiftr_div_pow2 by lia.
  apply Z.div_mul. apply Z.pow_nonzero; lia.
Qed.

(** *** A non-zero integer never rounds to zero *)

Lemma iter_pos_Pos_iter {A : Type} (f : A -> A) (n : positive) (x : A) :
  SpecFloat.iter_pos f n x = Pos.iter f x n.
Proof.
  revert x.
  induction n as [n IH|n IH|]; intros x; cbn [SpecFloat.iter_pos Pos.iter].
  - by rewrite !IH, <- !Pos.iter_swap.
  - by rewrite !IH.
  - reflexivity.
Qed.

Lemma shr_1_positive (r : shr_record) (p : positive) :
  shr_m r = Zpos p -> (2 <= Zpos (digits2_pos p))%Z ->
  exists p', shr_m (shr_1 r) = Zpos p'
             /\ Zpos (digits2_pos p') = (Zpos (digits2_pos p) - 1)%Z.
Proof.
  destruct r as [m rb sb]. cbn [shr_m]. intros -> Hd.
  destruct p as [p|p|]; cbn [shr_1 shr_m digits2_pos] in *.
  - exists p. split; [reflexivity | lia].
  - exists p. split; [reflexivity | lia].
  - lia.
Qed.

Lemma shr_positive (n : positive) (r : shr_record) (p : positive) :
  shr_m r = Zpos p -> (Zpos n < Zpos (digits2_pos p))%Z ->
  exists p', shr_m (Pos.iter shr_1 r n) = Zpos p'
             /\ Zpos (digits2_pos p') = (Zpos (digits2_pos p) - Zpos n)%Z.
Proof.
  induction n as [|n IH] using Pos.peano_ind; intros Hm Hn.
  - cbn [Pos.iter]. apply shr_1_positive; [done | lia].
  - rewrite Pos.iter_succ.
    destruct IH as (p1 & Hp1 & Hd1); [done | lia |].
    destruct (shr_1_positive _ p1 Hp1) as (p2 & Hp2 & Hd2); [lia|].
    exists p2. split; [done | lia].
Qed.

Lemma shr_fexp_positive (p : positive) (e : Z) (l : location) :
  (emin prec emax <= e)%Z ->
  exists r e' p',
    shr_fexp prec emax (Zpos p) e l = (r, e')
    /\ shr_m r = Zpos p' /\ (emin prec emax <= e')%Z.
Proof.
  intros He. unfold shr_fexp, shr. cbn [Zdigits2].
  assert (shr_m (shr_record_of_loc (Zpos p) l) = Zpos p) as Hm
    by (destruct l as [|[| |]]; reflexivity).
  destruct (fexp prec emax (Zpos (digits2_pos p) + e) - e)%Z as [|n|n] eqn:En.
  - eauto 6.
  - destruct (shr_positive n _ p Hm) as (p' & Hp' & _).
    { revert En. unfold fexp, emin, prec, emax in *. lia. }
    eexists _, _, p'. rewrite iter_pos_Pos_iter.
    split; [reflexivity|]. split; [done | lia].
  - eauto 6.
Qed.

Lemma binary_round_aux_nonzero (s : bool) (p : positive) (e : Z) :
  (emin prec emax <= e)%Z ->
  signed_nonzero s (binary_round_aux prec emax s (Zpos p) e loc_Exact).
Proof.
  intros He. unfold binary_round_aux.
  destruct (shr_fexp_positive p e loc_Exact He)
    as (r1 & e1 & p1 & -> & Hp1 & He1).
  assert (exists p2,
             round_nearest_even (shr_m r1) (loc_of_shr_record r1) = Zpos p2)
    as [p2 ->].
  { rewrite Hp1. destruct (loc_of_shr_record r1) as [|[| |]];
      cbn [round_nearest_even]; try destruct (Z.even (Zpos p1)); cbn; eauto. }
  destruct (shr_fexp_positive p2 e1 loc_Exact He1)
    as (r2 & e2 & p3 & -> & -> & _).
  by destruct (e2 <=? emax - prec)%Z.
Qed.

Lemma float_of_Z_nonzero (p : positive) :
  signed_nonzero false (float_of_Z (Zpos p))
  /\ signed_nonzero true (float_of_Z (Zneg p)).
Proof.
  unfold float_of_Z, binary_normalize, binary_round.
  assert (exists mz ez,
             shl_align p 0 (fexp prec emax (Zpos (digits2_pos p) + 0))
             = (mz, ez)
             /\ (emin prec emax <= ez)%Z) as (mz & ez & -> & Hez).
  { unfold shl_align.
    destruct (fexp prec emax (Zpos (digits2_pos p) + 0) - 0)%Z eqn:E;
      eexists _, _; (split; [reflexivity|]);
      unfold fexp, emin, prec, emax in *; lia. }
  split; by apply binary_round_aux_nonzero.
Qed.

(** A positive quantity, once converted, is not zero: the division by it
    does not raise. *)
Lemma float_of_int_positive (tx : Z) (ftx : spec_float) :
  (0 < tx)%Z -> float_of_int tx = Ok ftx -> is_zero ftx = false.
Proof.
  intros Hpos. destruct tx as [|p|p]; try lia. unfold float_of_int.
  destruct (float_of_Z_nonzero p) as [Hnz _].
  destruct (float_of_Z (Zpos p)); try done; intros H; by injection H as <-.
Qed.

(** *** [int()] is truncation toward zero *)

#[global] Instance trunc_toward_zero_proper :
  Proper (Qeq ==> eq) trunc_toward_zero.
Proof. intros x y Hxy. rewrite <- !py_int_trunc. by apply py_int_proper. Qed.

Lemma trunc_toward_zero_inject_Z (z : Z) : trunc_toward_zero (inject_Z z) = z.
Proof.
  unfold trunc_toward_zero. destruct (Qle_bool 0 (inject_Z z));
    [apply Qfloor_Z | apply Qceiling_Z].
Qed.

Lemma trunc_toward_zero_Qmake (s : bool) (m d : positive) :
  trunc_toward_zero (cond_Zopp s (Zpos m) # d)
  = cond_Zopp s (Zpos m / Zpos d)%Z.
Proof. destruct s; reflexivity. Qed.

Lemma py_int_value (s : bool) (m : positive) (e : Z) :
  py_int (S754_finite s m e)
  = Ok (trunc_toward_zero (float_value (S754_finite s m e))).
Proof.
  cbn [py_int float_value]. f_equal. destruct e as [|k|k].
  - rewrite Z.shiftl_0_r. symmetry.
    rewrite <- (trunc_toward_zero_inject_Z (cond_Zopp s (Zpos m))) at 2.
    apply trunc_toward_zero_proper. cbn [Qpower]. ring.
  - rewrite Z.shiftl_mul_pow2 by lia. symmetry.
    transitivity
      (trunc_toward_zero (inject_Z (cond_Zopp s (Zpos m) * 2 ^ Zpos k))).
    + apply trunc_toward_zero_proper.
      rewrite inject_Z_mult, Zpower_Qpower by lia. reflexivity.
    + rewrite trunc_toward_zero_inject_Z. destruct s; cbn [cond_Zopp]; lia.
  - change (Zneg k) with (- Zpos k)%Z at 1. rewrite Z.shiftl_opp_r.
    rewrite Z.shiftr_div_pow2 by lia. symmetry.
    transitivity (trunc_toward_zero (cond_Zopp s (Zpos m) # (2 ^ k)%positive)).
    + apply trunc_toward_zero_proper.
      rewrite (Qmake_Qdiv (cond_Zopp s (Zpos m)) (2 ^ k)), Pos2Z.inj_pow.
      change (Qpower 2 (Zneg k)) with (/ Qpower 2 (Zpos k)).
      rewrite <- (Zpower_Qpower 2 (Zpos k)) by lia. reflexivity.
    + rewrite trunc_toward_zero_Qmake, Pos2Z.inj_pow. reflexivity.
Qed.

(** ** Scenario builder *)

Lemma scenario_body_quantity (btx : gmap string Z) (growth_factor : spec_float)
    (relative_changes stx : gmap string Z) (pm : string) (base change : Z) :
  btx !! pm = Some base -> relative_changes !! pm = Some change ->
  scenario_body btx growth_factor relative_changes stx pm
  = quantity ← scenario_quantity base growth_factor change;
    Ok (<[pm := quantity]> stx).
Proof.
  intros Hb%getitem_Ok Hc%getitem_Ok. unfold scenario_body, scenario_quantity.
  rewrite (bind_Ok_l _ _ _ Hc).
  destruct (int_div change hundred) as [ratio|e]; [|reflexivity].
  cbn [mbind result_bind]. rewrite (bind_Ok_l _ _ _ Hb).
  destruct (int_mul base growth_factor) as [scaled|e]; reflexivity.
Qed.

Lemma scenario_loop_binary64 (btx : gmap string Z) (growth_factor : spec_float)
    (relative_changes : gmap string Z) (pms : list string)
    (stx0 : gmap string Z) :
  (forall pm, pm ∈ pms ->
     exists base change quantity,
       btx !! pm = Some base /\ relative_changes !! pm = Some change
       /\ scenario_quantity base growth_factor change = Ok quantity) ->
  exists stx,
    for_each (scenario_body btx growth_factor relative_changes) pms stx0 = Ok stx
    /\ (forall pm base change quantity,
          pm ∈ pms -> btx !! pm = Some base ->
          relative_changes !! pm = Some change ->
          scenario_quantity base growth_factor change = Ok quantity ->
          stx !! pm = Some quantity)
    /\ (forall pm, pm ∉ pms -> stx !! pm = stx0 !! pm).
Proof.
  revert stx0. induction pms as [|x pms IH]; intros stx0 Hin.
  - exists stx0. split; [reflexivity|]. split; [|done].
    intros pm ? ? ? Hpm. by apply elem_of_nil in Hpm.
  - destruct (Hin x) as (b & c & n & Hb & Hc & Hn); [left|].
    destruct (IH (<[x := n]> stx0)) as (stx & Hrun & Hin' & Hout).
    { intros pm Hpm. apply Hin. by right. }
    exists stx. split; [|split].
    + rewrite for_each_cons, (scenario_body_quantity _ _ _ _ _ b c Hb Hc), Hn.
      exact Hrun.
    + intros pm base change quantity Hpm Hbase Hchange Hq.
      destruct (decide (pm ∈ pms)) as [Hp|Hp]; [by eapply Hin'|].
      apply elem_of_cons in Hpm as [-> | Hpm]; [|done].
      rewrite (Hout x Hp), lookup_insert_eq. congruence.
    + intros pm Hpm. apply not_elem_of_cons in Hpm as [Hne Hpm].
      rewrite (Hout pm Hpm). by apply lookup_insert_ne.
Qed.

Lemma float_of_int_Ok_inv (n : Z) (x : spec_float) :
  float_of_int n = Ok x -> x = float_of_Z n /\ is_finite x = true.
Proof.
  unfold float_of_int. intros H.
  unfold float_of_Z in *.
  destruct (binary_normalize prec emax n 0 false) as [s|s| |s m e] eqn:E;
    try discriminate; injection H as <-; try done.
  exfalso. destruct n as [|p|p].
  - discriminate.
  - by destruct (float_of_Z_nonzero p) as [Hp _];
      unfold float_of_Z in Hp; rewrite E in Hp.
  - by destruct (float_of_Z_nonzero p) as [_ Hp];
      unfold float_of_Z in Hp; rewrite E in Hp.
Qed.

Lemma scenario_quantity_Ok (base : Z) (growth_factor : spec_float)
    (change : Z) (fb fc : spec_float) :
  float_of_int base = Ok fb -> float_of_int change = Ok fc ->
  is_finite (scenario_product fb growth_factor fc) = true ->
  scenario_quantity base growth_factor change
  = Ok (trunc_toward_zero (float_value (scenario_product fb growth_factor fc))).
Proof.
  intros Hfb Hfc Hfin. unfold scenario_quantity, int_div, int_mul, truediv.
  rewrite Hfc, Hfb. cbn [mbind result_bind is_zero hundred].
  fold hundred. fold (scenario_product fb growth_factor fc).
  destruct (scenario_product fb growth_factor fc) as [s|s| |s m e];
    try discriminate; [reflexivity | apply py_int_value].
Qed.

Lemma scenario_tx_runs (btx : gmap string Z) (growth_factor : spec_float)
    (relative_changes : gmap string Z) :
  complete btx -> complete relative_changes ->
  products_finite btx growth_factor relative_changes ->
  exists stx,
    scenario_tx btx growth_factor relative_changes = Ok stx
    /\ forall pm base change fb fc,
         pm ∈ PAYMENT_METHODS ->
         btx !! pm = Some base -> relative_changes !! pm = Some change ->
         float_of_int base = Ok fb -> float_of_int change = Ok fc ->
         stx !! pm
         = Some (trunc_toward_zero
                   (float_value (scenario_product fb growth_factor fc))).
Proof.
  intros Hb Hc Hfin.
  destruct (scenario_loop_binary64 btx growth_factor relative_changes
              PAYMENT_METHODS ∅) as (stx & Hrun & Hin & _).
  { intros pm Hpm.
    destruct (complete_lookup btx pm Hb Hpm) as [base Hbase].
    destruct (complete_lookup relative_changes pm Hc Hpm) as [change Hchange].
    destruct (Hfin pm base change Hpm Hbase Hchange)
      as (fb & fc & Hfb & Hfc & Hp).
    eexists base, change, _. split; [done|]. split; [done|].
    by apply (scenario_quantity_Ok base growth_factor change fb fc). }
  exists stx. split; [exact Hrun|].
  intros pm base change fb fc Hpm Hbase Hchange Hfb Hfc.
  destruct (Hfin pm base change Hpm Hbase Hchange)
    as (fb' & fc' & Hfb' & Hfc' & Hp).
  assert (fb' = fb) as -> by congruence.
  assert (fc' = fc) as -> by congruence.
  apply (Hin pm base change _ Hpm Hbase Hchange).
  by apply scenario_quantity_Ok.
Qed.

(** C4, as the code has it.  When every baseline quantity and every slider
    value converts to a double and every product is a finite double, the
    scenario builder returns, and the quantity stored for each payment
    method is the truncation toward zero of the binary64 product
    [base * growth_factor * (1.0 + change / 100.0)], every operation of
    which is rounded to the nearest double. *)
Theorem scenario_tx_truncates_binary64_product
    (btx : gmap string Z) (growth_factor : spec_float)
    (relative_changes : gmap string Z) :
  complete btx -> complete relative_changes ->
  products_finite btx growth_factor relative_changes ->
  exists stx,
    scenario_tx btx growth_factor relative_changes = Ok stx
    /\ forall pm base change fb fc,
         pm ∈ PAYMENT_METHODS ->
         btx !! pm = Some base -> relative_changes !! pm = Some change ->
         float_of_int base = Ok fb -> float_of_int change = Ok fc ->
         stx !! pm
         = Some (trunc_toward_zero
                   (float_value
                      (fmul (fmul fb growth_factor)
                            (fadd one (fdiv fc hundred))))).
Proof. exact (scenario_tx_runs btx growth_factor relative_changes). Qed.

(** C4, as the specification words it, fails: for 600000 invoices, growth
    factor 1.0 and a change of 13 percent the double product is
    677999.99999999988 and the stored quantity 677999, while the exact
    product is 678000. *)
Lemma scenario_tx_is_not_the_exact_truncation :
  ~ scenario_truncates_exact_product baseline_transactions one
      thirteen_percent_more_invoices.
Proof.
  intros Hclaim.
  destruct (scenario_loop_binary64 baseline_transactions one
              thirteen_percent_more_invoices PAYMENT_METHODS ∅)
    as (stx & Hrun & Hin & _).
  { intros pm Hpm. payment_method_cases Hpm;
      eexists _, _, _; (split; [reflexivity|]); (split; [reflexivity|]);
      vm_compute; reflexivity. }
  pose proof (Hclaim stx "Invoice (no fee)"%string 600000%Z 13%Z Hrun) as Hexact.
  rewrite (Hin "Invoice (no fee)"%string 600000%Z 13%Z 677999%Z) in Hexact.
  - specialize (Hexact ltac:(by_evaluation) eq_refl eq_refl).
    vm_compute in Hexact. discriminate Hexact.
  - by_evaluation.
  - reflexivity.
  - reflexivity.
  - vm_compute. reflexivity.
Qed.

Lemma scenario_quantity_identity (base : Z) :
  (0 <= base <= 2 ^ 53)%Z -> scenario_quantity base one 0 = Ok base.
Proof.
  intros Hb. unfold scenario_quantity.
  change (int_div 0 hundred) with (Ok zero). cbn [mbind result_bind].
  change (fadd one zero) with one.
  destruct (Z.eq_dec base (2 ^ 53)%Z) as [-> | Hne]; [vm_compute; reflexivity|].
  destruct base as [|p|p]; [reflexivity | | lia].
  destruct (float_of_Z_small p) as (m & e & Hf & Hcan & He & Hm).
  { apply digits2_pos_le; lia. }
  unfold int_mul, float_of_int. rewrite Hf. cbn [mbind result_bind].
  rewrite !fmul_one_r by done. by apply py_int_exact.
Qed.

Lemma scenario_tx_unchanged (btx : gmap string Z) :
  complete btx ->
  (forall pm base, pm ∈ PAYMENT_METHODS -> btx !! pm = Some base ->
                   (0 <= base <= 2 ^ 53)%Z) ->
  exists stx,
    scenario_tx btx one zero_changes = Ok stx
    /\ forall pm, pm ∈ PAYMENT_METHODS -> stx !! pm = btx !! pm.
Proof.
  intros Hb Hrange.
  assert (forall pm, pm ∈ PAYMENT_METHODS -> zero_changes !! pm = Some 0%Z)
    as Hzero by (intros pm Hpm; payment_method_cases Hpm; reflexivity).
  destruct (scenario_loop_binary64 btx one zero_changes PAYMENT_METHODS ∅)
    as (stx & Hrun & Hin & _).
  { intros pm Hpm. destruct (complete_lookup btx pm Hb Hpm) as [base Hbase].
    exists base, 0%Z, base. split; [done|]. split; [by apply Hzero|].
    apply scenario_quantity_identity. by apply (Hrange pm). }
  exists stx. split; [exact Hrun|]. intros pm Hpm.
  destruct (complete_lookup btx pm Hb Hpm) as [base Hbase].
  rewrite Hbase. apply (Hin pm base 0%Z base Hpm Hbase (Hzero pm Hpm)).
  apply scenario_quantity_identity. by apply (Hrange pm).
Qed.

(** C7, as the code has it.  With growth factor 1.0 and every relative
    change 0, baseline quantities between 0 and [2^53] are reproduced
    exactly. *)
Theorem scenario_tx_identity_up_to_2_53 (btx : gmap string Z) :
  complete btx ->
  (forall pm base, pm ∈ PAYMENT_METHODS -> btx !! pm = Some base ->
                   (0 <= base <= 2 ^ 53)%Z) ->
  exists stx,
    scenario_tx btx one zero_changes = Ok stx
    /\ forall pm, pm ∈ PAYMENT_METHODS -> stx !! pm = btx !! pm.
Proof. exact (scenario_tx_unchanged btx). Qed.

(** C7, as the specification words it, fails: a baseline of [2^53 + 1]
    invoices is converted to the double [2^53], and the scenario quantity is
    [2^53]. *)
Lemma scenario_tx_identity_fails_above_2_53 :
  ~ scenario_reproduces_baseline baseline_above_2_53.
Proof.
  intros Hclaim.
  destruct (scenario_loop_binary64 baseline_above_2_53 one zero_changes
              PAYMENT_METHODS ∅) as (stx & Hrun & Hin & _).
  { intros pm Hpm. payment_method_cases Hpm;
      eexists _, _, _; (split; [reflexivity|]); (split; [reflexivity|]);
      vm_compute; reflexivity. }
  pose proof (Hclaim stx Hrun "Invoice (no fee)"%string ltac:(by_evaluation))
    as Hsame.
  rewrite (Hin "Invoice (no fee)"%string (2 ^ 53 + 1)%Z 0%Z (2 ^ 53)%Z)
    in Hsame.
  - vm_compute in Hsame. discriminate Hsame.
  - by_evaluation.
  - reflexivity.
  - reflexivity.
  - vm_compute. reflexivity.
Qed.

(** ** Cost engine *)

Lemma per_unit_lookup (params : CostParams) (cb : string) :
  cb ∈ cost_blocks ->
  compute_per_tx_cost_blocks params !! cb = Some (per_unit cb params).
Proof.
  unfold cost_blocks. rewrite !elem_of_cons, elem_of_nil.
  intros [-> | [-> | [-> | [-> | [-> | []]]]]]; reflexivity.
Qed.

Lemma guarded_div_int (total : spec_float) (tx : Z) (ftx : spec_float) :
  float_of_int tx = Ok ftx ->
  (if (0 <? tx)%Z then div_int total tx else Ok zero)
  = Ok (if (0 <? tx)%Z then fdiv total ftx else zero).
Proof.
  intros Hf. destruct (0 <? tx)%Z eqn:E; [|reflexivity].
  apply Z.ltb_lt in E. unfold div_int, truediv. rewrite Hf.
  cbn [mbind result_bind]. by rewrite (float_of_int_positive tx ftx E Hf).
Qed.

Section binary64_block_loop.
Variables (pm : string) (per_tx_blocks : gmap string spec_float) (tx : Z)
          (ftx : spec_float) (value : string -> spec_float).
Hypothesis Hftx : float_of_int tx = Ok ftx.

Lemma binary64_block_body_Ok (breakdown : gmap string (gmap string spec_float))
    (acc : spec_float) (row : gmap string spec_float) (cb : string)
    (old : spec_float) :
  per_tx_blocks !! cb = Some (value cb) ->
  breakdown !! pm = Some row ->
  row !! cb = Some old ->
  block_body pm per_tx_blocks tx (breakdown, acc) cb
  = Ok (<[pm := <[cb := fadd old (fmul (value cb) ftx)]> row]> breakdown,
        fadd acc (fmul (value cb) ftx)).
Proof.
  intros Hper%getitem_Ok Hrow%getitem_Ok Hold%getitem_Ok.
  unfold block_body, mul_int.
  rewrite (bind_Ok_l _ _ _ Hper), Hftx. cbn [mbind result_bind].
  by rewrite (bind_Ok_l _ _ _ Hrow), (bind_Ok_l _ _ _ Hold).
Qed.

Lemma binary64_block_loop (cbs : list string)
    (breakdown : gmap string (gmap string spec_float)) (acc : spec_float)
    (row : gmap string spec_float) :
  NoDup cbs ->
  breakdown !! pm = Some row ->
  (forall cb, cb ∈ cbs ->
              per_tx_blocks !! cb = Some (value cb) /\ is_Some (row !! cb)) ->
  exists row',
    for_each (block_body pm per_tx_blocks tx) cbs (breakdown, acc)
    = Ok (<[pm := row']> breakdown,
          foldl (fun a cb => fadd a (fmul (value cb) ftx)) acc cbs)
    /\ (forall cb old, cb ∈ cbs -> row !! cb = Some old ->
                       row' !! cb = Some (fadd old (fmul (value cb) ftx)))
    /\ (forall cb, cb ∉ cbs -> row' !! cb = row !! cb).
Proof.
  revert breakdown acc row.
  induction cbs as [|cb cbs IH]; intros breakdown acc row Hnd Hrow Hin.
  - exists row. rewrite insert_id by done. split; [reflexivity|].
    split; [|done]. intros cb old Hcb. by apply elem_of_nil in Hcb.
  - apply NoDup_cons in Hnd as [Hcb Hnd].
    destruct (Hin cb) as [Hper [old Hold]]; [left|].
    set (row1 := <[cb := fadd old (fmul (value cb) ftx)]> row).
    destruct (IH (<[pm := row1]> breakdown) (fadd acc (fmul (value cb) ftx))
                 row1)
      as (row' & Hrun & Hcells & Hother); [done | apply lookup_insert_eq | |].
    { intros cb' Hcb'. destruct (Hin cb') as [? ?]; [by right|].
      split; [done|]. unfold row1. rewrite lookup_insert_ne; [done|].
      intros ->. done. }
    exists row'. split; [|split].
    + rewrite for_each_cons, (binary64_block_body_Ok _ _ row cb old) by done.
      fold row1. cbn [mbind result_bind]. rewrite Hrun.
      by rewrite insert_insert_eq.
    + intros cb' old' Hcb' Hold'.
      destruct (decide (cb' ∈ cbs)) as [Hm|Hm].
      * apply Hcells; [done|]. unfold row1. rewrite lookup_insert_ne; [done|].
        intros ->. done.
      * apply elem_of_cons in Hcb' as [-> | ?]; [|done].
        rewrite (Hother cb Hm). unfold row1. rewrite lookup_insert_eq.
        congruence.
    + intros cb' Hcb'. apply not_elem_of_cons in Hcb' as [Hne Hcb'].
      rewrite (Hother cb' Hcb'). unfold row1. by rewrite lookup_insert_ne.
Qed.
End binary64_block_loop.

Lemma binary64_zero_breakdown_lookup (pm : string) :
  pm ∈ PAYMENT_METHODS ->
  exists row0, zero_breakdown !! pm = Some row0
               /\ forall cb, cb ∈ cost_blocks -> row0 !! cb = Some zero.
Proof.
  intros Hpm.
  exists (list_to_map (map (fun cb => (cb, zero)) cost_blocks)). split.
  - revert Hpm. unfold PAYMENT_METHODS. rewrite !elem_of_cons, elem_of_nil.
    intros [-> | [-> | [-> | [-> | [-> | [-> | [-> | []]]]]]]]; reflexivity.
  - intros cb. unfold cost_blocks. rewrite !elem_of_cons, elem_of_nil.
    intros [-> | [-> | [-> | [-> | [-> | []]]]]]; reflexivity.
Qed.

Section binary64_method_loop.
Variables (cost_params : gmap string CostParams)
          (transactions_dict : gmap string Z).

Lemma binary64_method_body_Ok (rows : list SummaryRow)
    (breakdown : gmap string (gmap string spec_float)) (pm : string) (tx : Z)
    (params : CostParams) (ftx : spec_float) :
  transactions_dict !! pm = Some tx ->
  cost_params !! pm = Some params ->
  float_of_int tx = Ok ftx ->
  untouched breakdown [pm] ->
  exists row,
    method_body cost_params transactions_dict (rows, breakdown) pm
    = Ok (rows ++ [mkSummaryRow pm tx (method_total params ftx)
                                (method_average params tx ftx)],
          <[pm := row]> breakdown)
    /\ forall cb, cb ∈ cost_blocks ->
         row !! cb = Some (fadd zero (fmul (per_unit cb params) ftx)).
Proof.
  intros Htx Hp Hftx Hzero.
  destruct (Hzero pm) as (row0 & Hrow0 & Hcells0); [left|].
  destruct (binary64_block_loop pm (compute_per_tx_cost_blocks params) tx ftx
              (fun cb => per_unit cb params) Hftx cost_blocks breakdown zero
              row0)
    as (row & Hrun & Hcells & _);
    [apply NoDup_cost_blocks | done | |].
  { intros cb Hcb. split; [by apply per_unit_lookup|]. rewrite Hcells0; eauto. }
  exists row. split.
  - apply getitem_Ok in Htx, Hp. unfold method_body.
    rewrite (bind_Ok_l _ _ _ Htx), (bind_Ok_l _ _ _ Hp).
    cbn zeta. rewrite Hrun. cbn [mbind result_bind].
    rewrite (guarded_div_int _ tx ftx Hftx). reflexivity.
  - intros cb Hcb. apply Hcells; [done | by apply Hcells0].
Qed.

Lemma binary64_method_loop (pms : list string) (rows : list SummaryRow)
    (breakdown : gmap string (gmap string spec_float)) :
  NoDup pms ->
  (forall pm, pm ∈ pms ->
     exists tx params ftx,
       transactions_dict !! pm = Some tx /\ cost_params !! pm = Some params
       /\ float_of_int tx = Ok ftx) ->
  untouched breakdown pms ->
  exists rows' breakdown',
    for_each (method_body cost_params transactions_dict) pms (rows, breakdown)
    = Ok (rows ++ rows', breakdown')
    /\ Forall2 (fun pm r => summary_row cost_params transactions_dict pm = Some r)
               pms rows'
    /\ (forall pm, pm ∈ pms ->
                filled cost_params transactions_dict breakdown' pm)
    /\ (forall pm, pm ∉ pms -> breakdown' !! pm = breakdown !! pm).
Proof.
  revert rows breakdown.
  induction pms as [|x pms IH]; intros rows breakdown Hnd Hin Hzero.
  - exists [], breakdown. rewrite app_nil_r. split; [reflexivity|].
    split; [constructor|]. split; [|done].
    intros pm Hpm. by apply elem_of_nil in Hpm.
  - apply NoDup_cons in Hnd as [Hx Hnd].
    destruct (Hin x) as (tx & params & ftx & Htx & Hp & Hftx); [left|].
    destruct (binary64_method_body_Ok rows breakdown x tx params ftx Htx Hp Hftx)
      as (row & Hstep & Hcells).
    { intros pm Hpm. apply Hzero. apply list_elem_of_singleton in Hpm as ->.
      left. }
    set (r := mkSummaryRow x tx (method_total params ftx)
                           (method_average params tx ftx)) in *.
    destruct (IH (rows ++ [r]) (<[x := row]> breakdown) Hnd)
      as (rows' & breakdown' & Hrun & Hrows & Hfilled & Hother).
    { intros pm Hpm. apply Hin. by right. }
    { intros pm Hpm. rewrite lookup_insert_ne by (intros ->; done).
      apply Hzero. by right. }
    exists (r :: rows'), breakdown'. split; [|split; [|split]].
    + rewrite for_each_cons, Hstep. cbn [mbind result_bind].
      rewrite Hrun. by rewrite <- app_assoc.
    + constructor; [|done]. unfold summary_row. rewrite Htx, Hp. cbn.
      by rewrite Hftx.
    + intros pm Hpm. destruct (decide (pm ∈ pms)) as [Hm|Hm]; [by apply Hfilled|].
      apply elem_of_cons in Hpm as [-> | ?]; [|done].
      intros tx' params' ftx' Htx' Hp' Hftx'. exists row. split.
      * by rewrite (Hother x Hm), lookup_insert_eq.
      * replace tx' with tx in * by congruence.
        replace params' with params by congruence.
        replace ftx' with ftx by congruence. done.
    + intros pm Hpm. apply not_elem_of_cons in Hpm as [Hne Hpm].
      rewrite (Hother pm Hpm). by rewrite lookup_insert_ne.
Qed.

Lemma quantities_fit_lookup (pm : string) (tx : Z) :
  quantities_fit transactions_dict -> pm ∈ PAYMENT_METHODS ->
  transactions_dict !! pm = Some tx -> exists ftx, float_of_int tx = Ok ftx.
Proof.
  intros Hfit Hpm. exact (proj1 (Forall_forall _ _) Hfit pm Hpm tx).
Qed.

(** What a call of [compute_costs] returns on complete dicts whose
    quantities convert to doubles. *)
Lemma binary64_compute_costs_total :
  complete transactions_dict -> complete cost_params ->
  quantities_fit transactions_dict ->
  exists df breakdown,
    compute_costs cost_params transactions_dict = Ok (df, breakdown)
    /\ Forall2 (fun pm r => summary_row cost_params transactions_dict pm = Some r)
               PAYMENT_METHODS df
    /\ forall pm, pm ∈ PAYMENT_METHODS ->
               filled cost_params transactions_dict breakdown pm.
Proof.
  intros Htx Hp Hfit.
  destruct (binary64_method_loop PAYMENT_METHODS [] zero_breakdown)
    as (df & breakdown & Hrun & Hrows & Hfilled & _).
  - apply NoDup_PAYMENT_METHODS.
  - intros pm Hpm.
    destruct (complete_lookup transactions_dict pm Htx Hpm) as [tx Htx'].
    destruct (complete_lookup cost_params pm Hp Hpm) as [params Hp'].
    destruct (quantities_fit_lookup pm tx Hfit Hpm Htx') as [ftx Hftx].
    by exists tx, params, ftx.
  - intros pm Hpm. by apply binary64_zero_breakdown_lookup.
  - exists df, breakdown. done.
Qed.

Lemma binary64_method_body_Ok_inv
    (st st' : list SummaryRow * gmap string (gmap string spec_float))
    (pm : string) :
  method_body cost_params transactions_dict st pm = Ok st' ->
  exists tx params ftx,
    transactions_dict !! pm = Some tx /\ cost_params !! pm = Some params
    /\ float_of_int tx = Ok ftx.
Proof.
  destruct st as [rows breakdown]. unfold method_body. intros H.
  apply bind_Ok in H as (tx & Htx%getitem_Ok & H).
  apply bind_Ok in H as (params & Hp%getitem_Ok & H).
  apply bind_Ok in H as ([bd total] & Hloop & _).
  unfold cost_blocks in Hloop. rewrite for_each_cons in Hloop.
  apply bind_Ok in Hloop as (st1 & Hstep & _). unfold block_body in Hstep.
  apply bind_Ok in Hstep as (per_tx & _ & Hstep).
  apply bind_Ok in Hstep as (cost & Hmul & _). unfold mul_int in Hmul.
  apply bind_Ok in Hmul as (ftx & Hftx & _). by exists tx, params, ftx.
Qed.

Lemma binary64_compute_costs_inv (df : list SummaryRow)
    (breakdown : gmap string (gmap string spec_float)) :
  compute_costs cost_params transactions_dict = Ok (df, breakdown) ->
  Forall2 (fun pm r => summary_row cost_params transactions_dict pm = Some r)
          PAYMENT_METHODS df
  /\ forall pm, pm ∈ PAYMENT_METHODS ->
               filled cost_params transactions_dict breakdown pm.
Proof.
  intros Hrun.
  assert (forall pm, pm ∈ PAYMENT_METHODS ->
            exists tx params ftx,
              transactions_dict !! pm = Some tx /\ cost_params !! pm = Some params
              /\ float_of_int tx = Ok ftx) as Hall.
  { intros pm Hpm.
    destruct (for_each_Ok_inv _ _ _ _ Hrun pm Hpm) as (s1 & s2 & Hstep).
    by eapply binary64_method_body_Ok_inv. }
  destruct (binary64_method_loop PAYMENT_METHODS [] zero_breakdown)
    as (df' & bd' & Hrun' & Hrows & Hfilled & _).
  - apply NoDup_PAYMENT_METHODS.
  - exact Hall.
  - intros pm Hpm. by apply binary64_zero_breakdown_lookup.
  - unfold compute_costs in Hrun. rewrite Hrun in Hrun'.
    by injection Hrun' as -> ->.
Qed.

(** The summary frame of a successful run, as a closed expression. *)
Lemma binary64_compute_costs_frame (df : list SummaryRow)
    (breakdown : gmap string (gmap string spec_float)) :
  compute_costs cost_params transactions_dict = Ok (df, breakdown) ->
  mapM (summary_row cost_params transactions_dict) PAYMENT_METHODS = Some df.
Proof.
  intros Hrun. apply binary64_compute_costs_inv in Hrun as [Hdf _].
  by apply mapM_Some_2.
Qed.
End binary64_method_loop.

Lemma binary64_summary_row_Some (cost_params : gmap string CostParams)
    (transactions_dict : gmap string Z) (pm : string) (r : SummaryRow) :
  summary_row cost_params transactions_dict pm = Some r ->
  exists tx params ftx,
    transactions_dict !! pm = Some tx /\ cost_params !! pm = Some params
    /\ float_of_int tx = Ok ftx
    /\ r = mkSummaryRow pm tx (method_total params ftx)
                        (method_average params tx ftx).
Proof.
  unfold summary_row. intros H.
  destruct (transactions_dict !! pm) as [tx|]; [|discriminate].
  destruct (cost_params !! pm) as [params|]; [|discriminate].
  cbn [mbind option_bind] in H.
  destruct (float_of_int tx) as [ftx|e] eqn:Hftx; [|discriminate].
  injection H as <-. by exists tx, params, ftx.
Qed.

Lemma Forall2_elem_l {A B : Type} (P : A -> B -> Prop)
    (xs : list A) (ys : list B) (x : A) :
  Forall2 P xs ys -> x ∈ xs -> exists y, y ∈ ys /\ P x y.
Proof.
  induction 1 as [|x0 y0 xs ys Hxy _ IH]; intros Hx.
  - by apply elem_of_nil in Hx.
  - apply elem_of_cons in Hx as [-> | Hx].
    + exists y0. split; [left | done].
    + destruct (IH Hx) as (y & Hy & HP). exists y. split; [by right | done].
Qed.

(** ** Zeros and non-finite values *)

Lemma fadd_zero_l (s : bool) : fadd zero (S754_zero s) = zero.
Proof. by destruct s. Qed.

Lemma fmul_zero_r (x : spec_float) :
  is_finite x = true -> exists s, fmul x zero = S754_zero s.
Proof. destruct x as [s|s| |s m e]; try discriminate; intros _; by eexists. Qed.

Lemma fdiv_nonfinite (x y : spec_float) :
  is_finite x = false -> is_finite y = true -> is_zero y = false ->
  is_finite (fdiv x y) = false.
Proof.
  destruct x as [sx|sx| |sx mx ex]; try discriminate;
    destruct y as [sy|sy| |sy my ey]; try discriminate; reflexivity.
Qed.

Lemma foldl_fadd_zero {A : Type} (f : A -> spec_float) (xs : list A) :
  (forall x, x ∈ xs -> fadd zero (f x) = zero) ->
  foldl (fun acc x => fadd acc (f x)) zero xs = zero.
Proof.
  induction xs as [|x xs IH]; intros Hf; [reflexivity|].
  cbn [foldl]. rewrite (Hf x) by left. apply IH. intros y Hy. apply Hf. by right.
Qed.

Lemma zero_block_cost (params : CostParams) (cb : string) :
  is_finite (per_unit cb params) = true ->
  fadd zero (fmul (per_unit cb params) zero) = zero.
Proof. intros [s ->]%fmul_zero_r. apply fadd_zero_l. Qed.

Lemma float_of_Z_positive_nonzero (n : Z) :
  (0 < n)%Z -> is_zero (float_of_Z n) = false.
Proof.
  intros Hn. destruct n as [|p|p]; try lia.
  destruct (float_of_Z_nonzero p) as [Hnz _].
  by destruct (float_of_Z (Zpos p)).
Qed.

(** ** The shape of results and the finiteness of quotients *)

Section binary64_quotients.
Local Open Scope Z_scope.

Lemma Zdigits2_nonneg (m : Z) : 0 <= Zdigits2 m.
Proof. destruct m; cbn; lia. Qed.

Lemma Zdigits2_lt_pow2 (m k : Z) :
  0 <= m -> 0 <= k -> (Zdigits2 m <= k <-> m < 2 ^ k).
Proof.
  intros Hm Hk. destruct m as [|p|p]; [|clear Hm|lia].
  - cbn. split; [intros _; apply Z.pow_pos_nonneg; lia | lia].
  - cbn [Zdigits2]. rewrite digits2_pos_log2. split; intros H.
    + apply Z.log2_lt_pow2; lia.
    + apply Z.log2_lt_pow2 in H; lia.
Qed.

Lemma Zdigits2_pow2_le (m : Z) : 0 < m -> 2 ^ (Zdigits2 m - 1) <= m.
Proof.
  intros Hm. destruct m as [|p|p]; try lia. cbn [Zdigits2].
  rewrite digits2_pos_log2. replace (Z.log2 (Z.pos p) + 1 - 1) with (Z.log2 (Z.pos p)) by lia.
  apply Z.log2_spec. lia.
Qed.

Lemma shr_1_m (r : shr_record) :
  0 <= shr_m r -> shr_m (shr_1 r) = Z.div2 (shr_m r).
Proof.
  destruct r as [m rb sb]. cbn [shr_m]. intros Hm.
  destruct m as [|[p|p|]|p]; try lia; reflexivity.
Qed.

Lemma shr_iter_m (n : positive) (r : shr_record) :
  0 <= shr_m r ->
  shr_m (Pos.iter shr_1 r n) = Z.shiftr (shr_m r) (Zpos n).
Proof.
  intros Hm. induction n as [|n IH] using Pos.peano_ind.
  - cbn [Pos.iter]. rewrite shr_1_m by done. by rewrite Z.div2_spec.
  - rewrite Pos.iter_succ, shr_1_m, IH.
    + rewrite Z.div2_spec, Z.shiftr_shiftr by lia. f_equal. lia.
    + rewrite IH. apply Z.shiftr_nonneg. done.
Qed.

Lemma Zdigits2_shiftr (m n : Z) :
  0 <= m -> 0 <= n -> Zdigits2 (Z.shiftr m n) = Z.max 0 (Zdigits2 m - n).
Proof.
  intros Hm Hn. pose proof (Zdigits2_nonneg m) as Hd.
  assert (m < 2 ^ Zdigits2 m) as Hlt by (apply Zdigits2_lt_pow2; lia).
  assert (0 <= Z.shiftr m n) as Hs by (apply Z.shiftr_nonneg; lia).
  assert (0 < 2 ^ n) as Hpn by (apply Z.pow_pos_nonneg; lia).
  apply Z.le_antisymm.
  - apply Zdigits2_lt_pow2; [done | lia |].
    rewrite Z.shiftr_div_pow2 by lia.
    destruct (Z_le_gt_dec n (Zdigits2 m)) as [Hle|Hgt].
    + rewrite Z.max_r by lia. apply Z.div_lt_upper_bound; [done|].
      rewrite <- Z.pow_add_r by lia.
      by replace (n + (Zdigits2 m - n)) with (Zdigits2 m) by lia.
    + rewrite Z.max_l by lia. rewrite Z.div_small; [lia|].
      split; [lia|]. eapply Z.lt_le_trans; [exact Hlt|].
      apply Z.pow_le_mono_r; lia.
  - pose proof (Zdigits2_nonneg (Z.shiftr m n)) as Hds.
    destruct (Z_le_gt_dec (Zdigits2 m - n) (Zdigits2 (Z.shiftr m n)))
      as [Hle|Hgt]; [lia|].
    exfalso.
    assert (Z.shiftr m n < 2 ^ (Zdigits2 m - n - 1)) as Hsmall
      by (apply Zdigits2_lt_pow2; lia).
    assert (0 < m) as Hpos by (destruct m; cbn in *; lia).
    pose proof (Zdigits2_pow2_le m Hpos) as Hlow.
    rewrite Z.shiftr_div_pow2 in Hsmall by lia.
    assert (2 ^ (Zdigits2 m - n - 1) <= m / 2 ^ n); [|lia].
    apply Z.div_le_lower_bound; [done|].
    rewrite <- Z.pow_add_r by lia.
    by replace (n + (Zdigits2 m - n - 1)) with (Zdigits2 m - 1) by lia.
Qed.

Lemma Zdigits2_succ (m : Z) : 0 <= m -> Zdigits2 (m + 1) <= Zdigits2 m + 1.
Proof.
  intros Hm. pose proof (Zdigits2_nonneg m) as Hd.
  assert (m < 2 ^ Zdigits2 m) as Hlt by (apply Zdigits2_lt_pow2; lia).
  apply Zdigits2_lt_pow2; [lia | lia |].
  rewrite Z.pow_add_r by lia. assert (0 < 2 ^ Zdigits2 m) by (apply Z.pow_pos_nonneg; lia). lia.
Qed.

Lemma Zdigits2_mono (m m' : Z) : 0 <= m <= m' -> Zdigits2 m <= Zdigits2 m'.
Proof.
  intros Hm. pose proof (Zdigits2_nonneg m') as Hd.
  assert (m' < 2 ^ Zdigits2 m') as Hlt by (apply Zdigits2_lt_pow2; lia).
  apply Zdigits2_lt_pow2; lia.
Qed.

Lemma shr_record_of_loc_m (m : Z) (l : location) : shr_m (shr_record_of_loc m l) = m.
Proof. by destruct l as [|[| |]]. Qed.

Lemma shr_fexp_spec (m e : Z) (l : location) :
  0 <= m ->
  exists r e1,
    shr_fexp prec emax m e l = (r, e1)
    /\ 0 <= shr_m r
    /\ e1 = Z.max e (fexp prec emax (Zdigits2 m + e))
    /\ Zdigits2 (shr_m r) = Z.max 0 (Zdigits2 m + e - e1).
Proof.
  intros Hm. unfold shr_fexp, shr. pose proof (Zdigits2_nonneg m) as Hd.
  destruct (fexp prec emax (Zdigits2 m + e) - e) as [|n|n] eqn:En.
  - eexists _, _. split; [reflexivity|]. rewrite shr_record_of_loc_m.
    split; [done|]. split; lia.
  - eexists _, _. split; [reflexivity|].
    rewrite iter_pos_Pos_iter, shr_iter_m by (by rewrite shr_record_of_loc_m).
    rewrite shr_record_of_loc_m. split; [by apply Z.shiftr_nonneg|].
    split; [lia|].
    rewrite Zdigits2_shiftr by lia. lia.
  - eexists _, _. split; [reflexivity|]. rewrite shr_record_of_loc_m.
    split; [done|]. split; lia.
Qed.

Lemma round_nearest_even_bounds (m : Z) (l : location) :
  m <= round_nearest_even m l <= m + 1.
Proof.
  destruct l as [|[| |]]; cbn [round_nearest_even]; try destruct (Z.even m); lia.
Qed.

Lemma binary_round_aux_shaped (s : bool) (m e : Z) (l : location) :
  0 <= m -> double_shaped (binary_round_aux prec emax s m e l).
Proof.
  intros Hm. unfold binary_round_aux.
  destruct (shr_fexp_spec m e l Hm) as (r1 & e1 & -> & Hm1 & He1 & Hd1).
  pose proof (round_nearest_even_bounds (shr_m r1) (loc_of_shr_record r1)) as Hr.
  destruct (shr_fexp_spec (round_nearest_even (shr_m r1) (loc_of_shr_record r1))
              e1 loc_Exact) as (r2 & e2 & -> & Hm2 & He2 & Hd2); [lia|].
  destruct (shr_m r2) as [|p|p] eqn:E; [done| |done].
  destruct (e2 <=? emax - prec) eqn:Ele; [|done].
  apply Z.leb_le in Ele. cbn [double_shaped]. split; [|unfold emax, prec in Ele; lia].
  cbn [Zdigits2] in Hd2. revert Hd2. rewrite He2. unfold fexp, emin, prec, emax. lia.
Qed.

Lemma binary_round_aux_finite (s : bool) (m e : Z) (l : location) :
  0 <= m -> e <= 971 -> Zdigits2 m + e <= 1023 ->
  is_finite (binary_round_aux prec emax s m e l) = true.
Proof.
  intros Hm He Hd. unfold binary_round_aux.
  destruct (shr_fexp_spec m e l Hm) as (r1 & e1 & -> & Hm1 & He1 & Hd1).
  pose proof (round_nearest_even_bounds (shr_m r1) (loc_of_shr_record r1)) as Hr.
  pose proof (Zdigits2_nonneg m) as Hdm.
  pose proof (Zdigits2_nonneg (shr_m r1)) as Hdm1.
  assert (Zdigits2 (round_nearest_even (shr_m r1) (loc_of_shr_record r1))
          <= Zdigits2 (shr_m r1) + 1) as Hd1'.
  { etransitivity; [apply (Zdigits2_mono _ (shr_m r1 + 1)); lia|].
    by apply Zdigits2_succ. }
  destruct (shr_fexp_spec (round_nearest_even (shr_m r1) (loc_of_shr_record r1))
              e1 loc_Exact) as (r2 & e2 & -> & Hm2 & He2 & Hd2); [lia|].
  destruct (shr_m r2) as [|p|p] eqn:E; [done| |lia].
  assert (e2 <= emax - prec) as Hle.
  { revert He1 Hd1 He2 Hd1'. unfold fexp, emin, prec, emax. lia. }
  apply Z.leb_le in Hle. by rewrite Hle.
Qed.

Lemma binary_round_shaped (s : bool) (m : positive) (e : Z) :
  double_shaped (binary_round prec emax s m e).
Proof.
  unfold binary_round.
  destruct (shl_align m e (fexp prec emax (Z.pos (digits2_pos m) + e))) as [mz ez].
  by apply binary_round_aux_shaped.
Qed.

Lemma binary_normalize_shaped (m e : Z) (szero : bool) :
  double_shaped (binary_normalize prec emax m e szero).
Proof. destruct m; cbn [binary_normalize]; [done | apply binary_round_shaped..]. Qed.

Lemma fmul_shaped (x y : spec_float) : double_shaped (fmul x y).
Proof.
  destruct x as [sx|sx| |sx mx ex], y as [sy|sy| |sy my ey]; try done.
  by apply binary_round_aux_shaped.
Qed.

Lemma fadd_shaped (x y : spec_float) :
  double_shaped x -> double_shaped y -> double_shaped (fadd x y).
Proof.
  intros Hx Hy.
  destruct x as [sx|sx| |sx mx ex], y as [sy|sy| |sy my ey]; try done;
    try (by destruct sx, sy).
  apply binary_normalize_shaped.
Qed.

Lemma foldl_fadd_shaped {A : Type} (f : A -> spec_float) (xs : list A)
    (acc : spec_float) :
  double_shaped acc -> (forall x, double_shaped (f x)) ->
  double_shaped (foldl (fun a x => fadd a (f x)) acc xs).
Proof.
  revert acc. induction xs as [|x xs IH]; intros acc Hacc Hf; [done|].
  cbn [foldl]. apply IH; [|done]. by apply fadd_shaped.
Qed.

Lemma method_total_shaped (params : CostParams) (ftx : spec_float) :
  double_shaped (method_total params ftx).
Proof.
  unfold method_total. apply foldl_fadd_shaped; [done|].
  intros cb. apply fmul_shaped.
Qed.

Lemma div_eucl_div_mod (a b : Z) : Z.div_eucl a b = (a / b, a mod b).
Proof. unfold Z.div, Z.modulo. by destruct (Z.div_eucl a b). Qed.

Lemma SFdiv_core_binary_bounds (mx my : positive) (ex ey : Z) :
  exists q e' l,
    SFdiv_core_binary prec emax (Zpos mx) ex (Zpos my) ey = (q, e', l)
    /\ 0 <= q
    /\ e' <= fexp prec emax (Zpos (digits2_pos mx) + ex
                             - (Zpos (digits2_pos my) + ey))
    /\ Zdigits2 q + e'
       <= Z.max e' (Zpos (digits2_pos mx) + ex
                    - (Zpos (digits2_pos my) + ey) + 1).
Proof.
  unfold SFdiv_core_binary. cbn [Zdigits2].
  set (dx := Zpos (digits2_pos mx)). set (dy := Zpos (digits2_pos my)).
  set (e' := Z.min (fexp prec emax (dx + ex - (dy + ey))) (ex - ey)).
  set (s := ex - ey - e').
  assert (0 <= s) as Hs by (unfold s, e'; lia).
  set (m' := match s with 0 => Zpos mx | Zpos _ => Z.shiftl (Zpos mx) s
                     | Zneg _ => 0 end).
  assert (m' = Zpos mx * 2 ^ s) as Hm'.
  { unfold m'. destruct s as [|k|k] eqn:Es; [cbn; lia | | lia].
    by rewrite Z.shiftl_mul_pow2. }
  rewrite div_eucl_div_mod. eexists _, _, _. split; [reflexivity|].
  assert (0 < 2 ^ s) as Hps by (apply Z.pow_pos_nonneg; lia).
  split; [apply Z.div_pos; lia|]. split; [unfold e'; lia|].
  assert (Zpos mx < 2 ^ dx) as Hmx
    by (apply (Zdigits2_lt_pow2 (Zpos mx) dx); cbn [Zdigits2]; unfold dx; lia).
  pose proof (Zdigits2_pow2_le (Zpos my) ltac:(lia)) as Hmy.
  cbn [Zdigits2] in Hmy. fold dy in Hmy.
  set (k := Z.max 0 (dx + s - dy + 1)).
  assert (Zdigits2 (m' / Zpos my) <= k) as Hq.
  { apply Zdigits2_lt_pow2; [apply Z.div_pos; lia | unfold k; lia |].
    apply Z.div_lt_upper_bound; [lia|].
    assert (2 ^ (dx + s) <= 2 ^ (dy - 1) * 2 ^ k) as Hpow.
    { rewrite <- Z.pow_add_r by (unfold dy, k; lia).
      apply Z.pow_le_mono_r; unfold k; lia. }
    assert (m' < 2 ^ (dx + s)) as Hlt.
    { rewrite Hm', Z.pow_add_r by (unfold dx; lia). nia. }
    assert (0 < 2 ^ k) by (apply Z.pow_pos_nonneg; unfold k; lia).
    nia. }
  unfold k, s in Hq. lia.
Qed.

Lemma Zdigits2_mul_pow2 (m k : Z) :
  0 < m -> 0 <= k -> Zdigits2 (m * 2 ^ k) = Zdigits2 m + k.
Proof.
  intros Hm Hk. assert (0 < 2 ^ k) by (apply Z.pow_pos_nonneg; lia).
  destruct m as [|p|p]; try lia.
  destruct (Z.pos p * 2 ^ k) as [|q|q] eqn:E; try lia.
  cbn [Zdigits2]. rewrite !digits2_pos_log2, <- E, Z.log2_mul_pow2 by lia. lia.
Qed.

Lemma SFdiv_core_binary_one (m : positive) :
  Zpos (digits2_pos m) = 53 ->
  SFdiv_core_binary prec emax (Zpos m) 971 4503599627370496 (-52)
  = (Zpos m~0, 970, loc_Exact).
Proof.
  intros Hd. unfold SFdiv_core_binary. cbn [Zdigits2]. rewrite Hd.
  match goal with
  | |- context [IntDef.Z.min ?a ?b] =>
      replace (IntDef.Z.min a b) with 970 by (vm_compute; reflexivity)
  end.
  change (971 - -52 - 970) with 53. cbv iota.
  rewrite div_eucl_div_mod.
  assert (Z.shiftl (Zpos m) 53 = Zpos (m~0) * 4503599627370496) as ->
    by (rewrite Z.shiftl_mul_pow2 by lia;
        change (2 ^ 53) with (2 * 4503599627370496); lia).
  rewrite Z.div_mul, Z.mod_mul by lia. reflexivity.
Qed.

Lemma fdiv_one_at_the_top (s : bool) (m : positive) :
  Zpos (digits2_pos m) = 53 ->
  fdiv (S754_finite s m 971) one = S754_finite s m 971.
Proof.
  intros Hd. unfold fdiv, one, SFdiv. rewrite (SFdiv_core_binary_one m Hd).
  rewrite xorb_false_r.
  unfold binary_round_aux, shr_fexp. cbn [Zdigits2 digits2_pos].
  rewrite Pos2Z.inj_succ, Hd.
  change (fexp prec emax (Z.succ 53 + 970) - 970) with 1.
  cbn [shr SpecFloat.iter_pos shr_1 shr_record_of_loc shr_m loc_of_shr_record
       round_nearest_even Zdigits2].
  cbn [orb round_nearest_even Zdigits2]. rewrite Hd.
  change (fexp prec emax (53 + (970 + 1)) - (970 + 1)) with 0.
  cbn [shr shr_m]. reflexivity.
Qed.

Lemma digits2_pos_ge_2 (p : positive) : p <> 1%positive -> 2 <= Zpos (digits2_pos p).
Proof. destruct p; cbn [digits2_pos]; intros; try lia; congruence. Qed.

Lemma binary_round_aux_digits (s : bool) (m e : Z) (l : location)
    (s' : bool) (my : positive) (ey : Z) :
  0 < m -> - 1074 < Zdigits2 m + e ->
  binary_round_aux prec emax s m e l = S754_finite s' my ey ->
  Zdigits2 m + e <= Zpos (digits2_pos my) + ey.
Proof.
  intros Hm Hlow. unfold binary_round_aux.
  destruct (shr_fexp_spec m e l ltac:(lia)) as (r1 & e1 & -> & Hm1 & He1 & Hd1).
  pose proof (round_nearest_even_bounds (shr_m r1) (loc_of_shr_record r1)) as Hr.
  assert (0 < Zdigits2 m) as Hdm by (destruct m; cbn; lia).
  pose proof (Zdigits2_mono (shr_m r1)
                (round_nearest_even (shr_m r1) (loc_of_shr_record r1))
                ltac:(lia)) as Hmono.
  destruct (shr_fexp_spec (round_nearest_even (shr_m r1) (loc_of_shr_record r1))
              e1 loc_Exact) as (r2 & e2 & -> & Hm2 & He2 & Hd2); [lia|].
  destruct (shr_m r2) as [|p|p] eqn:E; [done| |done].
  destruct (e2 <=? emax - prec); [|done].
  intros H. injection H as _ <- <-. cbn [Zdigits2] in Hd2.
  revert He1 Hd1 He2 Hd2 Hmono. unfold fexp, emin, prec, emax. lia.
Qed.

Lemma float_of_Z_digits (p my : positive) (s : bool) (ey : Z) :
  float_of_Z (Zpos p) = S754_finite s my ey ->
  Zpos (digits2_pos p) <= Zpos (digits2_pos my) + ey.
Proof.
  unfold float_of_Z, binary_normalize, binary_round, shl_align.
  destruct (fexp prec emax (Zpos (digits2_pos p) + 0) - 0) as [|k|k] eqn:Ek;
    intros H; apply binary_round_aux_digits in H;
    unfold shift_pos in *;
    cbn [Zdigits2] in *;
    rewrite ?digits2_pos_iter_xO, ?Pos2Z.inj_add in *; lia.
Qed.

Lemma float_of_Z_finite (p : positive) :
  Zpos (digits2_pos p) <= 1023 -> is_finite (float_of_Z (Zpos p)) = true.
Proof.
  intros Hd. unfold float_of_Z, binary_normalize, binary_round, shl_align.
  destruct (fexp prec emax (Zpos (digits2_pos p) + 0) - 0) as [|k|k] eqn:Ek;
    apply binary_round_aux_finite;
    unfold shift_pos in *;
    cbn [Zdigits2] in *;
    rewrite ?digits2_pos_iter_xO, ?Pos2Z.inj_add in *;
    revert Ek; unfold fexp, emin, prec, emax; lia.
Qed.

Lemma fdiv_by_quantity_finite (x : spec_float) (p : positive) :
  double_shaped x -> is_finite x = true ->
  is_finite (float_of_Z (Zpos p)) = true ->
  is_finite (fdiv x (float_of_Z (Zpos p))) = true.
Proof.
  intros Hshape Hfin Hy.
  destruct (float_of_Z_nonzero p) as [Hnz _].
  destruct (float_of_Z (Zpos p)) as [sy|sy| |sy my ey] eqn:Ey; try done.
  apply float_of_Z_digits in Ey as Hdy.
  destruct x as [sx|sx| |sx mx ex]; try discriminate; [done|].
  destruct Hshape as [Hdx Hex].
  destruct (decide (p = 1%positive /\ Zpos (digits2_pos mx) + ex = 1024))
    as [[-> Htop]|Hbelow].
  - assert (ex = 971) as -> by lia.
    change (float_of_Z 1) with one in Ey. rewrite <- Ey.
    rewrite fdiv_one_at_the_top; [done | lia].
  - unfold fdiv, SFdiv.
    destruct (SFdiv_core_binary_bounds mx my ex ey)
      as (q & e' & l & -> & Hq & He' & Hd).
    assert (1 <= Zpos (digits2_pos p)) by lia.
    apply binary_round_aux_finite; [done | |].
    + revert He'. unfold fexp, emin, prec, emax. lia.
    + destruct (decide (p = 1%positive)) as [-> | Hne].
      * cbn [digits2_pos] in *. revert He'. unfold fexp, emin, prec, emax. lia.
      * pose proof (digits2_pos_ge_2 p Hne).
        revert He'. unfold fexp, emin, prec, emax. lia.
Qed.
End binary64_quotients.

(** ** The averages *)

Lemma quotient_finite_iff (x : spec_float) (tx : Z) (ftx : spec_float) :
  double_shaped x -> (0 < tx)%Z -> float_of_int tx = Ok ftx ->
  is_finite (fdiv x ftx) = is_finite x.
Proof.
  intros Hshape Hpos Hftx.
  pose proof (float_of_int_positive tx ftx Hpos Hftx) as Hnz.
  destruct (float_of_int_Ok_inv tx ftx Hftx) as [-> Hfin].
  destruct (is_finite x) eqn:Hx.
  - destruct tx as [|p|p]; try lia. by apply fdiv_by_quantity_finite.
  - by apply fdiv_nonfinite.
Qed.

(** C2, as the code has it.  On complete dicts whose quantities convert to
    doubles the engine returns.  The average of a payment method with a
    positive quantity is the binary64 quotient of its total cost by the
    quantity, a finite non-zero divisor, and it is finite exactly when the
    total cost is: the guard keeps every division by zero out, and the
    average is [nan] or infinite only when the total cost already is.  With
    a quantity of 0 or less the average is exactly 0.0.  The grand average,
    for whatever double the sum of the cost column is and for quantities
    whose pandas column and sum stay within 64-bit integers, is likewise the
    quotient by the finite non-zero sum of the quantities when that sum is
    positive, finite when the summed cost is finite, and exactly 0.0
    otherwise. *)
Theorem averages_are_guarded_quotients
    (cost_params : gmap string CostParams) (transactions_dict : gmap string Z)
    (grand_total_cost : spec_float) :
  complete transactions_dict -> complete cost_params ->
  quantities_fit transactions_dict ->
  double_shaped grand_total_cost ->
  exists df breakdown,
    compute_costs cost_params transactions_dict = Ok (df, breakdown)
    /\ Forall2
         (fun pm r =>
            payment_method r = pm
            /\ transactions_dict !! pm = Some (transactions r)
            /\ ((0 < transactions r)%Z ->
                exists ftx,
                  float_of_int (transactions r) = Ok ftx
                  /\ is_zero ftx = false /\ is_finite ftx = true
                  /\ average_cost r = fdiv (total_cost r) ftx
                  /\ is_finite (average_cost r) = is_finite (total_cost r))
            /\ ((transactions r <= 0)%Z -> average_cost r = zero))
         PAYMENT_METHODS df
    /\ (Forall int64 (map transactions df) -> int64 (total_transactions df) ->
        ((0 < total_transactions df)%Z ->
         is_zero (float_of_Z (total_transactions df)) = false
         /\ is_finite (float_of_Z (total_transactions df)) = true
         /\ avg_cost grand_total_cost (total_transactions df)
            = fdiv grand_total_cost (float_of_Z (total_transactions df))
         /\ is_finite (avg_cost grand_total_cost (total_transactions df))
            = is_finite grand_total_cost)
        /\ ((total_transactions df <= 0)%Z ->
            avg_cost grand_total_cost (total_transactions df) = zero)).
Proof.
  intros Htx Hp Hfit Hshape.
  destruct (binary64_compute_costs_total cost_params transactions_dict
              Htx Hp Hfit) as (df & bd & Hrun & Hdf & _).
  exists df, bd. split; [exact Hrun|]. split; [|intros _ Hrange; split].
  - apply (Forall2_impl _ _ _ _ Hdf). intros pm r Hr.
    apply binary64_summary_row_Some in Hr
      as (tx & params & ftx & Htx' & Hp' & Hftx & ->).
    cbn [payment_method transactions total_cost average_cost].
    split; [reflexivity|]. split; [exact Htx'|]. unfold method_average. split.
    + intros Hpos. exists ftx.
      pose proof (float_of_int_positive tx ftx Hpos Hftx) as Hnz.
      destruct (float_of_int_Ok_inv tx ftx Hftx) as [Heq Hfin].
      rewrite (proj2 (Z.ltb_lt 0 tx) Hpos).
      repeat (split; [done|]).
      apply (quotient_finite_iff _ tx ftx); [apply method_total_shaped|done..].
    + intros Hle. by rewrite (proj2 (Z.ltb_ge 0 tx) Hle).
  - intros Hpos. unfold avg_cost. rewrite (proj2 (Z.ltb_lt _ _) Hpos).
    assert (is_finite (float_of_Z (total_transactions df)) = true) as Hfin.
    { destruct (total_transactions df) as [|n|n]; try lia.
      apply float_of_Z_finite. unfold int64 in Hrange.
      assert (Zpos (digits2_pos n) <= 63)%Z; [|lia].
      apply digits2_pos_le; lia. }
    split; [by apply float_of_Z_positive_nonzero|]. split; [exact Hfin|].
    split; [reflexivity|].
    apply (quotient_finite_iff _ (total_transactions df)); [done..|].
    unfold float_of_int.
    by destruct (float_of_Z (total_transactions df)).
  - intros Hle. unfold avg_cost. by rewrite (proj2 (Z.ltb_ge _ _) Hle).
Qed.

(** C2, as the specification words it, fails: with a PSP fee of [1e308] and
    a quantity of 10 the total cost overflows to [inf], and the average
    [inf / 10.0] is [inf]. *)
Lemma average_is_infinite_for_a_huge_fee :
  ~ averages_guarded_and_finite (uniform_params huge_fee_params)
      (uniform_transactions 10).
Proof.
  intros (df & bd & Hrun & Hall).
  apply binary64_compute_costs_frame in Hrun. vm_compute in Hrun.
  injection Hrun as <-. apply Forall_cons in Hall as [[Hfin _] _].
  vm_compute in Hfin. discriminate Hfin.
Qed.

(** ** Zero quantities *)

Lemma method_total_zero_quantity (params : CostParams) :
  (forall cb, cb ∈ cost_blocks -> is_finite (per_unit cb params) = true) ->
  method_total params zero = zero.
Proof.
  intros Hfin. unfold method_total. apply foldl_fadd_zero.
  intros cb Hcb. by apply zero_block_cost, Hfin.
Qed.

(** C8, as the code has it.  For a payment method whose quantity is 0 and
    whose five per-unit values are finite (the write-off value is
    [write_off_rate * 200.0], which can overflow for a finite rate), the
    engine returns a total cost of exactly 0.0, an average of exactly 0.0
    and five block costs of exactly 0.0. *)
Theorem zero_quantity_costs_nothing_for_finite_per_unit_values
    (cost_params : gmap string CostParams) (transactions_dict : gmap string Z)
    (pm : string) (params : CostParams) :
  complete transactions_dict -> complete cost_params ->
  quantities_fit transactions_dict ->
  pm ∈ PAYMENT_METHODS ->
  transactions_dict !! pm = Some 0%Z ->
  cost_params !! pm = Some params ->
  (forall cb, cb ∈ cost_blocks -> is_finite (per_unit cb params) = true) ->
  exists df breakdown r row,
    compute_costs cost_params transactions_dict = Ok (df, breakdown)
    /\ r ∈ df /\ payment_method r = pm /\ transactions r = 0%Z
    /\ total_cost r = zero /\ average_cost r = zero
    /\ breakdown !! pm = Some row
    /\ forall cb, cb ∈ cost_blocks -> row !! cb = Some zero.
Proof.
  intros Htx Hp Hfit Hpm Hzero Hparams Hfin.
  destruct (binary64_compute_costs_total cost_params transactions_dict
              Htx Hp Hfit) as (df & bd & Hrun & Hdf & Hbd).
  destruct (Forall2_elem_l _ _ _ pm Hdf Hpm) as (r & Hr & Hrow).
  apply binary64_summary_row_Some in Hrow
    as (tx & params' & ftx & Htx' & Hp' & Hftx & ->).
  assert (tx = 0%Z) as -> by congruence.
  assert (params' = params) as -> by congruence.
  assert (ftx = zero) as ->
    by (change (float_of_int 0) with (Ok zero) in Hftx; congruence).
  destruct (Hbd pm Hpm 0%Z params zero Hzero Hparams eq_refl)
    as (row & Hrow & Hcells).
  exists df, bd,
    (mkSummaryRow pm 0 (method_total params zero)
                  (method_average params 0 zero)), row.
  cbn [payment_method transactions total_cost average_cost].
  split; [exact Hrun|].
  split; [exact Hr|]. split; [reflexivity|]. split; [reflexivity|].
  split; [by apply method_total_zero_quantity|]. split; [reflexivity|].
  split; [exact Hrow|].
  intros cb Hcb. rewrite (Hcells cb Hcb). f_equal.
  by apply zero_block_cost, Hfin.
Qed.

(** C8, as the specification words it, fails: the record with a write-off
    rate of [1e307] is finite, its per-unit write-off [1e307 * 200.0] is
    [inf], and with a quantity of 0 the block cost [inf * 0.0] and the total
    are [nan]. *)
Lemma zero_quantity_total_is_nan_for_a_huge_write_off_rate :
  ~ zero_quantity_costs_nothing (uniform_params huge_write_off_params)
      (uniform_transactions 0).
Proof.
  intros (df & bd & Hrun & Hall).
  apply binary64_compute_costs_frame in Hrun. vm_compute in Hrun.
  injection Hrun as <-.
  destruct (Hall "Invoice (no fee)"%string huge_write_off_params
              (mkSummaryRow "Invoice (no fee)" 0 S754_nan zero))
    as [Htotal _];
    [reflexivity | reflexivity | reflexivity | left | reflexivity |].
  discriminate Htotal.
Qed.

(** ** Exceptions of the engine *)

Lemma float_of_int_Raise (n : Z) (e : exn) :
  float_of_int n = Raise e -> e = OverflowError.
Proof. unfold float_of_int. destruct (float_of_Z n); congruence. Qed.

Lemma block_body_overflow (pm : string) (per_tx_blocks : gmap string spec_float)
    (tx : Z) (st : gmap string (gmap string spec_float) * spec_float)
    (cb : string) (per_tx : spec_float) (e : exn) :
  per_tx_blocks !! cb = Some per_tx -> float_of_int tx = Raise e ->
  block_body pm per_tx_blocks tx st cb = Raise e.
Proof.
  intros Hper%getitem_Ok Hftx. destruct st as [breakdown acc].
  unfold block_body, mul_int. by rewrite (bind_Ok_l _ _ _ Hper), Hftx.
Qed.

Lemma method_body_raises (cost_params : gmap string CostParams)
    (transactions_dict : gmap string Z)
    (st : list SummaryRow * gmap string (gmap string spec_float))
    (pm : string) (e : exn) :
  method_outcome cost_params transactions_dict pm = Some e ->
  method_body cost_params transactions_dict st pm = Raise e.
Proof.
  intros H. destruct st as [rows breakdown].
  unfold method_outcome in H. unfold method_body, getitem.
  destruct (transactions_dict !! pm) as [tx|]; [|by injection H as <-].
  destruct (cost_params !! pm) as [params|]; [|by injection H as <-].
  destruct (float_of_int tx) as [ftx|e'] eqn:Hftx; [discriminate|].
  injection H as ->. cbn [mbind result_bind]. unfold cost_blocks.
  rewrite for_each_cons.
  rewrite (block_body_overflow pm _ tx _ "PSP fees" (psp_fee params) e);
    [reflexivity | reflexivity | exact Hftx].
Qed.

Lemma method_outcome_None (cost_params : gmap string CostParams)
    (transactions_dict : gmap string Z) (pm : string) :
  method_outcome cost_params transactions_dict pm = None ->
  exists tx params ftx,
    transactions_dict !! pm = Some tx /\ cost_params !! pm = Some params
    /\ float_of_int tx = Ok ftx.
Proof.
  unfold method_outcome. intros H.
  destruct (transactions_dict !! pm) as [tx|]; [|discriminate].
  destruct (cost_params !! pm) as [params|]; [|discriminate].
  destruct (float_of_int tx) as [ftx|e] eqn:Hftx; [|discriminate].
  by exists tx, params, ftx.
Qed.

Lemma method_outcome_Some (cost_params : gmap string CostParams)
    (transactions_dict : gmap string Z) (pm : string) (e : exn) :
  method_outcome cost_params transactions_dict pm = Some e ->
  (e = KeyError pm
   /\ (transactions_dict !! pm = None \/ cost_params !! pm = None))
  \/ (e = OverflowError
      /\ exists tx, transactions_dict !! pm = Some tx
                    /\ float_of_int tx = Raise OverflowError).
Proof.
  unfold method_outcome. intros H.
  destruct (transactions_dict !! pm) as [tx|];
    [|injection H as <-; left; split; [reflexivity | by left]].
  destruct (cost_params !! pm) as [params|];
    [|injection H as <-; left; split; [reflexivity | by right]].
  destruct (float_of_int tx) as [ftx|e'] eqn:Hftx; [discriminate|].
  injection H as ->. pose proof (float_of_int_Raise tx e Hftx) as ->.
  right. split; [reflexivity|]. by exists tx.
Qed.

Lemma method_loop_outcome (cost_params : gmap string CostParams)
    (transactions_dict : gmap string Z) (pms : list string)
    (rows : list SummaryRow) (breakdown : gmap string (gmap string spec_float)) :
  NoDup pms -> untouched breakdown pms ->
  match head (omap (method_outcome cost_params transactions_dict) pms) with
  | None =>
      exists out,
        for_each (method_body cost_params transactions_dict) pms
                 (rows, breakdown) = Ok out
  | Some e =>
      for_each (method_body cost_params transactions_dict) pms
               (rows, breakdown) = Raise e
      /\ exists pm, pm ∈ pms
                    /\ method_outcome cost_params transactions_dict pm = Some e
  end.
Proof.
  revert rows breakdown.
  induction pms as [|x pms IH]; intros rows breakdown Hnd Hzero.
  - cbn. by eexists.
  - apply NoDup_cons in Hnd as [Hx Hnd]. cbn [omap list_omap].
    destruct (method_outcome cost_params transactions_dict x) as [e|] eqn:E.
    + cbn [head]. split.
      * rewrite for_each_cons.
        by rewrite (method_body_raises _ _ _ _ _ E).
      * exists x. split; [left | exact E].
    + apply method_outcome_None in E as (tx & params & ftx & Htx & Hp & Hftx).
      destruct (binary64_method_body_Ok cost_params transactions_dict rows
                  breakdown x tx params ftx Htx Hp Hftx)
        as (row & Hstep & _).
      { intros pm Hpm. apply Hzero. apply list_elem_of_singleton in Hpm as ->.
        left. }
      specialize (IH (rows ++ [mkSummaryRow x tx (method_total params ftx)
                                            (method_average params tx ftx)])
                     (<[x := row]> breakdown) Hnd).
      destruct (head (omap (method_outcome cost_params transactions_dict) pms))
        as [e|].
      * destruct IH as (Hraise & pm & Hpm & Hout).
        { intros pm Hpm. rewrite lookup_insert_ne by (intros ->; done).
          apply Hzero. by right. }
        split; [|exists pm; split; [by right | exact Hout]].
        rewrite for_each_cons, Hstep. exact Hraise.
      * destruct IH as (out & Hout).
        { intros pm Hpm. rewrite lookup_insert_ne by (intros ->; done).
          apply Hzero. by right. }
        exists out. rewrite for_each_cons, Hstep. exact Hout.
Qed.

(** X1.  [compute_costs] returns exactly when every payment method has an
    entry in both dicts and a quantity that converts to a double.  Otherwise
    it raises what the first payment method, in the order of
    [PAYMENT_METHODS], that fails this raises: [KeyError] of that method when
    one of its entries is missing, [OverflowError] when its quantity is too
    large for a double.  It raises nothing else: no [ZeroDivisionError],
    whatever the quantities are. *)
Theorem compute_costs_returns_or_raises_first_failure
    (cost_params : gmap string CostParams) (transactions_dict : gmap string Z) :
  match first_failure cost_params transactions_dict with
  | None =>
      exists df breakdown,
        compute_costs cost_params transactions_dict = Ok (df, breakdown)
  | Some e =>
      compute_costs cost_params transactions_dict = Raise e
      /\ exists pm,
           pm ∈ PAYMENT_METHODS
           /\ ((e = KeyError pm
                /\ (transactions_dict !! pm = None \/ cost_params !! pm = None))
               \/ (e = OverflowError
                   /\ exists tx, transactions_dict !! pm = Some tx
                                 /\ float_of_int tx = Raise OverflowError))
  end.
Proof.
  pose proof (method_loop_outcome cost_params transactions_dict PAYMENT_METHODS
                [] zero_breakdown NoDup_PAYMENT_METHODS) as H.
  unfold first_failure, compute_costs.
  destruct (head (omap (method_outcome cost_params transactions_dict)
                       PAYMENT_METHODS)) as [e|].
  - destruct H as (Hraise & pm & Hpm & Hout).
    { intros pm Hpm. by apply binary64_zero_breakdown_lookup. }
    split; [exact Hraise|]. exists pm. split; [exact Hpm|].
    by apply method_outcome_Some.
  - destruct H as ([df bd] & Hout).
    { intros pm Hpm. by apply binary64_zero_breakdown_lookup. }
    by exists df, bd.
Qed.

(** ** The scenario builder does not clamp *)

Lemma trunc_toward_zero_negative (x : Q) :
  x <= -1 -> (trunc_toward_zero x < 0)%Z.
Proof.
  intros Hx.
  destruct (trunc_toward_zero_bounds x) as [_ Hneg].
  destruct Hneg as [Hlo _]; [lra|].
  assert (inject_Z (trunc_toward_zero x - 1) < inject_Z (-1)) as Hlt
    by (change (inject_Z (-1)) with (-1); lra).
  rewrite <- Zlt_Qlt in Hlt. lia.
Qed.

(** X5.  The scenario builder does not clamp: when the run raises no
    exception (every product is a finite double) and the binary64 product
    [base * growth_factor * (1.0 + change / 100.0)] of a payment method is -1
    or less, the quantity stored for that method is negative. *)
Theorem scenario_tx_is_not_clamped
    (btx : gmap string Z) (growth_factor : spec_float)
    (relative_changes : gmap string Z) (pm : string) (base change : Z)
    (fb fc : spec_float) :
  complete btx -> complete relative_changes ->
  products_finite btx growth_factor relative_changes ->
  pm ∈ PAYMENT_METHODS ->
  btx !! pm = Some base -> relative_changes !! pm = Some change ->
  float_of_int base = Ok fb -> float_of_int change = Ok fc ->
  float_value (scenario_product fb growth_factor fc) <= -1 ->
  exists stx quantity,
    scenario_tx btx growth_factor relative_changes = Ok stx
    /\ stx !! pm = Some quantity /\ (quantity < 0)%Z.
Proof.
  intros Hb Hc Hfin Hpm Hbase Hchange Hfb Hfc Hle.
  destruct (scenario_tx_runs btx growth_factor relative_changes Hb Hc Hfin)
    as (stx & Hrun & Hin).
  exists stx, (trunc_toward_zero
                 (float_value (scenario_product fb growth_factor fc))).
  split; [exact Hrun|]. split; [by apply (Hin pm base change)|].
  by apply trunc_toward_zero_negative.
Qed.

(** ** The unchanged scenario *)

Lemma binary64_method_body_agree
    (cost_params cost_params' : gmap string CostParams)
    (transactions_dict transactions_dict' : gmap string Z)
    (st : list SummaryRow * gmap string (gmap string spec_float))
    (pm : string) :
  transactions_dict !! pm = transactions_dict' !! pm ->
  cost_params !! pm = cost_params' !! pm ->
  method_body cost_params transactions_dict st pm
  = method_body cost_params' transactions_dict' st pm.
Proof.
  intros Htx Hp. destruct st as [rows breakdown].
  unfold method_body, getitem. by rewrite Htx, Hp.
Qed.

(** X6.  With growth factor 1.0 and every relative change 0, for baseline
    quantities between 0 and [2^53], the engine run on the scenario
    quantities returns what it returns on the baseline quantities: the same
    summary frame and the same breakdown, or the same exception. *)
Theorem unchanged_scenario_repeats_baseline_costs
    (cost_params : gmap string CostParams) (btx : gmap string Z) :
  complete btx ->
  (forall pm base, pm ∈ PAYMENT_METHODS -> btx !! pm = Some base ->
                   (0 <= base <= 2 ^ 53)%Z) ->
  exists stx,
    scenario_tx btx one zero_changes = Ok stx
    /\ compute_costs cost_params stx = compute_costs cost_params btx.
Proof.
  intros Hb Hrange.
  destruct (scenario_tx_unchanged btx Hb Hrange) as (stx & Hrun & Hsame).
  exists stx. split; [exact Hrun|].
  unfold compute_costs. apply for_each_ext. intros st pm Hpm.
  apply binary64_method_body_agree; [by apply Hsame | reflexivity].
Qed.

(** ** The statements of the binary64 reading at sample inputs *)

Ltac quantities_fit_by_evaluation :=
  unfold quantities_fit, PAYMENT_METHODS;
  repeat (constructor;
          [intros tx Htx; vm_compute in Htx; injection Htx as <-;
           eexists; vm_compute; reflexivity|]);
  constructor.

Ltac products_finite_by_evaluation :=
  let pm := fresh "pm" in
  let Hpm := fresh "Hpm" in
  let Hbase := fresh "Hbase" in
  let Hchange := fresh "Hchange" in
  intros pm ? ? Hpm Hbase Hchange; payment_method_cases Hpm;
  vm_compute in Hbase, Hchange;
  injection Hbase as <-; injection Hchange as <-;
  eexists _, _; (split; [vm_compute; reflexivity|]);
  (split; [vm_compute; reflexivity|]); vm_compute; reflexivity.

Lemma scenario_tx_truncates_binary64_product_witness :
  exists stx,
    scenario_tx baseline_transactions (decimal 105 100)
                thirteen_percent_more_invoices = Ok stx
    /\ forall pm base change fb fc,
         pm ∈ PAYMENT_METHODS ->
         baseline_transactions !! pm = Some base ->
         thirteen_percent_more_invoices !! pm = Some change ->
         float_of_int base = Ok fb -> float_of_int change = Ok fc ->
         stx !! pm
         = Some (trunc_toward_zero
                   (float_value
                      (fmul (fmul fb (decimal 105 100))
                            (fadd one (fdiv fc hundred))))).
Proof.
  apply (scenario_tx_truncates_binary64_product baseline_transactions
           (decimal 105 100) thirteen_percent_more_invoices).
  - by_evaluation.
  - by_evaluation.
  - products_finite_by_evaluation.
Defined.

Lemma scenario_tx_identity_up_to_2_53_witness :
  exists stx,
    scenario_tx baseline_transactions one zero_changes = Ok stx
    /\ forall pm, pm ∈ PAYMENT_METHODS ->
                  stx !! pm = baseline_transactions !! pm.
Proof.
  apply (scenario_tx_identity_up_to_2_53 baseline_transactions).
  - by_evaluation.
  - intros pm base Hpm Hbase. payment_method_cases Hpm;
      vm_compute in Hbase; injection Hbase as <-; lia.
Defined.

Lemma averages_are_guarded_quotients_witness :
  exists df breakdown,
    compute_costs default_cost_params sample_transactions = Ok (df, breakdown)
    /\ Forall2
         (fun pm r =>
            payment_method r = pm
            /\ sample_transactions !! pm = Some (transactions r)
            /\ ((0 < transactions r)%Z ->
                exists ftx,
                  float_of_int (transactions r) = Ok ftx
                  /\ is_zero ftx = false /\ is_finite ftx = true
                  /\ average_cost r = fdiv (total_cost r) ftx
                  /\ is_finite (average_cost r) = is_finite (total_cost r))
            /\ ((transactions r <= 0)%Z -> average_cost r = zero))
         PAYMENT_METHODS df
    /\ (Forall int64 (map transactions df) -> int64 (total_transactions df) ->
        ((0 < total_transactions df)%Z ->
         is_zero (float_of_Z (total_transactions df)) = false
         /\ is_finite (float_of_Z (total_transactions df)) = true
         /\ avg_cost hundred (total_transactions df)
            = fdiv hundred (float_of_Z (total_transactions df))
         /\ is_finite (avg_cost hundred (total_transactions df))
            = is_finite hundred)
        /\ ((total_transactions df <= 0)%Z ->
            avg_cost hundred (total_transactions df) = zero)).
Proof.
  apply (averages_are_guarded_quotients default_cost_params
           sample_transactions hundred).
  - by_evaluation.
  - by_evaluation.
  - quantities_fit_by_evaluation.
  - split; vm_compute; discriminate.
Defined.

Lemma zero_quantity_costs_nothing_for_finite_per_unit_values_witness :
  exists df breakdown r row,
    compute_costs default_cost_params sample_transactions = Ok (df, breakdown)
    /\ r ∈ df /\ payment_method r = "Prepayment"%string
    /\ transactions r = 0%Z
    /\ total_cost r = zero /\ average_cost r = zero
    /\ breakdown !! "Prepayment"%string = Some row
    /\ forall cb, cb ∈ cost_blocks -> row !! cb = Some zero.
Proof.
  apply (zero_quantity_costs_nothing_for_finite_per_unit_values
           default_cost_params sample_transactions "Prepayment"
           (mkCostParams zero (decimal 8 100) (decimal 5 100) zero zero)).
  - by_evaluation.
  - by_evaluation.
  - quantities_fit_by_evaluation.
  - by_evaluation.
  - reflexivity.
  - reflexivity.
  - intros cb Hcb. unfold cost_blocks in Hcb.
    rewrite !elem_of_cons, elem_of_nil in Hcb.
    destruct Hcb as [-> | [-> | [-> | [-> | [-> | []]]]]];
      vm_compute; reflexivity.
Defined.

Lemma scenario_tx_is_not_clamped_witness :
  exists stx quantity,
    scenario_tx baseline_transactions one invoices_cut_by_150_percent = Ok stx
    /\ stx !! "Invoice (no fee)"%string = Some quantity /\ (quantity < 0)%Z.
Proof.
  apply (scenario_tx_is_not_clamped baseline_transactions one
           invoices_cut_by_150_percent "Invoice (no fee)" 600000 (-150)
           (float_of_Z 600000) (float_of_Z (-150))).
  - by_evaluation.
  - by_evaluation.
  - products_finite_by_evaluation.
  - by_evaluation.
  - reflexivity.
  - reflexivity.
  - reflexivity.
  - reflexivity.
  - vm_compute. discriminate.
Defined.

Lemma unchanged_scenario_repeats_baseline_costs_witness :
  exists stx,
    scenario_tx baseline_transactions one zero_changes = Ok stx
    /\ compute_costs default_cost_params stx
       = compute_costs default_cost_params baseline_transactions.
Proof.
  apply (unchanged_scenario_repeats_baseline_costs default_cost_params
           baseline_transactions).
  - by_evaluation.
  - intros pm base Hpm Hbase. payment_method_cases Hpm;
      vm_compute in Hbase; injection Hbase as <-; lia.
Defined.

End binary64.
